(** * The document manager of grammarkdown-server

    A shallow embedding of [src/lib/documents.ts] (the [DocumentManager]
    class) and of the request handlers of [src/lib/server.ts], with the
    properties of the document-state layer proved about them.

    Conventions of the embedding.
    - A JavaScript string is a [string]: the bytes of its UTF-8 encoding.
      The two path separators and every character that [encodeURIComponent]
      leaves alone are single bytes below 128, so splitting, joining and
      [charAt(0)] agree with their UTF-16 originals on such strings.
    - A [GrammarDocument] is a mutable object; the registry and the local
      variables of the methods hold references to it.  Objects live in a
      store ([heap]) and a reference is an index into it.
    - A property that is [undefined] in the source is [None]; the three
      boolean flags are only ever tested for truthiness, so [undefined]
      and [false] are both [false].
    - Every method is a function from the manager's state to its next
      state (and a result).  Events fired on the emitters are appended to
      a trace.
    - The registry is a finite map from names to references.  Its values
      are enumerated in the map's order, not in the order of insertion;
      no property below depends on the order. *)

From stdpp Require Import base option list gmap strings.
From Stdlib Require Import Ascii String NArith Lia.

Local Open Scope string_scope.
Local Open Scope list_scope.

(** ** Strings: the pieces of [normalizeUri] *)

Definition isSeparator (c : ascii) : bool :=
  (Ascii.eqb c "/" || Ascii.eqb c "\")%bool.

(** [s.split(/[\\/]/)]: the segments between separators; never empty. *)
Fixpoint split (s : string) : list string :=
  match s with
  | EmptyString => [EmptyString]
  | String c rest =>
      if isSeparator c then EmptyString :: split rest
      else match split rest with
           | [] => [String c EmptyString]
           | seg :: segs => String c seg :: segs
           end
  end.

(** [segments.join(sep)] *)
Definition join (sep : string) (segments : list string) : string :=
  String.concat sep segments.

(** [s.charAt(i)]: a string of one character, empty when out of range. *)
Definition charAt (i : nat) (s : string) : string :=
  match String.get i s with
  | Some c => String c EmptyString
  | None => EmptyString
  end.

(** The characters [encodeURIComponent] does not escape:
    letters, digits and [- _ . ! ~ * ' ( )]. *)
Definition isUnreserved (c : ascii) : bool :=
  let n := N_of_ascii c in
  ((65 <=? n) && (n <=? 90) || (97 <=? n) && (n <=? 122) ||
   (48 <=? n) && (n <=? 57) ||
   existsb (N.eqb n) [45; 95; 46; 33; 126; 42; 39; 40; 41])%N%bool.

Definition hexDigit (n : N) : ascii :=
  (if n <? 10 then ascii_of_N (48 + n) else ascii_of_N (55 + n))%N.

Definition percentEncode (c : ascii) : string :=
  let n := N_of_ascii c in
  String "%" (String (hexDigit (n / 16)) (String (hexDigit (n mod 16)) EmptyString)).

Fixpoint encodeURIComponent (s : string) : string :=
  match s with
  | EmptyString => EmptyString
  | String c rest =>
      (if isUnreserved c then String c EmptyString else percentEncode c)
      +:+ encodeURIComponent rest
  end.

(** ** Data model *)

(** [string | TextDocumentIdentifier]: what the public methods accept. *)
Inductive Locator :=
  | Path (path : string)
  | TextDocumentIdentifier (uri : string).

(** [class GrammarDocument]; the constructor sets [filename] only. *)
Record GrammarDocument := mkGrammarDocument {
  uri : option string;
  filename : string;
  text : option string;
  isOpenOnClient : bool;
  isOpenOnServer : bool;
  marked : bool
}.

Definition newGrammarDocument (name : string) : GrammarDocument :=
  {| uri := None; filename := name; text := None;
     isOpenOnClient := false; isOpenOnServer := false; marked := false |}.

#[global] Instance GrammarDocument_inhabited : Inhabited GrammarDocument :=
  populate (newGrammarDocument EmptyString).

Definition set_uri (u : string) (d : GrammarDocument) : GrammarDocument :=
  {| uri := Some u; filename := filename d; text := text d;
     isOpenOnClient := isOpenOnClient d; isOpenOnServer := isOpenOnServer d;
     marked := marked d |}.
Definition set_text (t : string) (d : GrammarDocument) : GrammarDocument :=
  {| uri := uri d; filename := filename d; text := Some t;
     isOpenOnClient := isOpenOnClient d; isOpenOnServer := isOpenOnServer d;
     marked := marked d |}.
Definition set_isOpenOnClient (b : bool) (d : GrammarDocument) : GrammarDocument :=
  {| uri := uri d; filename := filename d; text := text d;
     isOpenOnClient := b; isOpenOnServer := isOpenOnServer d;
     marked := marked d |}.
Definition set_isOpenOnServer (b : bool) (d : GrammarDocument) : GrammarDocument :=
  {| uri := uri d; filename := filename d; text := text d;
     isOpenOnClient := isOpenOnClient d; isOpenOnServer := b;
     marked := marked d |}.
Definition set_marked (b : bool) (d : GrammarDocument) : GrammarDocument :=
  {| uri := uri d; filename := filename d; text := text d;
     isOpenOnClient := isOpenOnClient d; isOpenOnServer := isOpenOnServer d;
     marked := b |}.

(** A reference to a [GrammarDocument] object. *)
Abbreviation ref := nat.

(** What the emitters fire, and what is sent on the connection
    ([connection.sendDiagnostics], without the diagnostics themselves).
    Only [_didUpdate] has a subscriber in this program
    ([documents.onDidUpdate(onDocumentsUpdated)] in server.ts). *)
Inductive Event :=
  | DidOpen (document : ref)
  | DidOpenOnClient (document : ref)
  | DidOpenOnServer (document : ref)
  | DidChangeContent (document : ref)
  | DidClose (document : ref)
  | DidCloseOnClient (document : ref)
  | DidCloseOnServer (document : ref)
  | DidUpdate
  | SendDiagnostics (uri : option string).

#[global] Instance Event_eq_dec : EqDecision Event.
Proof. solve_decision. Defined.

(** The compilation state is opaque to the manager.  It is represented by
    what the manager hands to the compiler: the constructor's arguments and
    the answers of the read-callback. *)
#[local] Set Warnings "-register-all".
Inductive Grammar :=
  | NewGrammar (rootNames : list string) (oldGrammar : option Grammar)
               (delivered : list (string * option string)).
#[local] Set Warnings "register-all".

(** ** Locator-to-URI conversion *)

Definition normalizeUri (id : Locator) : string :=
  match id with
  | TextDocumentIdentifier u => u
  | Path p =>
      let pathname := join "/" (map encodeURIComponent (split p)) in
      if String.eqb (charAt 0 pathname) "/"
      then "file://" +:+ pathname
      else "file:///" +:+ pathname
  end.

(** The conversion in the words of the specification: the prefix is chosen
    by whether the original path begins with a slash. *)
Definition beginsWithSlash (p : string) : bool :=
  match p with
  | String c _ => Ascii.eqb c "/"
  | EmptyString => false
  end.

Definition spec_normalizeUri (p : string) : string :=
  (if beginsWithSlash p then "file://" else "file:///")
  +:+ join "/" (map encodeURIComponent (split p)).

Definition beginsWithSeparator (p : string) : bool :=
  match p with
  | String c _ => isSeparator c
  | EmptyString => false
  end.

(** ** Collaborators *)

(** The native host of the compiler library ([Host.getHost()]). *)
Class Host := {
  host_resolveFile : string -> string;
  host_normalizeFile : string -> string;
  host_readFile : string -> option string
}.

(** [Files.uriToFilePath] of the transport library, on the URIs it has a
    path for: the [file:] URIs, as [normalizeUri] makes them.  For another
    URI the library gives [null], [resolveFile] raises on it, and the call
    ends there, before the manager is touched. *)
Class Files := {
  uriToFilePath : string -> string
}.

(** The compiler, seen from the manager: given the root names, the previous
    compilation state and what the read-callback answers, the files it asks
    the read-callback for while [new Grammar(...)] and [check()] run. *)
Class Compiler := {
  compiler_reads :
    list string -> option Grammar -> (string -> option string) -> list string
}.

(** The outcome of code that may raise (a [TypeError] on a property of
    [undefined], or an exception of a library). *)
Inductive Js (A : Type) :=
  | Value (a : A)
  | Fault.
Arguments Value {A} a.
Arguments Fault {A}.

Record Position := mkPosition { line : nat; character : nat }.
Record Range := mkRange { range_start : Position; range_end : Position }.
Record Location := mkLocation { location_uri : string; location_range : Range }.
Record TextEdit := mkTextEdit { newText : string; textEdit_range : Range }.
Record WorkspaceEdit := mkWorkspaceEdit { changes : gmap string (list TextEdit) }.

(** The compiler, seen from server.ts: the queries on a compilation state.
    A source file is a node; a navigator is a cursor that its [moveTo...]
    methods advance.  [resolver_createNavigator] is the one call the
    handlers make with a value that can be [undefined], and may raise. *)
Class Analysis := {
  Node : Type;
  Navigator : Type;
  grammar_getSourceFile : Grammar -> string -> option Node;
  resolver_createNavigator : Grammar -> option Node -> Js (option Navigator);
  navigator_moveToPosition : Navigator -> Position -> bool * Navigator;
  navigator_moveToName : Navigator -> bool * Navigator;
  navigator_isIdentifier : Navigator -> bool;
  navigator_getNode : Navigator -> Node;
  navigator_getRoot : Navigator -> Node;
  resolver_getDeclarations : Grammar -> Node -> option (list Node);
  resolver_getReferences : Grammar -> Node -> option (list Node);
  node_text_length : Node -> Z;
  node_pos : Node -> Z;
  node_end : Node -> Z;
  node_filename : Node -> string;
  lineMap_getLineAndCharacterOfPosition : Node -> Z -> Position
}.

(** ** The manager's state *)

Record DocumentManager := mkDocumentManager {
  heap : list GrammarDocument;
  _documents : gmap string nat;
  _rootNames : option (list string);
  _grammar : option Grammar;
  _updateSuspended : nat;
  _updateRequested : bool;
  _updating : bool;
  events : list Event
}.

Definition with_heap (h : list GrammarDocument) (st : DocumentManager) :=
  mkDocumentManager h (_documents st) (_rootNames st) (_grammar st)
    (_updateSuspended st) (_updateRequested st) (_updating st) (events st).
Definition with_documents (m : gmap string nat) (st : DocumentManager) :=
  mkDocumentManager (heap st) m (_rootNames st) (_grammar st)
    (_updateSuspended st) (_updateRequested st) (_updating st) (events st).
Definition with_rootNames (r : option (list string)) (st : DocumentManager) :=
  mkDocumentManager (heap st) (_documents st) r (_grammar st)
    (_updateSuspended st) (_updateRequested st) (_updating st) (events st).
Definition with_grammar (g : option Grammar) (st : DocumentManager) :=
  mkDocumentManager (heap st) (_documents st) (_rootNames st) g
    (_updateSuspended st) (_updateRequested st) (_updating st) (events st).
Definition with_updateSuspended (n : nat) (st : DocumentManager) :=
  mkDocumentManager (heap st) (_documents st) (_rootNames st) (_grammar st)
    n (_updateRequested st) (_updating st) (events st).
Definition with_updateRequested (b : bool) (st : DocumentManager) :=
  mkDocumentManager (heap st) (_documents st) (_rootNames st) (_grammar st)
    (_updateSuspended st) b (_updating st) (events st).
Definition with_updating (b : bool) (st : DocumentManager) :=
  mkDocumentManager (heap st) (_documents st) (_rootNames st) (_grammar st)
    (_updateSuspended st) (_updateRequested st) b (events st).
Definition with_events (l : list Event) (st : DocumentManager) :=
  mkDocumentManager (heap st) (_documents st) (_rootNames st) (_grammar st)
    (_updateSuspended st) (_updateRequested st) (_updating st) l.

(** [new DocumentManager()] *)
Definition newDocumentManager : DocumentManager :=
  mkDocumentManager [] ∅ None None 0 false false [].

(** Reading and writing the fields of the object behind a reference. *)
Definition obj (st : DocumentManager) (document : ref) : GrammarDocument :=
  heap st !!! document.
Definition update (document : ref) (f : GrammarDocument -> GrammarDocument)
    (st : DocumentManager) : DocumentManager :=
  with_heap (alter f document (heap st)) st.

(** [emitter.fire(...)], as far as the trace goes. *)
Definition fire (e : Event) (st : DocumentManager) : DocumentManager :=
  with_events (events st ++ [e]) st.

(** ** The methods of [DocumentManager] *)

Section Manager.
Context `{Host} `{Files} `{Compiler} `{Analysis}.

(** What the subscribers of [_didUpdate] do to the manager when the
    emitter calls them.  A subscriber that throws leaves the state as it
    is at the throw; no statement of the manager follows a dispatch
    except the [finally] of [reportUpdate], so the state the manager ends
    in does not depend on whether the emitter swallows the exception. *)
Variable subscribers : DocumentManager -> DocumentManager.

Definition normalizeFilename (id : Locator) : string :=
  let filename :=
    match id with
    | TextDocumentIdentifier u => uriToFilePath u
    | Path p => p
    end in
  let resolved := host_resolveFile filename in
  let normalized := host_normalizeFile resolved in
  normalized.

Definition getDocument (filename : string) (st : DocumentManager) : option ref :=
  _documents st !! filename.

Definition createDocument (filename : string) (st : DocumentManager)
    : ref * DocumentManager :=
  let document := List.length (heap st) in
  let st := with_heap (heap st ++ [newGrammarDocument filename]) st in
  let st := with_documents (<[filename := document]> (_documents st)) st in
  (document, st).

Definition getOrCreateDocument (filename : string) (st : DocumentManager)
    : bool * ref * DocumentManager :=
  match getDocument filename st with
  | Some document => (false, document, st)
  | None =>
      let '(document, st) := createDocument filename st in
      (true, document, st)
  end.

(** [delete this._documents[filename]] is [true] whether or not the
    property exists. *)
Definition closeDocument (filename : string) (st : DocumentManager)
    : bool * DocumentManager :=
  (true, with_documents (delete filename (_documents st)) st).

Definition openDocumentOnClient (document : ref) (st : DocumentManager)
    : DocumentManager :=
  if negb (isOpenOnClient (obj st document))
  then update document (set_isOpenOnClient true) st
  else st.

Definition closeDocumentOnClient (document : ref) (st : DocumentManager)
    : bool * DocumentManager :=
  if isOpenOnClient (obj st document) then
    let st := update document (set_isOpenOnClient false) st in
    if isOpenOnServer (obj st document) then (false, st)
    else closeDocument (filename (obj st document)) st
  else (false, st).

Definition openDocumentOnServer (document : ref) (st : DocumentManager)
    : DocumentManager :=
  if negb (isOpenOnServer (obj st document))
  then update document (set_isOpenOnServer true) st
  else st.

Definition closeDocumentOnServer (document : ref) (st : DocumentManager)
    : bool * DocumentManager :=
  if isOpenOnServer (obj st document) then
    let st := update document (set_isOpenOnServer false) st in
    if negb (isOpenOnClient (obj st document))
    then closeDocument (filename (obj st document)) st
    else (false, st)
  else (false, st).

(** The read-callback handed to the compiler's host. *)
Definition readFile (filename : string) (st : DocumentManager)
    : option string * DocumentManager :=
  let '(document, st) :=
    match getDocument filename st with
    | Some document => (Some document, st)
    | None =>
        match host_readFile filename with
        | Some contents =>
            let '(document, st) := createDocument filename st in
            let st := update document (set_text contents) st in
            (Some document, openDocumentOnServer document st)
        | None => (None, st)
        end
    end in
  match document with
  | Some document =>
      let st := update document (set_marked true) st in
      (text (obj st document), st)
  | None => (None, st)
  end.

Definition invalidateGrammar (st : DocumentManager) : DocumentManager :=
  with_grammar None (with_rootNames None st).

Definition reportUpdate (st : DocumentManager) : DocumentManager :=
  if negb (_updating st) then
    let st := with_updating true st in
    (* try *)
    let st := with_updateRequested false st in
    let st := subscribers (fire DidUpdate st) in
    (* finally *)
    with_updating false st
  else st.

Definition requestUpdate (st : DocumentManager) : DocumentManager :=
  if (0 <? _updateSuspended st)%nat
  then with_updateRequested true st
  else reportUpdate st.

Definition open (id : Locator) (st : DocumentManager)
    : option ref * DocumentManager :=
  let filename := normalizeFilename id in
  match host_readFile filename with
  | Some contents =>
      let '(created, document, st) := getOrCreateDocument filename st in
      let changed := negb (bool_decide (text (obj st document) = Some contents)) in
      let wasOpenOnServer := isOpenOnServer (obj st document) in
      let st := update document (set_uri (normalizeUri id)) st in
      let st := update document (set_text contents) st in
      let st := openDocumentOnServer document st in
      let st := if changed then invalidateGrammar st else st in
      let st := if created then fire (DidOpen document) st else st in
      let st := if negb wasOpenOnServer
                then fire (DidCloseOnServer document) st else st in
      let st := if changed
                then requestUpdate (fire (DidChangeContent document) st)
                else st in
      (Some document, st)
  | None => (None, st)
  end.

Definition close (id : Locator) (st : DocumentManager) : DocumentManager :=
  let filename := normalizeFilename id in
  match getDocument filename st with
  | Some document =>
      let wasOpenOnServer := isOpenOnServer (obj st document) in
      let '(removed, st) := closeDocumentOnServer document st in
      let st := if removed then invalidateGrammar st else st in
      let st := if negb wasOpenOnServer
                then fire (DidCloseOnServer document) st else st in
      if negb (isOpenOnClient (obj st document))
      then requestUpdate (fire (DidClose document) st)
      else st
  | None => st
  end.

(** [Dictionary.values(this._documents)] and [Dictionary.keys(...)]:
    snapshots, in the map's order of enumeration. *)
Definition all (st : DocumentManager) : list ref :=
  (map_to_list (_documents st)).*2.

Definition keys (st : DocumentManager) : list string :=
  (map_to_list (_documents st)).*1.

Definition get (id : Locator) (st : DocumentManager) : option ref :=
  getDocument (normalizeFilename id) st.

Definition has (id : Locator) (st : DocumentManager) : bool :=
  bool_decide (is_Some (getDocument (normalizeFilename id) st)).

Definition suspendUpdates (st : DocumentManager) : DocumentManager :=
  with_updateSuspended (S (_updateSuspended st)) st.

Definition resumeUpdates (st : DocumentManager) : DocumentManager :=
  if (0 <? _updateSuspended st)%nat then
    let st := with_updateSuspended (pred (_updateSuspended st)) st in
    if (_updateSuspended st =? 0)%nat && _updateRequested st
    then reportUpdate st
    else st
  else st.

(** *** The rebuild *)

(** What [this.readFile] answers for a name, without its side effects. *)
Definition hostView (st : DocumentManager) (filename : string) : option string :=
  match getDocument filename st with
  | Some document => text (obj st document)
  | None => host_readFile filename
  end.

(** The first loop of [refreshGrammar]. *)
Fixpoint markRoots (documents : list ref) (st : DocumentManager)
    : list string * DocumentManager :=
  match documents with
  | [] => ([], st)
  | document :: rest =>
      if isOpenOnClient (obj st document) then
        let st := update document (set_marked true) st in
        let name := filename (obj st document) in
        let '(rootNames, st) := markRoots rest st in
        (name :: rootNames, st)
      else
        markRoots rest (update document (set_marked false) st)
  end.

(** The calls of the read-callback while the compiler runs. *)
Fixpoint deliver (reads : list string) (st : DocumentManager)
    : list (string * option string) * DocumentManager :=
  match reads with
  | [] => ([], st)
  | filename :: rest =>
      let '(contents, st) := readFile filename st in
      let '(delivered, st) := deliver rest st in
      ((filename, contents) :: delivered, st)
  end.

(** The second loop of [refreshGrammar]. *)
Fixpoint sweep (documents : list ref) (st : DocumentManager) : DocumentManager :=
  match documents with
  | [] => st
  | document :: rest =>
      let st :=
        if negb (marked (obj st document)) && negb (isOpenOnClient (obj st document))
        then close (Path (filename (obj st document))) st
        else st in
      sweep rest st
  end.

(** The state when the second loop starts: roots marked, [_rootNames]
    and [_grammar] assigned, the compiler's reads served. *)
Definition rebuild (st : DocumentManager) : DocumentManager :=
  let '(rootNames, st) := markRoots (all st) st in
  let st := with_rootNames (Some rootNames) st in
  let oldGrammar := _grammar st in
  let '(delivered, st) :=
    deliver (compiler_reads rootNames oldGrammar (hostView st)) st in
  with_grammar (Some (NewGrammar rootNames oldGrammar delivered)) st.

Definition refreshGrammar (st : DocumentManager) : DocumentManager :=
  let wasUpdating := _updating st in
  let st := with_updating true st in
  (* try *)
  let st := rebuild st in
  let st := sweep (all st) st in
  (* finally *)
  with_updating wasUpdating st.

(** [get rootNames()]: an empty array is truthy, so only [undefined]
    triggers the rebuild. *)
Definition rootNames (st : DocumentManager)
    : option (list string) * DocumentManager :=
  let st := if _rootNames st is None then refreshGrammar st else st in
  (_rootNames st, st).

(** [get grammar()] *)
Definition grammar (st : DocumentManager) : option Grammar * DocumentManager :=
  let st := if _grammar st is None then refreshGrammar st else st in
  (_grammar st, st).

(** [getSourceFile]: [this.grammar.getSourceFile(...)] raises when the
    accessor gives [undefined]. *)
Definition getSourceFile (id : Locator) (st : DocumentManager)
    : Js (option Node) * DocumentManager :=
  let '(g, st) := grammar st in
  match g with
  | Some g => (Value (grammar_getSourceFile g (normalizeFilename id)), st)
  | None => (Fault, st)
  end.

(** *** Notifications of the client *)

Definition handleOpenClientDocument (uri contents : string)
    (st : DocumentManager) : DocumentManager :=
  let filename := normalizeFilename (TextDocumentIdentifier uri) in
  let '(created, document, st) := getOrCreateDocument filename st in
  let changed := negb (bool_decide (text (obj st document) = Some contents)) in
  let wasOpenOnClient := isOpenOnClient (obj st document) in
  let st := update document (set_uri uri) st in
  let st := update document (set_text contents) st in
  let st := openDocumentOnClient document st in
  let st := if changed then invalidateGrammar st else st in
  let st := if created then fire (DidOpen document) st else st in
  let st := if negb wasOpenOnClient
            then fire (DidOpenOnClient document) st else st in
  if changed
  then requestUpdate (fire (DidChangeContent document) st)
  else st.

(** [contentChanges] as the texts of its entries; only the last counts. *)
Definition handleUpdateClientDocument (uri : string) (contentChanges : list string)
    (st : DocumentManager) : DocumentManager :=
  match last contentChanges with
  | Some contents =>
      let filename := normalizeFilename (TextDocumentIdentifier uri) in
      let '(created, document, st) := getOrCreateDocument filename st in
      let changed := negb (bool_decide (text (obj st document) = Some contents)) in
      let wasOpenOnClient := isOpenOnClient (obj st document) in
      let st := update document (set_uri uri) st in
      let st := update document (set_text contents) st in
      let st := openDocumentOnClient document st in
      let st := if changed then invalidateGrammar st else st in
      let st := if created then fire (DidOpen document) st else st in
      let st := if negb wasOpenOnClient
                then fire (DidOpenOnClient document) st else st in
      if changed
      then requestUpdate (fire (DidChangeContent document) st)
      else st
  | None => st
  end.

Definition handleCloseClientDocument (uri : string) (st : DocumentManager)
    : DocumentManager :=
  let filename := normalizeFilename (TextDocumentIdentifier uri) in
  match getDocument filename st with
  | Some document =>
      let wasOpenOnClient := isOpenOnClient (obj st document) in
      let '(removed, st) := closeDocumentOnClient document st in
      let st := if removed then invalidateGrammar st else st in
      let st := if negb wasOpenOnClient
                then fire (DidCloseOnClient document) st else st in
      if negb (isOpenOnServer (obj st document))
      then requestUpdate (fire (DidClose document) st)
      else st
  | None => st
  end.
End Manager.

(** ** server.ts *)

Section Server.
Context `{Host} `{Files} `{Compiler} `{Analysis}.

(** The dispatch of a report fired while the subscriber itself runs. *)
Variable nested : DocumentManager -> DocumentManager.

(** The loop of [onDocumentsUpdated] over [documents.all()]. *)
Fixpoint sendAllDiagnostics (documents : list ref) (st : DocumentManager)
    : Js unit * DocumentManager :=
  match documents with
  | [] => (Value tt, st)
  | document :: rest =>
      let '(sourceFile, st) :=
        getSourceFile nested (Path (filename (obj st document))) st in
      match sourceFile with
      | Fault => (Fault, st)
      | Value None => sendAllDiagnostics rest st
      | Value (Some _) =>
          sendAllDiagnostics rest (fire (SendDiagnostics (uri (obj st document))) st)
      end
  end.

(** [grammar.check()] on the accessor's result raises when that is
    [undefined]; on a compilation state that was checked it reads nothing. *)
Definition onDocumentsUpdated (st : DocumentManager) : Js unit * DocumentManager :=
  let '(g, st) := grammar nested st in
  match g with
  | None => (Fault, st)
  | Some _ => sendAllDiagnostics (all st) st
  end.

Fixpoint locationsOfNodes (g : Grammar) (nodes : list Node) : Js (list Location) :=
  match nodes with
  | [] => Value []
  | node :: rest =>
      match resolver_createNavigator g (Some node) with
      | Fault => Fault
      | Value navigator =>
          let here :=
            match navigator with
            | Some navigator =>
                let '(moved, navigator) := navigator_moveToName navigator in
                if moved then
                  let sourceFile := navigator_getRoot navigator in
                  let name := navigator_getNode navigator in
                  let isQuotedName :=
                    bool_decide (node_text_length name + 2 = node_end name - node_pos name)%Z in
                  let start := lineMap_getLineAndCharacterOfPosition sourceFile
                    (if isQuotedName then node_pos name + 1 else node_pos name)%Z in
                  let end_ := lineMap_getLineAndCharacterOfPosition sourceFile
                    (if isQuotedName then node_end name - 1 else node_end name)%Z in
                  [mkLocation (normalizeUri (Path (node_filename sourceFile)))
                              (mkRange start end_)]
                else []
            | None => []
            end in
          match locationsOfNodes g rest with
          | Fault => Fault
          | Value locations => Value (here ++ locations)
          end
      end
  end.

Definition getLocationsOfNodes (nodes : option (list Node)) (g : Grammar)
    : Js (list Location) :=
  match nodes with
  | Some nodes => locationsOfNodes g nodes
  | None => Value []
  end.

Definition onDefinition (uri : string) (position : Position) (st : DocumentManager)
    : Js (list Location) * DocumentManager :=
  let '(g, st) := grammar nested st in
  let '(sourceFile, st) := getSourceFile nested (TextDocumentIdentifier uri) st in
  match sourceFile, g with
  | Fault, _ => (Fault, st)
  | Value _, None => (Fault, st)                 (* grammar.resolver *)
  | Value sourceFile, Some g =>
      match resolver_createNavigator g sourceFile with
      | Fault => (Fault, st)
      | Value None => (Fault, st)                (* navigator.moveToPosition *)
      | Value (Some navigator) =>
          let '(moved, navigator) := navigator_moveToPosition navigator position in
          let declarations :=
            if moved then
              let '(named, navigator) := navigator_moveToName navigator in
              if named
              then resolver_getDeclarations g (navigator_getNode navigator)
              else None
            else None in
          (getLocationsOfNodes declarations g, st)
      end
  end.

Definition onReferences (uri : string) (position : Position) (st : DocumentManager)
    : Js (list Location) * DocumentManager :=
  let '(g, st) := grammar nested st in
  let '(sourceFile, st) := getSourceFile nested (TextDocumentIdentifier uri) st in
  match sourceFile, g with
  | Fault, _ => (Fault, st)
  | Value _, None => (Fault, st)                 (* grammar.resolver *)
  | Value sourceFile, Some g =>
      match resolver_createNavigator g sourceFile with
      | Fault => (Fault, st)
      | Value None => (Fault, st)                (* navigator.moveToPosition *)
      | Value (Some navigator) =>
          let '(moved, navigator) := navigator_moveToPosition navigator position in
          let references :=
            if moved then
              let '(named, navigator) := navigator_moveToName navigator in
              if named
              then resolver_getReferences g (navigator_getNode navigator)
              else None
            else None in
          (getLocationsOfNodes references g, st)
      end
  end.

(** The loop of [onRenameRequest] that groups the edits by URI. *)
Definition addEdits (newName : string) (locations : list Location)
    : gmap string (list TextEdit) :=
  foldl (fun changes location =>
           <[location_uri location :=
               default [] (changes !! location_uri location)
               ++ [mkTextEdit newName (location_range location)]]> changes)
        ∅ locations.

Definition onRenameRequest (id : Locator) (position : Position) (newName : string)
    (st : DocumentManager) : Js (option WorkspaceEdit) * DocumentManager :=
  let '(g, st) := grammar nested st in
  let '(sourceFile, st) := getSourceFile nested id st in
  match sourceFile, g with
  | Fault, _ => (Fault, st)
  | Value _, None => (Fault, st)                 (* grammar.check(sourceFile) *)
  | Value sourceFile, Some g =>
      match resolver_createNavigator g sourceFile with
      | Fault => (Fault, st)
      | Value None => (Value None, st)
      | Value (Some navigator) =>
          let '(moved, navigator) := navigator_moveToPosition navigator position in
          if moved && navigator_isIdentifier navigator then
            let references :=
              resolver_getReferences g (navigator_getNode navigator) in
            match getLocationsOfNodes references g with
            | Fault => (Fault, st)
            | Value locations =>
                (Value (Some (mkWorkspaceEdit (addEdits newName locations))), st)
            end
          else (Value None, st)
      end
  end.
End Server.

(** ** The program: the manager with its one subscriber *)

Section Program.
Context `{Host} `{Files} `{Compiler} `{Analysis}.

(** [documents.onDidUpdate(onDocumentsUpdated)].  While the subscriber
    runs a report is in progress, and [reportUpdate] then dispatches
    nothing (see [subscribers_unfold]); the nested dispatch below is never
    reached. *)
Definition subscribers (st : DocumentManager) : DocumentManager :=
  snd (onDocumentsUpdated (fun st => st) st).

(** What can happen to the manager from outside: the calls of its public
    methods, the notifications of the client, the requests of the client
    and the compiler's read-callback. *)
Inductive Operation :=
  | Open (id : Locator)
  | Close (id : Locator)
  | SuspendUpdates
  | ResumeUpdates
  | GetRootNames
  | GetGrammar
  | GetSourceFile (id : Locator)
  | HandleOpenClientDocument (uri contents : string)
  | HandleUpdateClientDocument (uri : string) (contentChanges : list string)
  | HandleCloseClientDocument (uri : string)
  | ReadFile (filename : string)
  | OnDefinition (uri : string) (position : Position)
  | OnReferences (uri : string) (position : Position)
  | OnRenameRequest (id : Locator) (position : Position) (newName : string).

Definition perform (op : Operation) (st : DocumentManager) : DocumentManager :=
  match op with
  | Open id => snd (open subscribers id st)
  | Close id => close subscribers id st
  | SuspendUpdates => suspendUpdates st
  | ResumeUpdates => resumeUpdates subscribers st
  | GetRootNames => snd (rootNames subscribers st)
  | GetGrammar => snd (grammar subscribers st)
  | GetSourceFile id => snd (getSourceFile subscribers id st)
  | HandleOpenClientDocument uri contents =>
      handleOpenClientDocument subscribers uri contents st
  | HandleUpdateClientDocument uri contentChanges =>
      handleUpdateClientDocument subscribers uri contentChanges st
  | HandleCloseClientDocument uri => handleCloseClientDocument subscribers uri st
  | ReadFile filename => snd (readFile filename st)
  | OnDefinition uri position => snd (onDefinition subscribers uri position st)
  | OnReferences uri position => snd (onReferences subscribers uri position st)
  | OnRenameRequest id position newName =>
      snd (onRenameRequest subscribers id position newName st)
  end.

Definition run (ops : list Operation) (st : DocumentManager) : DocumentManager :=
  foldl (fun st op => perform op st) st ops.

(** The states the manager is in between operations. *)
Inductive reachable : DocumentManager -> Prop :=
  | reachable_new : reachable newDocumentManager
  | reachable_step op st : reachable st -> reachable (perform op st).
End Program.

(** ** Predicates of the properties *)

(** The object is the one the registry holds under its own name. *)
Definition registered (st : DocumentManager) (document : ref) : Prop :=
  _documents st !! filename (obj st document) = Some document.

Definition referenced (d : GrammarDocument) : bool :=
  isOpenOnClient d || isOpenOnServer d.

(** The registry between two statements of a method: its keys are the names
    of the objects they lead to, every referenced object is registered, and
    every registered object is referenced, except possibly [pending], the
    one the method is working on. *)
Record consistent (pending : option ref) (st : DocumentManager) : Prop := {
  consistent_keys : forall k a,
    _documents st !! k = Some a ->
    (a < List.length (heap st))%nat /\ filename (obj st a) = k;
  consistent_referenced : forall a,
    (a < List.length (heap st))%nat -> referenced (obj st a) = true ->
    registered st a;
  consistent_registered : forall a,
    registered st a -> referenced (obj st a) = true \/ pending = Some a
}.

(** The membership invariant of the registry. *)
Definition registry_invariant (st : DocumentManager) : Prop :=
  (forall k a, _documents st !! k = Some a ->
     (a < List.length (heap st))%nat /\ filename (obj st a) = k) /\
  (forall a, (a < List.length (heap st))%nat ->
     (registered st a <-> referenced (obj st a) = true)).

(** The number of reports in a trace. *)
Definition reports (l : list Event) : nat :=
  List.length (filter (fun e => e = DidUpdate) l).

(** Everything of the state but the store and the registry. *)
Definition control (st : DocumentManager) :=
  (_rootNames st, _grammar st, _updateSuspended st, _updateRequested st,
   _updating st, events st).

(** A document the registry holds under a name without it being open on
    the client; the same with its mark cleared; a name the registry does not
    hold. *)
Definition held (name : string) (document : ref) (st : DocumentManager) : Prop :=
  _documents st !! name = Some document /\
  isOpenOnClient (obj st document) = false.

Definition unmarked (name : string) (document : ref) (st : DocumentManager) : Prop :=
  held name document st /\ marked (obj st document) = false.

Definition gone (name : string) (st : DocumentManager) : Prop :=
  _documents st !! name = None.

Section Predicates.
Context `{Host} `{Files} `{Compiler} `{Analysis}.

(** The text the registry holds under a name, if it holds any. *)
Definition trackedText (name : string) (st : DocumentManager) : option string :=
  match getDocument name st with
  | Some document => text (obj st document)
  | None => None
  end.

(** The operations that change the content of a document: the value of
    [changed] in [open], [handleOpenClientDocument] and
    [handleUpdateClientDocument]. *)
Definition contentChange (op : Operation) (st : DocumentManager) : bool :=
  match op with
  | Open id =>
      match host_readFile (normalizeFilename id) with
      | Some contents =>
          negb (bool_decide (trackedText (normalizeFilename id) st = Some contents))
      | None => false
      end
  | HandleOpenClientDocument uri contents =>
      negb (bool_decide
        (trackedText (normalizeFilename (TextDocumentIdentifier uri)) st
         = Some contents))
  | HandleUpdateClientDocument uri contentChanges =>
      match last contentChanges with
      | Some contents =>
          negb (bool_decide
            (trackedText (normalizeFilename (TextDocumentIdentifier uri)) st
             = Some contents))
      | None => false
      end
  | _ => false
  end.

(** Every operation of the sequence changes content when its turn comes. *)
Fixpoint contentChanges (ops : list Operation) (st : DocumentManager) : bool :=
  match ops with
  | [] => true
  | op :: rest => contentChange op st && contentChanges rest (perform op st)
  end.

(** The names the compiler asks the read-callback for in the rebuild
    that [refreshGrammar] runs from a state. *)
Definition rebuildReads (st : DocumentManager) : list string :=
  let st := with_updating true st in
  let '(rootNames, st) := markRoots (all st) st in
  let st := with_rootNames (Some rootNames) st in
  compiler_reads rootNames (_grammar st) (hostView st).
End Predicates.

(** ** A small workspace, for the examples

    Paths are resolved against [/ws]; the files on disk are [a.grammar],
    which imports [b.grammar], [b.grammar] and [x.grammar].  The compiler
    reads its roots and then what they import. *)

Definition example_host : Host := {|
  host_resolveFile p := if beginsWithSlash p then p else "/ws/" +:+ p;
  host_normalizeFile p := p;
  host_readFile p :=
    if String.eqb p "/ws/a.grammar" then Some "@import b"
    else if String.eqb p "/ws/b.grammar" then Some "B ::= b"
    else if String.eqb p "/ws/x.grammar" then Some "X ::= x"
    else None
|}.

Definition example_files : Files := {|
  uriToFilePath u := String.substring 7 (String.length u - 7) u
|}.

Definition example_imports (contents : option string) : list string :=
  match contents with
  | Some contents =>
      if String.eqb contents "@import b" then ["/ws/b.grammar"] else []
  | None => []
  end.

Definition example_compiler : Compiler := {|
  compiler_reads rootNames _ view :=
    rootNames ++ flat_map (fun name => example_imports (view name)) rootNames
|}.

(** The source files of a compilation state are the files it was given;
    there is no navigator for a source file that is not there. *)
Definition example_analysis : Analysis := {|
  Node := string;
  Navigator := string;
  grammar_getSourceFile g name :=
    match g with
    | NewGrammar _ _ delivered =>
        if bool_decide (Exists (fun d => d.1 = name /\ is_Some d.2) delivered)
        then Some name else None
    end;
  resolver_createNavigator _ node := Value node;
  navigator_moveToPosition navigator _ := (false, navigator);
  navigator_moveToName navigator := (false, navigator);
  navigator_isIdentifier _ := false;
  navigator_getNode navigator := navigator;
  navigator_getRoot navigator := navigator;
  resolver_getDeclarations _ _ := None;
  resolver_getReferences _ _ := None;
  node_text_length _ := 0%Z;
  node_pos _ := 0%Z;
  node_end _ := 0%Z;
  node_filename node := node;
  lineMap_getLineAndCharacterOfPosition _ _ := mkPosition 0 0
|}.

(** The scenarios of the examples. *)
Section ExampleScenarios.
#[local] Existing Instances example_host example_files example_compiler example_analysis.

Definition example_a : string := "file:///ws/a.grammar".
Definition example_b : string := "file:///ws/b.grammar".

(** The client opens [a.grammar]; the rebuild of the report that follows
    opens [b.grammar], which it imports, on the server side. *)
Definition example_opened : DocumentManager :=
  run [HandleOpenClientDocument example_a "@import b"] newDocumentManager.

(** Then the client opens [b.grammar] too, with the text it has on disk. *)
Definition example_both : DocumentManager :=
  run [HandleOpenClientDocument example_b "B ::= b"] example_opened.

(** Or updates are suspended and [a.grammar] loses its import:
    [b.grammar] is still held, and the compilation state is invalid. *)
Definition example_stale_ops : list Operation :=
  [HandleOpenClientDocument example_a "@import b"; SuspendUpdates;
   HandleUpdateClientDocument example_a ["A ::= a"]].
Definition example_stale : DocumentManager :=
  run example_stale_ops newDocumentManager.

(** Or [a.grammar] loses its import with updates not suspended. *)
Definition example_edited : DocumentManager :=
  run [HandleUpdateClientDocument example_a ["A ::= a"]] example_opened.

(** The state the subscriber is called in when a report starts from
    [example_opened]: a report is in progress, the counter is zero. *)
Definition example_reporting : DocumentManager :=
  fire DidUpdate (with_updateRequested false (with_updating true example_opened)).
End ExampleScenarios.

(** ** Predicates of further properties *)

(** A path with every backslash turned into a slash. *)
Fixpoint slashes (s : string) : string :=
  match s with
  | EmptyString => EmptyString
  | String c rest => String (if isSeparator c then "/"%char else c) (slashes rest)
  end.

(** Every character of a string passes a test. *)
Fixpoint allChars (test : ascii -> bool) (s : string) : bool :=
  match s with
  | EmptyString => true
  | String c rest => test c && allChars test rest
  end.

(** The characters a percent-encoded string is made of. *)
Definition isUriSafe (c : ascii) : bool :=
  isUnreserved c || Ascii.eqb c "%".

(** The characters of a path that needs no escaping. *)
Definition isPlain (c : ascii) : bool :=
  isUnreserved c || isSeparator c.

(** No update is pending unless updates are suspended. *)
Definition nothingPending (st : DocumentManager) : Prop :=
  _updateRequested st = false \/ (0 < _updateSuspended st)%nat.

(** The cached root names are those the cached compilation state was built
    from, that state was built with no previous one, and the two caches are
    absent together. *)
Definition cachesAgree (st : DocumentManager) : Prop :=
  match _grammar st with
  | Some (NewGrammar roots oldGrammar _) =>
      oldGrammar = None /\ _rootNames st = Some roots
  | None => _rootNames st = None
  end.

(** The registry holds a document under a name, open on the client, with a
    given display URI and text. *)
Definition clientHolds (name : string) (document : ref) (u contents : string)
    (st : DocumentManager) : Prop :=
  _documents st !! name = Some document /\
  isOpenOnClient (obj st document) = true /\
  text (obj st document) = Some contents /\
  uri (obj st document) = Some u.

(** The event of the opened-on-server stream. *)
Definition isDidOpenOnServer (e : Event) : bool :=
  match e with
  | DidOpenOnServer _ => true
  | _ => false
  end.

(** A trace without that event. *)
Definition neverOpenedOnServer (st : DocumentManager) : Prop :=
  Forall (fun e => isDidOpenOnServer e = false) (events st).

(** An analysis in which every node has a name: the navigator of a node
    always moves to it, and a source file is named by its path. *)
Definition example_named_analysis : Analysis := {|
  Node := string;
  Navigator := string;
  grammar_getSourceFile _ name := Some name;
  resolver_createNavigator _ node := Value node;
  navigator_moveToPosition navigator _ := (true, navigator);
  navigator_moveToName navigator := (true, navigator);
  navigator_isIdentifier _ := true;
  navigator_getNode navigator := navigator;
  navigator_getRoot navigator := navigator;
  resolver_getDeclarations _ node := Some [node];
  resolver_getReferences _ node := Some [node];
  node_text_length node := Z.of_nat (String.length node);
  node_pos _ := 0%Z;
  node_end node := Z.of_nat (String.length node);
  node_filename node := node;
  lineMap_getLineAndCharacterOfPosition _ _ := mkPosition 0 0
|}.

(** Both documents are open on the client, [b.grammar] on the server too,
    and updates are suspended. *)
Definition example_dual_ops : list Operation :=
  [HandleOpenClientDocument example_a "@import b";
   HandleOpenClientDocument example_b "B ::= b";
   SuspendUpdates].

(** Updates are suspended and the client opens [a.grammar]: nothing is
    rebuilt yet. *)
Definition example_suspended_ops : list Operation :=
  [SuspendUpdates; HandleOpenClientDocument example_a "@import b"].

(** ** The workspace on a file system that ignores case

    The host's [normalizeFile] folds a path to lower case, and a file is
    read whatever the case of its path.  [a.grammar] imports [B]: the
    compiler resolves the import and asks the read-callback for
    [/ws/B.grammar], as the import spells it. *)

Definition lower (c : ascii) : ascii :=
  let n := nat_of_ascii c in
  if (65 <=? n)%nat && (n <=? 90)%nat then ascii_of_nat (n + 32) else c.

Fixpoint lowercase (s : string) : string :=
  match s with
  | EmptyString => EmptyString
  | String c rest => String (lower c) (lowercase rest)
  end.

Definition example_folding_host : Host := {|
  host_resolveFile p := if beginsWithSlash p then p else "/ws/" +:+ p;
  host_normalizeFile p := lowercase p;
  host_readFile p :=
    if String.eqb (lowercase p) "/ws/a.grammar" then Some "@import B"
    else if String.eqb (lowercase p) "/ws/b.grammar" then Some "B ::= b"
    else None
|}.

Definition example_folding_compiler : Compiler := {|
  compiler_reads rootNames _ view :=
    rootNames ++
    flat_map (fun name =>
                match view name with
                | Some contents =>
                    if String.eqb contents "@import B" then ["/ws/B.grammar"] else []
                | None => []
                end) rootNames
|}.

Section FoldingScenarios.
#[local] Existing Instances
  example_folding_host example_files example_folding_compiler example_analysis.

(** The client opens [a.grammar], whose rebuild reads [/ws/B.grammar];
    then, with updates suspended, [a.grammar] loses its import. *)
Definition example_folded_ops : list Operation :=
  [HandleOpenClientDocument example_a "@import B"; SuspendUpdates;
   HandleUpdateClientDocument example_a ["A ::= a"]].
Definition example_folded : DocumentManager :=
  run example_folded_ops newDocumentManager.

(** The rebuild that follows, with its sweep. *)
Definition example_folded_rebuilt : DocumentManager :=
  refreshGrammar subscribers example_folded.
End FoldingScenarios.

(** * Properties *)

(** ** The object store *)

Lemma obj_update document f st a :
  obj (update document f st) a =
  if decide (document = a /\ (a < List.length (heap st))%nat)
  then f (obj st a) else obj st a.
Proof.
  unfold obj, update; simpl.
  rewrite list_lookup_total_alter.
  destruct (decide (document = a /\ (a < List.length (heap st))%nat)) as [[-> Hlt]|Hn].
  - rewrite decide_True by (split; [reflexivity | exact Hlt]). reflexivity.
  - rewrite decide_False; [reflexivity|].
    intros [-> Hlt]. apply Hn. split; [reflexivity | exact Hlt].
Qed.

Lemma length_heap_update document f st :
  List.length (heap (update document f st)) = List.length (heap st).
Proof. unfold update; simpl. apply length_alter. Qed.

Lemma documents_update document f st :
  _documents (update document f st) = _documents st.
Proof. reflexivity. Qed.

(** A field of an object after an update that leaves that field alone. *)
Lemma obj_update_field {A} (field : GrammarDocument -> A) document f st a :
  (forall d, field (f d) = field d) ->
  field (obj (update document f st) a) = field (obj st a).
Proof.
  intros Hf. rewrite obj_update. case_decide; [apply Hf | reflexivity].
Qed.

Lemma obj_update_eq document f st :
  (document < List.length (heap st))%nat ->
  obj (update document f st) document = f (obj st document).
Proof.
  intros Hlt. rewrite obj_update. case_decide as Hd; [reflexivity|].
  exfalso. apply Hd. split; [reflexivity | exact Hlt].
Qed.

Lemma obj_update_ne document f st a :
  document <> a -> obj (update document f st) a = obj st a.
Proof.
  intros Hne. rewrite obj_update. case_decide as Hd; [|reflexivity].
  destruct Hd as [Hd _]. contradiction.
Qed.

(** ** Consistency of the registry, statement by statement *)

Lemma consistent_ext pending st st' :
  heap st' = heap st -> _documents st' = _documents st ->
  consistent pending st -> consistent pending st'.
Proof.
  intros Hh Hd [K R G].
  assert (forall a, obj st' a = obj st a) as Ho
    by (intros a; unfold obj; rewrite Hh; reflexivity).
  split; unfold registered in *.
  - intros k a. rewrite Hd, Hh, Ho. apply K.
  - intros a. rewrite Hd, Hh, Ho. apply R.
  - intros a. rewrite Hd, Ho. apply G.
Qed.

Lemma consistent_weaken pending st :
  consistent None st -> consistent pending st.
Proof.
  intros [K R G]. split; [exact K | exact R |].
  intros a Ha. destruct (G a Ha) as [Hr|Hp]; [left; exact Hr | discriminate].
Qed.

Lemma consistent_settle document st :
  consistent (Some document) st ->
  referenced (obj st document) = true ->
  consistent None st.
Proof.
  intros [K R G] Href. split; [exact K | exact R |].
  intros a Ha. destruct (G a Ha) as [Hr|Hp]; [left; exact Hr |].
  injection Hp as <-. left; exact Href.
Qed.

Lemma registry_invariant_consistent st :
  registry_invariant st <-> consistent None st.
Proof.
  split.
  - intros [K I]. split; [exact K | |].
    + intros a Hlt Href. apply I; assumption.
    + intros a Ha. left. apply I; [|exact Ha].
      apply (K _ _ Ha).
  - intros [K R G]. split; [exact K|].
    intros a Hlt. split.
    + intros Ha. destruct (G a Ha) as [Hr|Hp]; [exact Hr | discriminate].
    + apply R. exact Hlt.
Qed.

(** Writing a field other than the name and the two flags. *)
Lemma consistent_update_other pending document f st :
  (forall d, filename (f d) = filename d) ->
  (forall d, referenced (f d) = referenced d) ->
  consistent pending st -> consistent pending (update document f st).
Proof.
  intros Hn Hr [K R G].
  split; unfold registered in *.
  - intros k a. rewrite documents_update, length_heap_update.
    rewrite (obj_update_field filename) by exact Hn. apply K.
  - intros a. rewrite documents_update, length_heap_update.
    rewrite (obj_update_field filename) by exact Hn.
    rewrite (obj_update_field referenced) by exact Hr. apply R.
  - intros a. rewrite documents_update.
    rewrite (obj_update_field filename) by exact Hn.
    rewrite (obj_update_field referenced) by exact Hr. apply G.
Qed.

(** Setting or clearing a flag of the object the method works on. *)
Lemma consistent_update_flag pending document f st :
  (forall d, filename (f d) = filename d) ->
  (pending = None \/ pending = Some document) ->
  registered st document ->
  consistent pending st -> consistent (Some document) (update document f st).
Proof.
  intros Hn Hp Hreg [K R G].
  assert (document < List.length (heap st))%nat as Hlt by apply (K _ _ Hreg).
  split; unfold registered in *.
  - intros k a. rewrite documents_update, length_heap_update.
    rewrite (obj_update_field filename) by exact Hn. apply K.
  - intros a. rewrite documents_update, length_heap_update.
    rewrite (obj_update_field filename) by exact Hn.
    intros Ha. destruct (decide (document = a)) as [<-|Hne].
    + intros _. exact Hreg.
    + rewrite obj_update_ne by exact Hne. apply R. exact Ha.
  - intros a. rewrite documents_update.
    rewrite (obj_update_field filename) by exact Hn.
    intros Ha. destruct (decide (document = a)) as [<-|Hne].
    + right; reflexivity.
    + rewrite obj_update_ne by exact Hne.
      destruct (G a Ha) as [Hr|Hq]; [left; exact Hr|].
      destruct Hp as [->| ->]; [discriminate|].
      injection Hq as <-. contradiction.
Qed.

Lemma registered_update document f st a :
  (forall d, filename (f d) = filename d) ->
  registered (update document f st) a <-> registered st a.
Proof.
  intros Hn. unfold registered.
  rewrite documents_update, (obj_update_field filename) by exact Hn.
  reflexivity.
Qed.

Lemma registered_ext st st' a :
  heap st' = heap st -> _documents st' = _documents st ->
  registered st' a <-> registered st a.
Proof.
  intros Hh Hd. unfold registered, obj. rewrite Hh, Hd. reflexivity.
Qed.

Section ManagerConsistency.
Context `{Host} `{Files} `{Compiler} `{Analysis}.

Lemma createDocument_spec name st :
  consistent None st -> _documents st !! name = None ->
  consistent (Some (createDocument name st).1) (createDocument name st).2 /\
  registered (createDocument name st).2 (createDocument name st).1 /\
  obj (createDocument name st).2 (createDocument name st).1
    = newGrammarDocument name.
Proof.
  intros [K R G] Hfree. unfold createDocument; simpl.
  set (a := List.length (heap st)).
  set (st' := with_documents _ _).
  assert (obj st' a = newGrammarDocument name) as Hnew.
  { unfold obj, st', a; simpl.
    rewrite list_lookup_total_alt, lookup_app_r, Nat.sub_diag by lia.
    reflexivity. }
  assert (forall b, (b < a)%nat -> obj st' b = obj st b) as Hold.
  { intros b Hb. unfold obj, st'; simpl.
    rewrite !list_lookup_total_alt, lookup_app_l by exact Hb. reflexivity. }
  assert (List.length (heap st') = S a) as Hlen.
  { unfold st'; simpl. rewrite length_app; simpl. unfold a; lia. }
  assert (registered st' a) as Hreg.
  { unfold registered. rewrite Hnew. unfold st'; simpl.
    apply lookup_insert_eq. }
  split; [|split; [exact Hreg | exact Hnew]].
  split.
  - intros k b Hkb. unfold st' in Hkb; simpl in Hkb.
    rewrite lookup_insert in Hkb. case_decide as Hk.
    + injection Hkb as <-. subst k. rewrite Hlen, Hnew. split; [lia | reflexivity].
    + destruct (K _ _ Hkb) as [Hlt Hname].
      rewrite Hlen, Hold by exact Hlt. split; [unfold a; lia | exact Hname].
  - intros b Hb Href. rewrite Hlen in Hb.
    destruct (decide (b = a)) as [->|Hne].
    + rewrite Hnew in Href. discriminate.
    + assert (b < a)%nat as Hlt by lia.
      unfold registered. rewrite Hold in * by exact Hlt.
      pose proof (R b Hlt Href) as Hb'. unfold registered in Hb'.
      unfold st'; simpl. rewrite lookup_insert_ne; [exact Hb'|].
      intros Heq. rewrite <- Heq, Hfree in Hb'. discriminate.
  - intros b Hb. unfold registered in Hb.
    destruct (decide (b = a)) as [->|Hne]; [right; reflexivity|].
    unfold st' in Hb; simpl in Hb. fold st' in Hb.
    rewrite lookup_insert in Hb. case_decide as Hk.
    + injection Hb as Hb. exfalso. apply Hne. symmetry. exact Hb.
    + destruct (K _ _ Hb) as [Hlt _].
      rewrite Hold in * by exact Hlt.
      destruct (G b Hb) as [Hr|Hp]; [left; exact Hr | discriminate].
Qed.

Lemma closeDocument_spec document st :
  consistent (Some document) st -> registered st document ->
  referenced (obj st document) = false ->
  consistent None (closeDocument (filename (obj st document)) st).2.
Proof.
  intros [K R G] Hreg Href. unfold closeDocument; simpl.
  split; unfold registered, obj in *; simpl.
  - intros k a Hka. apply lookup_delete_Some in Hka as [_ Hka]. apply K, Hka.
  - intros a Hlt Ha. apply lookup_delete_Some. split.
    + intros Heq. pose proof (R a Hlt Ha) as Hra.
      rewrite <- Heq, Hreg in Hra. injection Hra as ->.
      rewrite Href in Ha. discriminate.
    + apply R; assumption.
  - intros a Ha. apply lookup_delete_Some in Ha as [Hne Ha].
    destruct (G a Ha) as [Hr|Hp]; [left; exact Hr|].
    injection Hp as ->. contradiction.
Qed.

Lemma getOrCreateDocument_spec name st :
  consistent None st ->
  consistent (Some (getOrCreateDocument name st).1.2) (getOrCreateDocument name st).2 /\
  registered (getOrCreateDocument name st).2 (getOrCreateDocument name st).1.2.
Proof.
  intros Hc. unfold getOrCreateDocument, getDocument.
  destruct (_documents st !! name) as [a|] eqn:E; simpl.
  - split; [apply consistent_weaken, Hc|].
    unfold registered. destruct Hc as [K _ _].
    destruct (K _ _ E) as [_ ->]. exact E.
  - pose proof (createDocument_spec name st Hc E) as (Hc' & Hreg' & _).
    split; [exact Hc' | exact Hreg'].
Qed.

Lemma openDocumentOnClient_spec document st :
  consistent (Some document) st -> registered st document ->
  consistent None (openDocumentOnClient document st).
Proof.
  intros Hc Hreg. unfold openDocumentOnClient.
  destruct (isOpenOnClient (obj st document)) eqn:E; simpl.
  - apply (consistent_settle document); [exact Hc|].
    unfold referenced. rewrite E. reflexivity.
  - apply (consistent_settle document).
    + apply (consistent_update_flag (Some document));
        [reflexivity | right; reflexivity | exact Hreg | exact Hc].
    + rewrite obj_update_eq by (destruct Hc as [K _ _]; apply (K _ _ Hreg)).
      reflexivity.
Qed.

Lemma openDocumentOnServer_spec document st :
  consistent (Some document) st -> registered st document ->
  consistent None (openDocumentOnServer document st).
Proof.
  intros Hc Hreg. unfold openDocumentOnServer.
  destruct (isOpenOnServer (obj st document)) eqn:E; simpl.
  - apply (consistent_settle document); [exact Hc|].
    unfold referenced. rewrite E. apply orb_true_r.
  - apply (consistent_settle document).
    + apply (consistent_update_flag (Some document));
        [reflexivity | right; reflexivity | exact Hreg | exact Hc].
    + rewrite obj_update_eq by (destruct Hc as [K _ _]; apply (K _ _ Hreg)).
      unfold referenced; simpl. apply orb_true_r.
Qed.

Lemma closeDocumentOnClient_spec document st :
  consistent None st -> registered st document ->
  consistent None (closeDocumentOnClient document st).2.
Proof.
  intros Hc Hreg. unfold closeDocumentOnClient.
  assert (document < List.length (heap st))%nat as Hlt
    by (destruct Hc as [K _ _]; apply (K _ _ Hreg)).
  destruct (isOpenOnClient (obj st document)) eqn:E; [|exact Hc].
  set (st1 := update document (set_isOpenOnClient false) st).
  assert (consistent (Some document) st1) as Hc1
    by (apply (consistent_update_flag None);
        [reflexivity | left; reflexivity | exact Hreg | exact Hc]).
  assert (registered st1 document) as Hreg1
    by (apply registered_update; [reflexivity | exact Hreg]).
  destruct (isOpenOnServer (obj st1 document)) eqn:E1.
  - simpl. apply (consistent_settle document); [exact Hc1|].
    unfold referenced. rewrite E1. apply orb_true_r.
  - apply closeDocument_spec; [exact Hc1 | exact Hreg1 |].
    unfold referenced. rewrite E1.
    unfold st1. rewrite obj_update_eq by exact Hlt. reflexivity.
Qed.

Lemma closeDocumentOnServer_spec document st :
  consistent None st -> registered st document ->
  consistent None (closeDocumentOnServer document st).2.
Proof.
  intros Hc Hreg. unfold closeDocumentOnServer.
  assert (document < List.length (heap st))%nat as Hlt
    by (destruct Hc as [K _ _]; apply (K _ _ Hreg)).
  destruct (isOpenOnServer (obj st document)) eqn:E; [|exact Hc].
  set (st1 := update document (set_isOpenOnServer false) st).
  assert (consistent (Some document) st1) as Hc1
    by (apply (consistent_update_flag None);
        [reflexivity | left; reflexivity | exact Hreg | exact Hc]).
  assert (registered st1 document) as Hreg1
    by (apply registered_update; [reflexivity | exact Hreg]).
  destruct (isOpenOnClient (obj st1 document)) eqn:E1.
  - simpl. apply (consistent_settle document); [exact Hc1|].
    unfold referenced. rewrite E1. reflexivity.
  - simpl negb. cbv iota. apply closeDocument_spec; [exact Hc1 | exact Hreg1 |].
    unfold referenced. rewrite E1.
    unfold st1. rewrite obj_update_eq by exact Hlt. reflexivity.
Qed.
End ManagerConsistency.

(** The statements that leave the store and the registry alone. *)
Lemma consistent_fire pending e st :
  consistent pending st -> consistent pending (fire e st).
Proof. apply consistent_ext; reflexivity. Qed.
Lemma consistent_with_updating pending b st :
  consistent pending st -> consistent pending (with_updating b st).
Proof. apply consistent_ext; reflexivity. Qed.
Lemma consistent_with_updateRequested pending b st :
  consistent pending st -> consistent pending (with_updateRequested b st).
Proof. apply consistent_ext; reflexivity. Qed.
Lemma consistent_with_updateSuspended pending n st :
  consistent pending st -> consistent pending (with_updateSuspended n st).
Proof. apply consistent_ext; reflexivity. Qed.
Lemma consistent_with_rootNames pending r st :
  consistent pending st -> consistent pending (with_rootNames r st).
Proof. apply consistent_ext; reflexivity. Qed.
Lemma consistent_with_grammar pending g st :
  consistent pending st -> consistent pending (with_grammar g st).
Proof. apply consistent_ext; reflexivity. Qed.
Lemma consistent_invalidateGrammar pending st :
  consistent pending st -> consistent pending (invalidateGrammar st).
Proof. apply consistent_ext; reflexivity. Qed.

Ltac same_registry :=
  first [ apply consistent_fire | apply consistent_with_updating
        | apply consistent_with_updateRequested
        | apply consistent_with_updateSuspended
        | apply consistent_with_rootNames | apply consistent_with_grammar
        | apply consistent_invalidateGrammar ].

Section MethodsConsistency.
Context `{Host} `{Files} `{Compiler} `{Analysis}.
Variable subscribers : DocumentManager -> DocumentManager.
Hypothesis subscribers_consistent :
  forall st, consistent None st -> consistent None (subscribers st).

Lemma reportUpdate_consistent st :
  consistent None st -> consistent None (reportUpdate subscribers st).
Proof.
  intros Hc. unfold reportUpdate.
  destruct (_updating st); simpl; [exact Hc|].
  repeat same_registry. apply subscribers_consistent.
  repeat same_registry. exact Hc.
Qed.

Lemma requestUpdate_consistent st :
  consistent None st -> consistent None (requestUpdate subscribers st).
Proof.
  intros Hc. unfold requestUpdate.
  destruct (0 <? _updateSuspended st)%nat.
  - repeat same_registry. exact Hc.
  - apply reportUpdate_consistent, Hc.
Qed.

Lemma readFile_consistent name st :
  consistent None st -> consistent None (readFile name st).2.
Proof.
  intros Hc. unfold readFile, getDocument.
  destruct (_documents st !! name) as [a|] eqn:E.
  - simpl. apply consistent_update_other; [reflexivity | reflexivity | exact Hc].
  - destruct (host_readFile name) as [contents|]; [|exact Hc].
    pose proof (createDocument_spec name st Hc E) as (Hc' & Hreg' & _).
    destruct (createDocument name st) as [a st']. simpl in Hc', Hreg'. simpl.
    apply consistent_update_other; [reflexivity | reflexivity |].
    apply openDocumentOnServer_spec.
    + apply consistent_update_other; [reflexivity | reflexivity | exact Hc'].
    + apply registered_update; [reflexivity | exact Hreg'].
Qed.

Lemma open_consistent id st :
  consistent None st -> consistent None (open subscribers id st).2.
Proof.
  intros Hc. unfold open.
  destruct (host_readFile (normalizeFilename id)) as [contents|]; [|exact Hc].
  pose proof (getOrCreateDocument_spec (normalizeFilename id) st Hc) as [Hc' Hreg'].
  destruct (getOrCreateDocument (normalizeFilename id) st) as [[created a] st'].
  simpl in Hc', Hreg'. cbv zeta. cbn [snd].
  set (changed := negb _). set (wasOpen := isOpenOnServer _).
  assert (consistent None
    (openDocumentOnServer a
       (update a (set_text contents) (update a (set_uri (normalizeUri id)) st'))))
    as Hopened.
  { apply openDocumentOnServer_spec.
    - do 2 (apply consistent_update_other; [reflexivity | reflexivity |]).
      exact Hc'.
    - do 2 (apply registered_update; [reflexivity|]). exact Hreg'. }
  destruct changed, created, wasOpen; cbn [negb];
    repeat first [ apply requestUpdate_consistent | exact Hopened | same_registry ].
Qed.

Lemma close_consistent id st :
  consistent None st -> consistent None (close subscribers id st).
Proof.
  intros Hc. unfold close, getDocument.
  destruct (_documents st !! normalizeFilename id) as [a|] eqn:E; [|exact Hc].
  assert (registered st a) as Hreg.
  { unfold registered. destruct Hc as [K _ _].
    destruct (K _ _ E) as [_ ->]. exact E. }
  pose proof (closeDocumentOnServer_spec a st Hc Hreg) as Hclosed.
  destruct (closeDocumentOnServer a st) as [removed st']. simpl in Hclosed.
  set (wasOpen := isOpenOnServer _).
  match goal with |- context [if negb (isOpenOnClient ?d) then _ else _] =>
    destruct (isOpenOnClient d) end;
  destruct removed, wasOpen; cbn [negb];
    repeat first [ apply requestUpdate_consistent | exact Hclosed | same_registry ].
Qed.

Lemma handleOpenClientDocument_consistent uri contents st :
  consistent None st ->
  consistent None (handleOpenClientDocument subscribers uri contents st).
Proof.
  intros Hc. unfold handleOpenClientDocument.
  set (name := normalizeFilename _).
  pose proof (getOrCreateDocument_spec name st Hc) as [Hc' Hreg'].
  destruct (getOrCreateDocument name st) as [[created a] st'].
  simpl in Hc', Hreg'. cbv zeta.
  set (changed := negb _). set (wasOpen := isOpenOnClient _).
  assert (consistent None
    (openDocumentOnClient a
       (update a (set_text contents) (update a (set_uri uri) st'))))
    as Hopened.
  { apply openDocumentOnClient_spec.
    - do 2 (apply consistent_update_other; [reflexivity | reflexivity |]).
      exact Hc'.
    - do 2 (apply registered_update; [reflexivity|]). exact Hreg'. }
  destruct changed, created, wasOpen; cbn [negb];
    repeat first [ apply requestUpdate_consistent | exact Hopened | same_registry ].
Qed.

Lemma handleUpdateClientDocument_consistent uri contentChanges st :
  consistent None st ->
  consistent None (handleUpdateClientDocument subscribers uri contentChanges st).
Proof.
  intros Hc. unfold handleUpdateClientDocument.
  destruct (last contentChanges) as [contents|]; [|exact Hc].
  apply (handleOpenClientDocument_consistent uri contents st Hc).
Qed.

Lemma handleCloseClientDocument_consistent uri st :
  consistent None st ->
  consistent None (handleCloseClientDocument subscribers uri st).
Proof.
  intros Hc. unfold handleCloseClientDocument, getDocument.
  set (name := normalizeFilename _).
  destruct (_documents st !! name) as [a|] eqn:E; [|exact Hc].
  assert (registered st a) as Hreg.
  { unfold registered. destruct Hc as [K _ _].
    destruct (K _ _ E) as [_ ->]. exact E. }
  pose proof (closeDocumentOnClient_spec a st Hc Hreg) as Hclosed.
  destruct (closeDocumentOnClient a st) as [removed st']. simpl in Hclosed.
  set (wasOpen := isOpenOnClient _).
  match goal with |- context [if negb (isOpenOnServer ?d) then _ else _] =>
    destruct (isOpenOnServer d) end;
  destruct removed, wasOpen; cbn [negb];
    repeat first [ apply requestUpdate_consistent | exact Hclosed | same_registry ].
Qed.

Lemma suspendUpdates_consistent st :
  consistent None st -> consistent None (suspendUpdates st).
Proof. intros Hc. unfold suspendUpdates. repeat same_registry. exact Hc. Qed.

Lemma resumeUpdates_consistent st :
  consistent None st -> consistent None (resumeUpdates subscribers st).
Proof.
  intros Hc. unfold resumeUpdates.
  destruct (0 <? _updateSuspended st)%nat; [|exact Hc].
  cbv zeta.
  match goal with |- context [if ?b then _ else _] => destruct b end.
  - apply reportUpdate_consistent. repeat same_registry. exact Hc.
  - repeat same_registry. exact Hc.
Qed.

Lemma markRoots_consistent documents st :
  consistent None st -> consistent None (markRoots documents st).2.
Proof.
  revert st. induction documents as [|a rest IH]; intros st Hc; [exact Hc|].
  simpl. destruct (isOpenOnClient (obj st a)).
  - specialize (IH (update a (set_marked true) st)).
    destruct (markRoots rest _) as [names st']. simpl in *.
    apply IH. apply consistent_update_other; [reflexivity | reflexivity | exact Hc].
  - apply IH. apply consistent_update_other; [reflexivity | reflexivity | exact Hc].
Qed.

Lemma deliver_consistent reads st :
  consistent None st -> consistent None (deliver reads st).2.
Proof.
  revert st. induction reads as [|name rest IH]; intros st Hc; [exact Hc|].
  simpl. pose proof (readFile_consistent name st Hc) as Hr.
  destruct (readFile name st) as [contents st1]. simpl in Hr.
  specialize (IH st1 Hr).
  destruct (deliver rest st1) as [delivered st2]. exact IH.
Qed.

Lemma sweep_consistent documents st :
  consistent None st -> consistent None (sweep subscribers documents st).
Proof.
  revert st. induction documents as [|a rest IH]; intros st Hc; [exact Hc|].
  simpl. apply IH.
  destruct (negb (marked (obj st a)) && negb (isOpenOnClient (obj st a)));
    [apply close_consistent|]; exact Hc.
Qed.

Lemma rebuild_consistent st :
  consistent None st -> consistent None (rebuild st).
Proof.
  intros Hc. unfold rebuild.
  pose proof (markRoots_consistent (all st) st Hc) as Hm.
  destruct (markRoots (all st) st) as [names st1]. simpl in Hm.
  cbv zeta.
  match goal with |- context [deliver ?r ?s] =>
    pose proof (deliver_consistent r s) as Hd;
    destruct (deliver r s) as [delivered st2] end.
  repeat same_registry. apply Hd. repeat same_registry. exact Hm.
Qed.

Lemma refreshGrammar_consistent st :
  consistent None st -> consistent None (refreshGrammar subscribers st).
Proof.
  intros Hc. unfold refreshGrammar.
  repeat same_registry. apply sweep_consistent, rebuild_consistent.
  repeat same_registry. exact Hc.
Qed.

Lemma rootNames_consistent st :
  consistent None st -> consistent None (rootNames subscribers st).2.
Proof.
  intros Hc. unfold rootNames. cbn [snd].
  destruct (_rootNames st); [exact Hc | apply refreshGrammar_consistent, Hc].
Qed.

Lemma grammar_consistent st :
  consistent None st -> consistent None (grammar subscribers st).2.
Proof.
  intros Hc. unfold grammar. cbn [snd].
  destruct (_grammar st); [exact Hc | apply refreshGrammar_consistent, Hc].
Qed.

Lemma getSourceFile_consistent id st :
  consistent None st -> consistent None (getSourceFile subscribers id st).2.
Proof.
  intros Hc. unfold getSourceFile.
  pose proof (grammar_consistent st Hc) as Hg.
  destruct (grammar subscribers st) as [[g|] st1]; exact Hg.
Qed.
End MethodsConsistency.

Section ServerConsistency.
Context `{Host} `{Files} `{Compiler} `{Analysis}.
Variable nested : DocumentManager -> DocumentManager.
Hypothesis nested_consistent :
  forall st, consistent None st -> consistent None (nested st).

Lemma sendAllDiagnostics_consistent documents st :
  consistent None st -> consistent None (sendAllDiagnostics nested documents st).2.
Proof.
  revert st. induction documents as [|a rest IH]; intros st Hc; [exact Hc|].
  simpl.
  pose proof (getSourceFile_consistent nested nested_consistent
                (Path (filename (obj st a))) st Hc) as Hg.
  destruct (getSourceFile nested _ st) as [[[node|]|] st1]; simpl in Hg.
  - apply IH. apply consistent_fire, Hg.
  - apply IH, Hg.
  - exact Hg.
Qed.

Lemma onDocumentsUpdated_consistent st :
  consistent None st -> consistent None (onDocumentsUpdated nested st).2.
Proof.
  intros Hc. unfold onDocumentsUpdated.
  pose proof (grammar_consistent nested nested_consistent st Hc) as Hg.
  destruct (grammar nested st) as [[g|] st1]; simpl in Hg; [|exact Hg].
  apply sendAllDiagnostics_consistent, Hg.
Qed.

Lemma onDefinition_consistent uri position st :
  consistent None st -> consistent None (onDefinition nested uri position st).2.
Proof.
  intros Hc. unfold onDefinition.
  pose proof (grammar_consistent nested nested_consistent st Hc) as Hg.
  destruct (grammar nested st) as [g st1]; simpl in Hg.
  pose proof (getSourceFile_consistent nested nested_consistent
                (TextDocumentIdentifier uri) st1 Hg) as Hs.
  destruct (getSourceFile nested _ st1) as [sourceFile st2]; simpl in Hs.
  destruct sourceFile as [sourceFile|], g as [g|]; try exact Hs.
  destruct (resolver_createNavigator g sourceFile) as [[navigator|]|]; try exact Hs.
  destruct (navigator_moveToPosition navigator position). exact Hs.
Qed.

Lemma onReferences_consistent uri position st :
  consistent None st -> consistent None (onReferences nested uri position st).2.
Proof.
  intros Hc. unfold onReferences.
  pose proof (grammar_consistent nested nested_consistent st Hc) as Hg.
  destruct (grammar nested st) as [g st1]; simpl in Hg.
  pose proof (getSourceFile_consistent nested nested_consistent
                (TextDocumentIdentifier uri) st1 Hg) as Hs.
  destruct (getSourceFile nested _ st1) as [sourceFile st2]; simpl in Hs.
  destruct sourceFile as [sourceFile|], g as [g|]; try exact Hs.
  destruct (resolver_createNavigator g sourceFile) as [[navigator|]|]; try exact Hs.
  destruct (navigator_moveToPosition navigator position). exact Hs.
Qed.

Lemma onRenameRequest_consistent id position newName st :
  consistent None st ->
  consistent None (onRenameRequest nested id position newName st).2.
Proof.
  intros Hc. unfold onRenameRequest.
  pose proof (grammar_consistent nested nested_consistent st Hc) as Hg.
  destruct (grammar nested st) as [g st1]; simpl in Hg.
  pose proof (getSourceFile_consistent nested nested_consistent id st1 Hg) as Hs.
  destruct (getSourceFile nested _ st1) as [sourceFile st2]; simpl in Hs.
  destruct sourceFile as [sourceFile|], g as [g|]; try exact Hs.
  destruct (resolver_createNavigator g sourceFile) as [[navigator|]|]; try exact Hs.
  destruct (navigator_moveToPosition navigator position) as [moved navigator'].
  destruct (moved && navigator_isIdentifier navigator'); [|exact Hs].
  destruct (getLocationsOfNodes _ _); exact Hs.
Qed.
End ServerConsistency.

Section ProgramConsistency.
Context `{Host} `{Files} `{Compiler} `{Analysis}.

Lemma subscribers_consistent st :
  consistent None st -> consistent None (subscribers st).
Proof.
  apply (onDocumentsUpdated_consistent (fun st => st)). intros st' Hc; exact Hc.
Qed.

Lemma perform_consistent op st :
  consistent None st -> consistent None (perform op st).
Proof.
  intros Hc. destruct op; simpl.
  - apply open_consistent; [apply subscribers_consistent | exact Hc].
  - apply close_consistent; [apply subscribers_consistent | exact Hc].
  - apply suspendUpdates_consistent, Hc.
  - apply resumeUpdates_consistent; [apply subscribers_consistent | exact Hc].
  - apply rootNames_consistent; [apply subscribers_consistent | exact Hc].
  - apply grammar_consistent; [apply subscribers_consistent | exact Hc].
  - apply getSourceFile_consistent; [apply subscribers_consistent | exact Hc].
  - apply handleOpenClientDocument_consistent;
      [apply subscribers_consistent | exact Hc].
  - apply handleUpdateClientDocument_consistent;
      [apply subscribers_consistent | exact Hc].
  - apply handleCloseClientDocument_consistent;
      [apply subscribers_consistent | exact Hc].
  - apply readFile_consistent, Hc.
  - apply onDefinition_consistent; [apply subscribers_consistent | exact Hc].
  - apply onReferences_consistent; [apply subscribers_consistent | exact Hc].
  - apply onRenameRequest_consistent; [apply subscribers_consistent | exact Hc].
Qed.

Lemma newDocumentManager_consistent : consistent None newDocumentManager.
Proof.
  split.
  - intros k a Hk. simpl in Hk. rewrite lookup_empty in Hk. discriminate.
  - intros a Hlt. simpl in Hlt. lia.
  - intros a Ha. unfold registered in Ha. simpl in Ha.
    rewrite lookup_empty in Ha. discriminate.
Qed.

Lemma reachable_consistent st : reachable st -> consistent None st.
Proof.
  induction 1 as [|op st _ IH].
  - apply newDocumentManager_consistent.
  - apply perform_consistent, IH.
Qed.

(** C1.  After every operation of every sequence of operations (the
    public methods, the client's notifications and requests, the
    read-callback), an object is in the registry if and only if it is open
    on the client or on the server; hence an object whose two flags an
    operation leaves false is out of the registry when that operation
    ends. *)
Theorem registry_membership_invariant :
  forall ops : list Operation,
    let st := run ops newDocumentManager in
    registry_invariant st /\
    forall (op : Operation) (document : ref),
      (document < List.length (heap st))%nat ->
      referenced (obj (perform op st) document) = false ->
      ~ registered (perform op st) document /\
      forall k, _documents (perform op st) !! k <> Some document.
Proof.
  intros ops st.
  assert (forall l s, reachable s -> reachable (run l s)) as Hrun.
  { induction l as [|op l IH]; intros s Hs; [exact Hs|].
    simpl. apply IH. apply reachable_step, Hs. }
  assert (reachable st) as Hst by (apply Hrun, reachable_new).
  split.
  - apply registry_invariant_consistent, reachable_consistent, Hst.
  - intros op document Hlt Href.
    pose proof (perform_consistent op st (reachable_consistent st Hst)) as [K R G].
    assert (~ registered (perform op st) document) as Hnot.
    { intros Hreg. destruct (G _ Hreg) as [Hr|Hp]; [|discriminate].
      rewrite Hr in Href. discriminate. }
    split; [exact Hnot|].
    intros k Hk. apply Hnot. unfold registered.
    destruct (K _ _ Hk) as [_ ->]. exact Hk.
Qed.
End ProgramConsistency.

(** ** What the registry primitives leave alone *)

Lemma control_fields st st' :
  control st' = control st ->
  _rootNames st' = _rootNames st /\ _grammar st' = _grammar st /\
  _updateSuspended st' = _updateSuspended st /\
  _updateRequested st' = _updateRequested st /\
  _updating st' = _updating st /\ events st' = events st.
Proof. unfold control. intros [= -> -> -> -> -> ->]. repeat split. Qed.

Section Control.
Context `{Host} `{Files} `{Compiler} `{Analysis}.

Lemma control_openDocumentOnClient a st :
  control (openDocumentOnClient a st) = control st.
Proof. unfold openDocumentOnClient. destruct (negb _); reflexivity. Qed.

Lemma control_openDocumentOnServer a st :
  control (openDocumentOnServer a st) = control st.
Proof. unfold openDocumentOnServer. destruct (negb _); reflexivity. Qed.

Lemma control_closeDocumentOnClient a st :
  control (closeDocumentOnClient a st).2 = control st.
Proof.
  unfold closeDocumentOnClient.
  destruct (isOpenOnClient _); [|reflexivity].
  destruct (isOpenOnServer _); reflexivity.
Qed.

Lemma control_closeDocumentOnServer a st :
  control (closeDocumentOnServer a st).2 = control st.
Proof.
  unfold closeDocumentOnServer.
  destruct (isOpenOnServer _); [|reflexivity].
  destruct (negb _); reflexivity.
Qed.

Lemma control_getOrCreateDocument name st :
  control (getOrCreateDocument name st).2 = control st.
Proof. unfold getOrCreateDocument. destruct (getDocument name st); reflexivity. Qed.

Lemma control_readFile name st : control (readFile name st).2 = control st.
Proof.
  unfold readFile. destruct (getDocument name st); [reflexivity|].
  destruct (host_readFile name); [|reflexivity].
  change (control (update (createDocument name st).1 (set_marked true)
            (openDocumentOnServer (createDocument name st).1
               (update (createDocument name st).1 (set_text s)
                  (createDocument name st).2))) = control st).
  transitivity (control (openDocumentOnServer (createDocument name st).1
               (update (createDocument name st).1 (set_text s)
                  (createDocument name st).2))); [reflexivity|].
  rewrite control_openDocumentOnServer. reflexivity.
Qed.

Lemma control_markRoots documents st :
  control (markRoots documents st).2 = control st.
Proof.
  revert st. induction documents as [|a rest IH]; intros st; [reflexivity|].
  simpl. destruct (isOpenOnClient (obj st a)).
  - specialize (IH (update a (set_marked true) st)).
    destruct (markRoots rest _) as [names st']. exact IH.
  - rewrite IH. reflexivity.
Qed.

Lemma control_deliver reads st : control (deliver reads st).2 = control st.
Proof.
  revert st. induction reads as [|name rest IH]; intros st; [reflexivity|].
  simpl. pose proof (control_readFile name st) as Hr.
  destruct (readFile name st) as [contents st1]. simpl in Hr.
  specialize (IH st1). destruct (deliver rest st1) as [delivered st2].
  simpl in *. congruence.
Qed.
End Control.

(** ** Reports in a trace *)

Lemma reports_app l l' : reports (l ++ l') = (reports l + reports l')%nat.
Proof. unfold reports. rewrite filter_app, length_app. reflexivity. Qed.

Lemma reports_single e : e <> DidUpdate -> reports [e] = 0%nat.
Proof. intros He. unfold reports. rewrite filter_cons_False by exact He. reflexivity. Qed.

Lemma reports_fire e st :
  e <> DidUpdate -> reports (events (fire e st)) = reports (events st).
Proof.
  intros He. simpl. rewrite reports_app. unfold reports at 2.
  rewrite filter_cons_False by exact He. simpl. lia.
Qed.

Lemma reports_fire_DidUpdate st :
  reports (events (fire DidUpdate st)) = S (reports (events st)).
Proof.
  simpl. rewrite reports_app. unfold reports at 2.
  rewrite filter_cons_True by reflexivity. simpl. lia.
Qed.

(** ** While a report or a rebuild is in progress *)

Section Updating.
Context `{Host} `{Files} `{Compiler} `{Analysis}.
Variable subscribers : DocumentManager -> DocumentManager.

Lemma reportUpdate_updating st :
  _updating st = true -> reportUpdate subscribers st = st.
Proof. intros Hu. unfold reportUpdate. rewrite Hu. reflexivity. Qed.

Lemma requestUpdate_updating st :
  _updating st = true ->
  requestUpdate subscribers st =
  if (0 <? _updateSuspended st)%nat then with_updateRequested true st else st.
Proof.
  intros Hu. unfold requestUpdate. rewrite reportUpdate_updating by exact Hu.
  reflexivity.
Qed.

Lemma requestUpdate_suspended st :
  (0 < _updateSuspended st)%nat ->
  requestUpdate subscribers st = with_updateRequested true st.
Proof.
  intros Hs. unfold requestUpdate.
  destruct (Nat.ltb_spec 0 (_updateSuspended st)); [reflexivity | lia].
Qed.

(** [close] during a report or a rebuild: the transition on the server
    side, the invalidation if the document went, and no dispatch. *)
Lemma close_updating id st :
  _updating st = true ->
  match getDocument (normalizeFilename id) st with
  | None => close subscribers id st = st
  | Some document =>
      let r := closeDocumentOnServer document st in
      let st' := close subscribers id st in
      heap st' = heap r.2 /\ _documents st' = _documents r.2 /\
      _grammar st' = (if r.1 then None else _grammar st) /\
      _updating st' = true /\
      _updateSuspended st' = _updateSuspended st /\
      reports (events st') = reports (events st)
  end.
Proof.
  intros Hu. unfold close.
  destruct (getDocument (normalizeFilename id) st) as [a|]; [|reflexivity].
  pose proof (control_closeDocumentOnServer a st) as Hctl.
  apply control_fields in Hctl as (Hr & Hg & Hs & Hq & Hup & He).
  destruct (closeDocumentOnServer a st) as [removed st1]. simpl in *.
  repeat first
    [ rewrite requestUpdate_updating by (simpl; congruence)
    | match goal with |- context [if ?b then _ else _] => destruct b end ];
    simpl; rewrite ?reports_app; simpl; repeat split; try congruence;
    rewrite ?He, ?reports_single by discriminate; try lia.
Qed.
End Updating.

Section Rebuild.
Context `{Host} `{Files} `{Compiler} `{Analysis}.
Variable subscribers : DocumentManager -> DocumentManager.

Lemma closeDocumentOnServer_kept a st :
  (closeDocumentOnServer a st).1 = false ->
  _documents (closeDocumentOnServer a st).2 = _documents st.
Proof.
  unfold closeDocumentOnServer.
  destruct (isOpenOnServer _); [|reflexivity].
  destruct (negb _); [discriminate | reflexivity].
Qed.

Lemma close_updating_fields id st :
  _updating st = true ->
  _updating (close subscribers id st) = true /\
  _updateSuspended (close subscribers id st) = _updateSuspended st /\
  reports (events (close subscribers id st)) = reports (events st).
Proof.
  intros Hu. pose proof (close_updating subscribers id st Hu) as Hc.
  destruct (getDocument (normalizeFilename id) st) as [a|].
  - destruct Hc as (_ & _ & _ & Hu' & Hs & Hr). auto.
  - rewrite Hc. auto.
Qed.

(** A [close] during a rebuild either leaves the registry and the cached
    compilation state alone, or discards the compilation state. *)
Lemma close_updating_grammar id st :
  _updating st = true ->
  (_documents (close subscribers id st) = _documents st /\
   _grammar (close subscribers id st) = _grammar st) \/
  _grammar (close subscribers id st) = None.
Proof.
  intros Hu. pose proof (close_updating subscribers id st Hu) as Hc.
  destruct (getDocument (normalizeFilename id) st) as [a|].
  - destruct Hc as (_ & Hd & Hg & _).
    destruct (closeDocumentOnServer a st).1 eqn:E.
    + right. exact Hg.
    + left. split; [|exact Hg].
      rewrite Hd. apply closeDocumentOnServer_kept, E.
  - rewrite Hc. left. split; reflexivity.
Qed.

Lemma close_updating_grammar_None id st :
  _updating st = true -> _grammar st = None ->
  _grammar (close subscribers id st) = None.
Proof.
  intros Hu Hn. pose proof (close_updating subscribers id st Hu) as Hc.
  destruct (getDocument (normalizeFilename id) st) as [a|].
  - destruct Hc as (_ & _ & Hg & _). rewrite Hg, Hn.
    destruct (closeDocumentOnServer a st).1; reflexivity.
  - rewrite Hc. exact Hn.
Qed.

Lemma sweep_updating_fields documents st :
  _updating st = true ->
  _updating (sweep subscribers documents st) = true /\
  _updateSuspended (sweep subscribers documents st) = _updateSuspended st /\
  reports (events (sweep subscribers documents st)) = reports (events st).
Proof.
  revert st. induction documents as [|a rest IH]; intros st Hu; [auto|].
  simpl. destruct (negb (marked (obj st a)) && negb (isOpenOnClient (obj st a))).
  - destruct (close_updating_fields (Path (filename (obj st a))) st Hu)
      as (Hu' & Hs & Hr).
    destruct (IH _ Hu') as (Hu'' & Hs' & Hr').
    repeat split; congruence.
  - apply IH, Hu.
Qed.

Lemma sweep_updating_grammar_None documents st :
  _updating st = true -> _grammar st = None ->
  _grammar (sweep subscribers documents st) = None.
Proof.
  revert st. induction documents as [|a rest IH]; intros st Hu Hn; [exact Hn|].
  simpl. destruct (negb (marked (obj st a)) && negb (isOpenOnClient (obj st a))).
  - apply IH.
    + apply close_updating_fields, Hu.
    + apply close_updating_grammar_None; assumption.
  - apply IH; assumption.
Qed.

Lemma sweep_updating_grammar documents st :
  _updating st = true ->
  (_documents (sweep subscribers documents st) = _documents st /\
   _grammar (sweep subscribers documents st) = _grammar st) \/
  _grammar (sweep subscribers documents st) = None.
Proof.
  revert st. induction documents as [|a rest IH]; intros st Hu.
  { left. split; reflexivity. }
  simpl. destruct (negb (marked (obj st a)) && negb (isOpenOnClient (obj st a))).
  - pose proof (close_updating_fields (Path (filename (obj st a))) st Hu)
      as (Hu' & _).
    destruct (close_updating_grammar (Path (filename (obj st a))) st Hu)
      as [[Hd Hg]|Hn].
    + destruct (IH _ Hu') as [[Hd' Hg']|Hn'].
      * left. split; congruence.
      * right. exact Hn'.
    + right. apply sweep_updating_grammar_None; assumption.
  - apply IH, Hu.
Qed.

Lemma rebuild_fields st :
  is_Some (_grammar (rebuild st)) /\
  _updating (rebuild st) = _updating st /\
  _updateSuspended (rebuild st) = _updateSuspended st /\
  events (rebuild st) = events st.
Proof.
  unfold rebuild.
  pose proof (control_markRoots (all st) st) as Hm.
  destruct (markRoots (all st) st) as [names st1]. simpl in Hm.
  cbv zeta.
  match goal with |- context [deliver ?r ?s] =>
    pose proof (control_deliver r s) as Hd;
    destruct (deliver r s) as [delivered st2] end.
  simpl in Hd.
  apply control_fields in Hm as (_ & _ & Hs & _ & Hu & He).
  apply control_fields in Hd as (_ & _ & Hs' & _ & Hu' & He').
  simpl in *. split; [eexists; reflexivity|].
  repeat split; congruence.
Qed.

Lemma refreshGrammar_fields st :
  _updating (refreshGrammar subscribers st) = _updating st /\
  _updateSuspended (refreshGrammar subscribers st) = _updateSuspended st /\
  reports (events (refreshGrammar subscribers st)) = reports (events st).
Proof.
  unfold refreshGrammar. simpl.
  destruct (rebuild_fields (with_updating true st)) as (_ & Hu & Hs & He).
  destruct (sweep_updating_fields (all (rebuild (with_updating true st)))
              (rebuild (with_updating true st)) Hu) as (_ & Hs' & Hr').
  simpl in *. repeat split; congruence.
Qed.

Lemma grammar_fields st :
  _updating (grammar subscribers st).2 = _updating st /\
  _updateSuspended (grammar subscribers st).2 = _updateSuspended st /\
  reports (events (grammar subscribers st).2) = reports (events st).
Proof.
  unfold grammar. cbn [snd].
  destruct (_grammar st); [auto | apply refreshGrammar_fields].
Qed.

Lemma getSourceFile_fields id st :
  _updating (getSourceFile subscribers id st).2 = _updating st /\
  _updateSuspended (getSourceFile subscribers id st).2 = _updateSuspended st /\
  reports (events (getSourceFile subscribers id st).2) = reports (events st).
Proof.
  unfold getSourceFile. pose proof (grammar_fields st) as Hg.
  destruct (grammar subscribers st) as [[g|] st1]; exact Hg.
Qed.

(** C2 (as amended).  A request made while a report is in progress and
    the suspension counter is zero changes nothing: no second report is
    fired, and the request is not recorded as pending either. *)
Theorem requestUpdate_reentrant st :
  _updating st = true -> _updateSuspended st = 0%nat ->
  requestUpdate subscribers st = st /\
  reports (events (requestUpdate subscribers st)) = reports (events st) /\
  _updateRequested (requestUpdate subscribers st) = _updateRequested st.
Proof.
  intros Hu Hs.
  assert (requestUpdate subscribers st = st) as ->; [|auto].
  rewrite requestUpdate_updating by exact Hu. rewrite Hs. reflexivity.
Qed.

(** C10.  When the accessor [grammar] triggers a rebuild and the sweep
    of that rebuild takes a document out of the registry, the compilation
    state that the rebuild had assigned is discarded again, and the
    accessor returns [undefined]. *)
Theorem grammar_undefined_after_sweep st :
  _grammar st = None ->
  (exists name,
     is_Some (_documents (rebuild (with_updating true st)) !! name) /\
     _documents (grammar subscribers st).2 !! name = None) ->
  is_Some (_grammar (rebuild (with_updating true st))) /\
  (grammar subscribers st).1 = None /\
  _grammar (grammar subscribers st).2 = None.
Proof.
  intros Hn (name & Hin & Hout).
  split; [apply rebuild_fields|].
  unfold grammar in *. rewrite Hn in *. cbn [fst snd] in *.
  assert (_grammar (refreshGrammar subscribers st) = None) as Hg; [|auto].
  unfold refreshGrammar in *. simpl in *.
  destruct (rebuild_fields (with_updating true st)) as (_ & Hu & _).
  destruct (sweep_updating_grammar (all (rebuild (with_updating true st)))
              (rebuild (with_updating true st)) Hu) as [[Hd _]|Hnone].
  - rewrite Hd in Hout. rewrite Hout in Hin. destruct Hin; discriminate.
  - exact Hnone.
Qed.
End Rebuild.

(** ** The subscriber: nothing it does dispatches a second report *)

Section Nested.
Context `{Host} `{Files} `{Compiler} `{Analysis}.
Variables nested nested' : DocumentManager -> DocumentManager.

Lemma close_nested id st :
  _updating st = true -> close nested id st = close nested' id st.
Proof.
  intros Hu. unfold close.
  destruct (getDocument (normalizeFilename id) st) as [a|]; [|reflexivity].
  pose proof (control_closeDocumentOnServer a st) as Hctl.
  apply control_fields in Hctl as (_ & _ & _ & _ & Hup & _).
  destruct (closeDocumentOnServer a st) as [removed st1]. simpl in Hup.
  repeat match goal with |- context [if ?b then _ else _] => destruct b end;
    rewrite ?(requestUpdate_updating nested), ?(requestUpdate_updating nested')
      by (simpl; congruence);
    reflexivity.
Qed.

Lemma sweep_nested documents st :
  _updating st = true -> sweep nested documents st = sweep nested' documents st.
Proof.
  revert st. induction documents as [|a rest IH]; intros st Hu; [reflexivity|].
  simpl. destruct (negb (marked (obj st a)) && negb (isOpenOnClient (obj st a))).
  - rewrite (close_nested _ st Hu). apply IH.
    apply close_updating_fields, Hu.
  - apply IH, Hu.
Qed.

Lemma refreshGrammar_nested st :
  refreshGrammar nested st = refreshGrammar nested' st.
Proof.
  unfold refreshGrammar. simpl. f_equal. apply sweep_nested.
  destruct (rebuild_fields (with_updating true st)) as (_ & Hu & _). exact Hu.
Qed.

Lemma grammar_nested st : grammar nested st = grammar nested' st.
Proof. unfold grammar. rewrite refreshGrammar_nested. reflexivity. Qed.

Lemma getSourceFile_nested id st :
  getSourceFile nested id st = getSourceFile nested' id st.
Proof. unfold getSourceFile. rewrite grammar_nested. reflexivity. Qed.

Lemma sendAllDiagnostics_nested documents st :
  sendAllDiagnostics nested documents st = sendAllDiagnostics nested' documents st.
Proof.
  revert st. induction documents as [|a rest IH]; intros st; [reflexivity|].
  simpl. rewrite getSourceFile_nested.
  destruct (getSourceFile nested' _ st) as [[[node|]|] st1];
    [apply IH | apply IH | reflexivity].
Qed.

Lemma onDocumentsUpdated_nested st :
  onDocumentsUpdated nested st = onDocumentsUpdated nested' st.
Proof.
  unfold onDocumentsUpdated. rewrite grammar_nested.
  destruct (grammar nested' st) as [[g|] st1]; [|reflexivity].
  apply sendAllDiagnostics_nested.
Qed.

Lemma sendAllDiagnostics_fields documents st :
  _updating (sendAllDiagnostics nested documents st).2 = _updating st /\
  _updateSuspended (sendAllDiagnostics nested documents st).2 = _updateSuspended st /\
  reports (events (sendAllDiagnostics nested documents st).2) = reports (events st).
Proof.
  revert st. induction documents as [|a rest IH]; intros st; [auto|].
  simpl.
  pose proof (getSourceFile_fields nested (Path (filename (obj st a))) st)
    as (Hu & Hs & Hr).
  destruct (getSourceFile nested _ st) as [[[node|]|] st1]; simpl in *.
  - destruct (IH (fire (SendDiagnostics (uri (obj st1 a))) st1)) as (Hu' & Hs' & Hr').
    rewrite reports_fire in Hr' by discriminate. simpl in Hu', Hs'.
    repeat split; congruence.
  - destruct (IH st1) as (Hu' & Hs' & Hr'). repeat split; congruence.
  - auto.
Qed.

Lemma onDocumentsUpdated_fields st :
  _updating (onDocumentsUpdated nested st).2 = _updating st /\
  _updateSuspended (onDocumentsUpdated nested st).2 = _updateSuspended st /\
  reports (events (onDocumentsUpdated nested st).2) = reports (events st).
Proof.
  unfold onDocumentsUpdated.
  pose proof (grammar_fields nested st) as (Hu & Hs & Hr).
  destruct (grammar nested st) as [[g|] st1]; simpl in *; [|auto].
  destruct (sendAllDiagnostics_fields (all st1) st1) as (Hu' & Hs' & Hr').
  repeat split; congruence.
Qed.
End Nested.

Section Subscriber.
Context `{Host} `{Files} `{Compiler} `{Analysis}.

(** The subscriber is [onDocumentsUpdated] with itself as the dispatch
    of nested reports. *)
Lemma subscribers_unfold st :
  subscribers st = (onDocumentsUpdated subscribers st).2.
Proof.
  unfold subscribers at 1.
  rewrite (onDocumentsUpdated_nested (fun st => st) subscribers). reflexivity.
Qed.

Lemma subscribers_fields st :
  _updating (subscribers st) = _updating st /\
  _updateSuspended (subscribers st) = _updateSuspended st /\
  reports (events (subscribers st)) = reports (events st).
Proof. apply onDocumentsUpdated_fields. Qed.

(** A report at the top level: exactly one [DidUpdate]. *)
Lemma reportUpdate_reports st :
  _updating st = false ->
  reports (events (reportUpdate subscribers st)) = S (reports (events st)) /\
  _updateSuspended (reportUpdate subscribers st) = _updateSuspended st /\
  _updateRequested (reportUpdate subscribers st)
    = _updateRequested
        (subscribers (fire DidUpdate
           (with_updateRequested false (with_updating true st)))) /\
  _updating (reportUpdate subscribers st) = false.
Proof.
  intros Hu. unfold reportUpdate. rewrite Hu. simpl.
  destruct (subscribers_fields
    (fire DidUpdate (with_updateRequested false (with_updating true st))))
    as (_ & Hs & Hr).
  rewrite Hr, Hs, reports_fire_DidUpdate. auto.
Qed.
End Subscriber.

(** ** Batching *)

Section Batching.
Context `{Host} `{Files} `{Compiler} `{Analysis}.

Lemma obj_createDocument name st :
  obj (createDocument name st).2 (createDocument name st).1
  = newGrammarDocument name.
Proof.
  unfold createDocument, obj; simpl.
  rewrite list_lookup_total_alt, lookup_app_r, Nat.sub_diag by lia.
  reflexivity.
Qed.

(** [changed], computed on the object that [getOrCreateDocument] gives,
    compares the new text with the text the registry held. *)
Lemma changed_trackedText name st :
  text (obj (getOrCreateDocument name st).2 (getOrCreateDocument name st).1.2)
  = trackedText name st.
Proof.
  unfold getOrCreateDocument, trackedText.
  destruct (getDocument name st) as [a|]; [reflexivity|].
  change (text (obj (createDocument name st).2 (createDocument name st).1) = None).
  rewrite obj_createDocument. reflexivity.
Qed.

Variable subscribers : DocumentManager -> DocumentManager.

Lemma handleOpenClientDocument_suspended uri contents st :
  (0 < _updateSuspended st)%nat ->
  trackedText (normalizeFilename (TextDocumentIdentifier uri)) st <> Some contents ->
  let st' := handleOpenClientDocument subscribers uri contents st in
  _updateRequested st' = true /\
  _updateSuspended st' = _updateSuspended st /\
  _updating st' = _updating st /\
  reports (events st') = reports (events st).
Proof.
  intros Hs Hchanged. unfold handleOpenClientDocument.
  set (name := normalizeFilename _) in *.
  pose proof (control_getOrCreateDocument name st) as Hctl.
  pose proof (changed_trackedText name st) as Htext.
  destruct (getOrCreateDocument name st) as [[created a] st1].
  simpl in Hctl, Htext. cbv zeta.
  rewrite Htext, bool_decide_eq_false_2 by exact Hchanged. cbn [negb].
  apply control_fields in Hctl as (_ & _ & Hs1 & _ & Hu1 & He1).
  set (st2 := openDocumentOnClient a _).
  assert (control st2 = control st1) as Hctl2
    by (unfold st2; rewrite control_openDocumentOnClient; reflexivity).
  apply control_fields in Hctl2 as (_ & _ & Hs2 & _ & Hu2 & He2).
  rewrite requestUpdate_suspended
    by (destruct created, (isOpenOnClient (obj st1 a)); simpl; lia).
  destruct created, (isOpenOnClient (obj st1 a)); simpl;
    rewrite ?reports_app, ?reports_single by discriminate;
    repeat split; try congruence; rewrite ?He2, ?He1; lia.
Qed.

Lemma open_suspended id contents st :
  (0 < _updateSuspended st)%nat ->
  host_readFile (normalizeFilename id) = Some contents ->
  trackedText (normalizeFilename id) st <> Some contents ->
  let st' := (open subscribers id st).2 in
  _updateRequested st' = true /\
  _updateSuspended st' = _updateSuspended st /\
  _updating st' = _updating st /\
  reports (events st') = reports (events st).
Proof.
  intros Hs Hread Hchanged. unfold open. rewrite Hread.
  set (name := normalizeFilename _) in *.
  pose proof (control_getOrCreateDocument name st) as Hctl.
  pose proof (changed_trackedText name st) as Htext.
  destruct (getOrCreateDocument name st) as [[created a] st1].
  simpl in Hctl, Htext. cbv zeta.
  rewrite Htext, bool_decide_eq_false_2 by exact Hchanged. cbn [negb snd].
  apply control_fields in Hctl as (_ & _ & Hs1 & _ & Hu1 & He1).
  set (st2 := openDocumentOnServer a _).
  assert (control st2 = control st1) as Hctl2
    by (unfold st2; rewrite control_openDocumentOnServer; reflexivity).
  apply control_fields in Hctl2 as (_ & _ & Hs2 & _ & Hu2 & He2).
  rewrite requestUpdate_suspended
    by (destruct created, (isOpenOnServer (obj st1 a)); simpl; lia).
  destruct created, (isOpenOnServer (obj st1 a)); simpl;
    rewrite ?reports_app, ?reports_single by discriminate;
    repeat split; try congruence; rewrite ?He2, ?He1; lia.
Qed.
End Batching.

Section BatchingProgram.
Context `{Host} `{Files} `{Compiler} `{Analysis}.

Lemma perform_contentChange_suspended op st :
  (0 < _updateSuspended st)%nat ->
  contentChange op st = true ->
  _updateRequested (perform op st) = true /\
  _updateSuspended (perform op st) = _updateSuspended st /\
  _updating (perform op st) = _updating st /\
  reports (events (perform op st)) = reports (events st).
Proof.
  intros Hs Hc.
  destruct op as [id|id| | | | |id|u contents|u contentChanges|u|name|u p|u p|id p n];
    simpl in Hc; try discriminate; simpl.
  - destruct (host_readFile (normalizeFilename id)) as [contents|] eqn:E;
      [|discriminate].
    apply (open_suspended subscribers id contents st Hs E).
    apply negb_true_iff, bool_decide_eq_false in Hc. exact Hc.
  - apply (handleOpenClientDocument_suspended subscribers u contents st Hs).
    apply negb_true_iff, bool_decide_eq_false in Hc. exact Hc.
  - unfold handleUpdateClientDocument.
    destruct (last contentChanges) as [contents|]; [|discriminate].
    apply (handleOpenClientDocument_suspended subscribers u contents st Hs).
    apply negb_true_iff, bool_decide_eq_false in Hc. exact Hc.
Qed.

Lemma run_contentChanges_suspended ops st :
  (0 < _updateSuspended st)%nat ->
  contentChanges ops st = true ->
  _updateSuspended (run ops st) = _updateSuspended st /\
  _updating (run ops st) = _updating st /\
  reports (events (run ops st)) = reports (events st) /\
  (ops <> [] -> _updateRequested (run ops st) = true).
Proof.
  revert st. induction ops as [|op rest IH]; intros st Hs Hc.
  { simpl. repeat split. intros Hne. contradiction. }
  simpl in Hc. apply andb_true_iff in Hc as [Hop Hrest].
  destruct (perform_contentChange_suspended op st Hs Hop) as (Hq & Hs' & Hu' & Hr').
  assert (0 < _updateSuspended (perform op st))%nat as Hpos by lia.
  destruct (IH (perform op st) Hpos Hrest) as (Hs'' & Hu'' & Hr'' & Hq'').
  simpl. repeat split; try congruence.
  intros _. destruct rest as [|op' rest']; [exact Hq|].
  apply Hq''. discriminate.
Qed.

(** Suspend, content changes, resume, from a state in which no report is
    in progress. *)
Lemma batching_from (st : DocumentManager) (ops : list Operation) :
  _updating st = false ->
  _updateSuspended st = 0%nat ->
  ops <> [] ->
  contentChanges ops (suspendUpdates st) = true ->
  let suspended := run ops (suspendUpdates st) in
  let resumed := resumeUpdates subscribers suspended in
  reports (events suspended) = reports (events st) /\
  _updateSuspended resumed = 0%nat /\
  reports (events resumed) = S (reports (events st)).
Proof.
  intros Hu Hs Hne Hc suspended resumed.
  assert (0 < _updateSuspended (suspendUpdates st))%nat as Hpos by (simpl; lia).
  destruct (run_contentChanges_suspended ops _ Hpos Hc) as (Hs' & Hu' & Hr' & Hq').
  specialize (Hq' Hne). simpl in Hs', Hu', Hr'. rewrite Hs in Hs'.
  fold suspended in Hs', Hu', Hr', Hq'.
  split; [exact Hr'|].
  unfold resumed, resumeUpdates. rewrite Hs'. simpl. rewrite Hq'. simpl.
  destruct (reportUpdate_reports (with_updateSuspended 0 suspended))
    as (Hr & Hs0 & _ & _); [simpl; congruence|].
  simpl in Hr, Hs0. split; [exact Hs0 | congruence].
Qed.
End BatchingProgram.

(** ** Opening and closing one document *)

Section OpenClose.
Context `{Host} `{Files} `{Compiler} `{Analysis}.
Variable subscribers : DocumentManager -> DocumentManager.

(** C3, at the input where the code departs from it.  [close] on a
    document that is open on both sides clears [isOpenOnServer] and keeps
    the document registered, and no event at all is fired: the test
    [!wasOpenOnServer] lets "closed-on-server" through only when the
    document was not open on the server. *)
Theorem close_open_on_both_sides id st document :
  getDocument (normalizeFilename id) st = Some document ->
  (document < List.length (heap st))%nat ->
  isOpenOnClient (obj st document) = true ->
  isOpenOnServer (obj st document) = true ->
  let st' := close subscribers id st in
  isOpenOnServer (obj st' document) = false /\
  getDocument (normalizeFilename id) st' = Some document /\
  events st' = events st.
Proof.
  intros Hget Hlt Hclient Hserver. unfold close. rewrite Hget.
  unfold closeDocumentOnServer. rewrite Hserver.
  rewrite (obj_update_field isOpenOnClient) by reflexivity.
  rewrite Hclient. simpl.
  rewrite (obj_update_field isOpenOnClient) by reflexivity.
  rewrite Hclient. simpl.
  rewrite obj_update_eq by exact Hlt. auto.
Qed.

(** C7.  Opening a document that the registry holds, with the text it
    already has, fires no content-changed event and no report, records no
    pending update and leaves the cached compilation state as it was; the
    only event there can be is the one for the side that was not open.
    From the server side the text is the one the host reads; a notification
    of the client carries its own, whatever is on disk. *)
Theorem open_same_text id uri' contents st document :
  getDocument (normalizeFilename id) st = Some document ->
  normalizeFilename (TextDocumentIdentifier uri') = normalizeFilename id ->
  text (obj st document) = Some contents ->
  let onServer := (open subscribers id st).2 in
  let onClient := handleOpenClientDocument subscribers uri' contents st in
  (host_readFile (normalizeFilename id) = Some contents ->
   events onServer =
     events st ++ (if isOpenOnServer (obj st document) then []
                   else [DidCloseOnServer document]) /\
   _grammar onServer = _grammar st /\ _rootNames onServer = _rootNames st /\
   _updateRequested onServer = _updateRequested st) /\
  (events onClient =
     events st ++ (if isOpenOnClient (obj st document) then []
                   else [DidOpenOnClient document]) /\
   _grammar onClient = _grammar st /\ _rootNames onClient = _rootNames st /\
   _updateRequested onClient = _updateRequested st).
Proof.
  intros Hget Hname Htext. split.
  - intros Hread. unfold open. rewrite Hread.
    unfold getOrCreateDocument. rewrite Hget.
    cbv zeta. rewrite Htext, bool_decide_eq_true_2 by reflexivity.
    cbn [negb snd].
    set (st2 := openDocumentOnServer document _).
    assert (control st2 = control st) as Hctl
      by (unfold st2; rewrite control_openDocumentOnServer; reflexivity).
    apply control_fields in Hctl as (Hr & Hg & _ & Hq & _ & He).
    destruct (isOpenOnServer (obj st document)); simpl;
      rewrite ?app_nil_r; repeat split; congruence.
  - unfold handleOpenClientDocument. rewrite Hname.
    unfold getOrCreateDocument. rewrite Hget.
    cbv zeta. rewrite Htext, bool_decide_eq_true_2 by reflexivity.
    cbn [negb].
    set (st2 := openDocumentOnClient document _).
    assert (control st2 = control st) as Hctl
      by (unfold st2; rewrite control_openDocumentOnClient; reflexivity).
    apply control_fields in Hctl as (Hr & Hg & _ & Hq & _ & He).
    destruct (isOpenOnClient (obj st document)); simpl;
      rewrite ?app_nil_r; repeat split; congruence.
Qed.

(** C9.  If the host's [resolveFile] and [normalizeFile] leave a path
    alone that is already resolved and normalized, normalizing an
    identity gives it back. *)
Theorem normalizeFilename_idempotent :
  (forall p, let q := host_normalizeFile (host_resolveFile p) in
             host_resolveFile q = q /\ host_normalizeFile q = q) ->
  forall id : Locator,
    normalizeFilename (Path (normalizeFilename id)) = normalizeFilename id.
Proof.
  intros Hcanonical id. unfold normalizeFilename.
  destruct id as [p|u].
  - destruct (Hcanonical p) as [Hr Hn]. simpl in Hr, Hn. rewrite Hr, Hn. reflexivity.
  - destruct (Hcanonical (uriToFilePath u)) as [Hr Hn]. simpl in Hr, Hn.
    rewrite Hr, Hn. reflexivity.
Qed.
End OpenClose.

(** ** Locator-to-URI conversion *)

Lemma split_not_nil p : split p <> [].
Proof.
  destruct p as [|c rest]; simpl; [discriminate|].
  destruct (isSeparator c); [discriminate|].
  destruct (split rest); discriminate.
Qed.

(** The joined path begins with a slash exactly when the path begins with
    one of the two separators. *)
Lemma pathname_charAt p :
  String.eqb (charAt 0 (join "/" (map encodeURIComponent (split p)))) "/"
  = beginsWithSeparator p.
Proof.
  destruct p as [|c rest]; [reflexivity|].
  simpl split. simpl beginsWithSeparator.
  destruct (isSeparator c) eqn:Hsep.
  - pose proof (split_not_nil rest) as Hne.
    destruct (split rest) as [|seg segs]; [contradiction|].
    reflexivity.
  - assert (Ascii.eqb c "/" = false) as Hc.
    { unfold isSeparator in Hsep. apply orb_false_iff in Hsep as [Hc _]. exact Hc. }
    assert (forall seg segs,
      String.eqb (charAt 0 (join "/" (map encodeURIComponent (String c seg :: segs)))) "/"
      = false) as Hfirst.
    { intros seg segs. simpl map. simpl encodeURIComponent.
      unfold join.
      destruct segs as [|seg' segs']; destruct (isUnreserved c);
        simpl; rewrite ?Hc; reflexivity. }
    destruct (split rest) as [|seg segs]; apply Hfirst.
Qed.

(** C8 (as amended).  A path that is not a URI becomes the URI made of its
    segments, split at slashes and backslashes, each percent-encoded, joined
    with a slash, after [file://] if the path begins with a slash or a
    backslash and after [file:///] otherwise. *)
Theorem normalizeUri_path (p : string) :
  normalizeUri (Path p) =
  (if beginsWithSeparator p then "file://" else "file:///")
  +:+ join "/" (map encodeURIComponent (split p)).
Proof.
  unfold normalizeUri. rewrite pathname_charAt.
  destruct (beginsWithSeparator p); reflexivity.
Qed.

(** C8, as stated, fails on a path that begins with a backslash. *)
Lemma normalizeUri_leading_backslash :
  normalizeUri (Path "\a") = "file:///a" /\
  spec_normalizeUri "\a" = "file:////a" /\
  normalizeUri (Path "\a") <> spec_normalizeUri "\a".
Proof. repeat split. discriminate. Qed.

(** ** Queries on a document the compiler has no source file for *)

Section Queries.
Context `{Host} `{Files} `{Compiler} `{Analysis}.
Variable nested : DocumentManager -> DocumentManager.

Lemma grammar_defined st g :
  _grammar st = Some g -> grammar nested st = (Some g, st).
Proof. intros Hg. unfold grammar. rewrite Hg. simpl. rewrite Hg. reflexivity. Qed.

Lemma grammar_result st : (grammar nested st).1 = _grammar (grammar nested st).2.
Proof. reflexivity. Qed.

(** The three handlers fault when the accessor gives [undefined], as it
    does after a sweep that closed a document. *)
Lemma queries_without_grammar uri position newName st :
  (grammar nested st).1 = None ->
  (onDefinition nested uri position st).1 = Fault /\
  (onReferences nested uri position st).1 = Fault /\
  (onRenameRequest nested (TextDocumentIdentifier uri) position newName st).1
    = Fault.
Proof.
  intros Hg. unfold onDefinition, onReferences, onRenameRequest.
  destruct (grammar nested st) as [g st1]. simpl in Hg. subst g.
  destruct (getSourceFile nested _ st1) as [[sourceFile|] st2];
    repeat split; reflexivity.
Qed.

(** C6, at the input where the code departs from it.  For a locator
    that the compilation state has no source file for, as one with no
    tracked document, and a library that gives no navigator for an absent
    source file, the definition and references handlers raise: they call
    [navigator.moveToPosition] without the test [navigator && ...] that
    the rename handler makes, which returns [undefined]. *)
Theorem queries_on_untracked_document uri position newName st g :
  (grammar nested st).1 = Some g ->
  grammar_getSourceFile g (normalizeFilename (TextDocumentIdentifier uri)) = None ->
  (forall navigator, resolver_createNavigator g None <> Value (Some navigator)) ->
  (onDefinition nested uri position st).1 = Fault /\
  (onReferences nested uri position st).1 = Fault /\
  (resolver_createNavigator g None = Value None ->
   (onRenameRequest nested (TextDocumentIdentifier uri) position newName st).1
     = Value None).
Proof.
  intros Hg Hsource Hnav.
  unfold onDefinition, onReferences, onRenameRequest.
  pose proof (grammar_result st) as Hres.
  destruct (grammar nested st) as [g' st1]. simpl in Hg, Hres. subst g'.
  symmetry in Hres.
  unfold getSourceFile. rewrite (grammar_defined st1 g Hres), Hsource.
  destruct (resolver_createNavigator g None) as [[navigator|]|] eqn:En.
  - exfalso. apply (Hnav navigator). reflexivity.
  - repeat split; reflexivity.
  - repeat split. discriminate.
Qed.
End Queries.

(** ** Sweep reclamation *)

Section Reclamation.
Context `{Host} `{Files} `{Compiler} `{Analysis}.
Variable subscribers : DocumentManager -> DocumentManager.
Hypothesis subscribers_consistent :
  forall st, consistent None st -> consistent None (subscribers st).

(** The document under watch and its name. *)
Variable name : string.
Variable document : ref.

Lemma held_ext st st' :
  heap st' = heap st -> _documents st' = _documents st -> held name document st -> held name document st'.
Proof.
  intros Hh Hd [Hl Hc]. unfold held, obj. rewrite Hh, Hd. split; assumption.
Qed.

Lemma all_elem st a k : _documents st !! k = Some a -> a ∈ all st.
Proof.
  intros Hk. unfold all. apply list_elem_of_fmap.
  exists (k, a). split; [reflexivity|]. apply elem_of_map_to_list, Hk.
Qed.

(** *** The first loop *)

Lemma markRoots_frame documents st :
  _documents (markRoots documents st).2 = _documents st /\
  List.length (heap (markRoots documents st).2) = List.length (heap st) /\
  forall a, isOpenOnClient (obj (markRoots documents st).2 a)
            = isOpenOnClient (obj st a).
Proof.
  revert st. induction documents as [|b rest IH]; intros st; [auto|].
  simpl. destruct (isOpenOnClient (obj st b)).
  - specialize (IH (update b (set_marked true) st)).
    destruct (markRoots rest _) as [names st']. cbn [fst snd] in *.
    destruct IH as (Hd & Hl & Hc). rewrite length_heap_update in Hl.
    repeat split; try assumption.
    intros a. rewrite Hc. apply (obj_update_field isOpenOnClient). reflexivity.
  - destruct (IH (update b (set_marked false) st)) as (Hd & Hl & Hc).
    rewrite length_heap_update in Hl.
    repeat split; try assumption.
    intros a. rewrite Hc. apply (obj_update_field isOpenOnClient). reflexivity.
Qed.

Lemma markRoots_keeps_unmarked documents st a :
  isOpenOnClient (obj st a) = false -> marked (obj st a) = false ->
  marked (obj (markRoots documents st).2 a) = false.
Proof.
  revert st. induction documents as [|b rest IH]; intros st Hc Hm; [exact Hm|].
  simpl. destruct (isOpenOnClient (obj st b)) eqn:Hb.
  - assert (b <> a) as Hne by (intros ->; congruence).
    specialize (IH (update b (set_marked true) st)).
    destruct (markRoots rest _) as [names st']. cbn [fst snd] in *.
    apply IH; rewrite obj_update_ne by exact Hne; assumption.
  - apply IH.
    + rewrite (obj_update_field isOpenOnClient) by reflexivity. exact Hc.
    + rewrite obj_update. case_decide; [reflexivity | exact Hm].
Qed.

Lemma markRoots_unmarks documents st a :
  a ∈ documents -> (a < List.length (heap st))%nat ->
  isOpenOnClient (obj st a) = false ->
  marked (obj (markRoots documents st).2 a) = false.
Proof.
  revert st. induction documents as [|b rest IH]; intros st Hin Hlt Hc.
  { apply elem_of_nil in Hin. contradiction. }
  destruct (decide (b = a)) as [->|Hne].
  - simpl. rewrite Hc. apply markRoots_keeps_unmarked.
    + rewrite (obj_update_field isOpenOnClient) by reflexivity. exact Hc.
    + rewrite obj_update_eq by exact Hlt. reflexivity.
  - apply elem_of_cons in Hin as [->|Hin]; [contradiction|].
    simpl. destruct (isOpenOnClient (obj st b)).
    + specialize (IH (update b (set_marked true) st) Hin).
      destruct (markRoots rest _) as [names st']. cbn [fst snd] in *.
      apply IH; [rewrite length_heap_update; exact Hlt|].
      rewrite obj_update_ne by exact Hne. exact Hc.
    + apply IH; [exact Hin | rewrite length_heap_update; exact Hlt|].
      rewrite obj_update_ne by exact Hne. exact Hc.
Qed.

(** *** The compiler's reads *)

Lemma readFile_other other st :
  consistent None st -> other <> name -> unmarked name document st ->
  unmarked name document (readFile other st).2.
Proof.
  intros Hc Hne [[Hl Hcl] Hm]. unfold readFile, getDocument.
  assert (document < List.length (heap st))%nat as Hlt
    by (destruct Hc as [K _ _]; apply (K _ _ Hl)).
  destruct (_documents st !! other) as [b|] eqn:E.
  - assert (b <> document) as Hb.
    { intros ->. destruct Hc as [K _ _].
      destruct (K _ _ E) as [_ H3]. destruct (K _ _ Hl) as [_ H4]. congruence. }
    simpl. unfold unmarked, held. rewrite documents_update.
    rewrite !obj_update_ne by exact Hb. auto.
  - destruct (host_readFile other) as [contents|];
      [|split; [split|]; assumption].
    set (b := List.length (heap st)).
    assert (b <> document) as Hb by (unfold b; lia).
    assert (obj (createDocument other st).2 document = obj st document) as Hobj.
    { unfold obj, createDocument; simpl.
      rewrite !list_lookup_total_alt, lookup_app_l by exact Hlt. reflexivity. }
    assert (_documents (createDocument other st).2 !! name = Some document) as Hdoc.
    { unfold createDocument; simpl. rewrite lookup_insert_ne by exact Hne. exact Hl. }
    change (unmarked name document (update b (set_marked true)
              (openDocumentOnServer b
                 (update b (set_text contents) (createDocument other st).2)))).
    unfold unmarked, held. rewrite documents_update.
    rewrite obj_update_ne by exact Hb.
    unfold openDocumentOnServer.
    destruct (negb _); rewrite ?documents_update, ?obj_update_ne by exact Hb;
      rewrite Hobj; auto.
Qed.

Lemma deliver_other reads st :
  consistent None st -> name ∉ reads -> unmarked name document st ->
  unmarked name document (deliver reads st).2.
Proof.
  revert st. induction reads as [|other rest IH]; intros st Hc Hnot Hu; [exact Hu|].
  apply not_elem_of_cons in Hnot as [Hne Hnot].
  simpl. pose proof (readFile_consistent other st Hc) as Hc'.
  pose proof (readFile_other other st Hc (not_eq_sym Hne) Hu) as Hu'.
  destruct (readFile other st) as [contents st1]. simpl in Hc', Hu'.
  specialize (IH st1 Hc' Hnot Hu').
  destruct (deliver rest st1) as [delivered st2]. exact IH.
Qed.

(** *** What a rebuild keeps *)

Lemma readFile_lookup other st k a :
  _documents st !! k = Some a -> _documents (readFile other st).2 !! k = Some a.
Proof.
  intros Hk. unfold readFile, getDocument.
  destruct (_documents st !! other) as [b|] eqn:E; [exact Hk|].
  destruct (host_readFile other) as [contents|]; [|exact Hk].
  assert (other <> k) as Hne by (intros ->; congruence).
  change (_documents
            (update (createDocument other st).1 (set_marked true)
               (openDocumentOnServer (createDocument other st).1
                  (update (createDocument other st).1 (set_text contents)
                     (createDocument other st).2))) !! k = Some a).
  rewrite documents_update. unfold openDocumentOnServer.
  destruct (negb _); rewrite ?documents_update; unfold createDocument; simpl;
    rewrite lookup_insert_ne by exact Hne; exact Hk.
Qed.

Lemma deliver_lookup reads st k a :
  _documents st !! k = Some a -> _documents (deliver reads st).2 !! k = Some a.
Proof.
  revert st. induction reads as [|other rest IH]; intros st Hk; [exact Hk|].
  simpl. pose proof (readFile_lookup other st k a Hk) as Hk'.
  destruct (readFile other st) as [answer st1]. simpl in Hk'.
  specialize (IH st1 Hk'). destruct (deliver rest st1) as [delivered st2]. exact IH.
Qed.

(** A rebuild, before its sweep, takes nothing out of the registry. *)
Lemma rebuild_lookup st k a :
  _documents st !! k = Some a -> _documents (rebuild st) !! k = Some a.
Proof.
  intros Hk. unfold rebuild.
  destruct (markRoots_frame (all st) st) as (Hd & _).
  destruct (markRoots (all st) st) as [names st1]. simpl in Hd.
  cbv zeta.
  match goal with |- context [deliver ?r ?s] =>
    pose proof (deliver_lookup r s k a) as Hdel;
    destruct (deliver r s) as [delivered st2] end.
  simpl in *. apply Hdel. rewrite Hd. exact Hk.
Qed.

(** *** The second loop *)

Lemma obj_closeDocument k st a : obj (closeDocument k st).2 a = obj st a.
Proof. reflexivity. Qed.

Lemma documents_closeDocument k st :
  _documents (closeDocument k st).2 = delete k (_documents st).
Proof. reflexivity. Qed.

Lemma closeDocumentOnServer_gone a st :
  gone name st -> gone name (closeDocumentOnServer a st).2.
Proof.
  unfold gone, closeDocumentOnServer. intros Hg.
  destruct (isOpenOnServer _); [|exact Hg].
  destruct (negb _); simpl; [|exact Hg].
  apply lookup_delete_None. right. exact Hg.
Qed.

Lemma closeDocumentOnServer_unmarked a k st :
  consistent None st -> _documents st !! k = Some a -> unmarked name document st ->
  (k = name -> gone name (closeDocumentOnServer a st).2) /\
  (unmarked name document (closeDocumentOnServer a st).2 \/ gone name (closeDocumentOnServer a st).2).
Proof.
  intros Hc Hk [[Hl Hcl] Hm].
  destruct Hc as [K R G].
  destruct (K _ _ Hk) as [Hlt Hname].
  destruct (K _ _ Hl) as [Hltd Hnamed].
  unfold closeDocumentOnServer.
  destruct (decide (a = document)) as [->|Hne].
  - (* the document under watch itself *)
    assert (isOpenOnServer (obj st document) = true) as Hs.
    { destruct (G document) as [Href|Hp]; [|unfold referenced in Href | discriminate].
      - unfold registered. rewrite Hnamed. exact Hl.
      - rewrite Hcl in Href. exact Href. }
    rewrite Hs. rewrite (obj_update_field isOpenOnClient) by reflexivity.
    rewrite Hcl. cbn [negb].
    rewrite (obj_update_field filename) by reflexivity. rewrite Hnamed.
    assert (gone name (closeDocument name
              (update document (set_isOpenOnServer false) st)).2) as Hgone
      by (unfold gone; simpl; apply lookup_delete_eq).
    split; [intros _; exact Hgone | right; exact Hgone].
  - (* another document *)
    assert (k <> name) as Hkn by (intros ->; congruence).
    split; [intros Heq; contradiction|]. left.
    destruct (isOpenOnServer (obj st a)); [|split; [split|]; assumption].
    rewrite (obj_update_field isOpenOnClient) by reflexivity.
    rewrite (obj_update_field filename) by reflexivity. rewrite Hname.
    destruct (negb (isOpenOnClient (obj st a))); cbn [snd]; unfold unmarked, held;
      rewrite ?obj_closeDocument, ?documents_closeDocument, ?documents_update;
      rewrite ?lookup_delete_ne by exact Hkn;
      rewrite !obj_update_ne by exact Hne; auto.
Qed.

Lemma close_gone id st :
  _updating st = true -> gone name st -> gone name (close subscribers id st).
Proof.
  intros Hu Hg. pose proof (close_updating subscribers id st Hu) as Hc.
  destruct (getDocument (normalizeFilename id) st) as [a|].
  - destruct Hc as (_ & Hd & _). unfold gone. rewrite Hd.
    apply closeDocumentOnServer_gone, Hg.
  - rewrite Hc. exact Hg.
Qed.

Lemma close_unmarked id st :
  consistent None st -> _updating st = true -> unmarked name document st ->
  (normalizeFilename id = name -> gone name (close subscribers id st)) /\
  (unmarked name document (close subscribers id st) \/ gone name (close subscribers id st)).
Proof.
  intros Hc Hu Hun. pose proof (close_updating subscribers id st Hu) as Hcl.
  unfold getDocument in Hcl.
  destruct (_documents st !! normalizeFilename id) as [a|] eqn:E.
  - destruct Hcl as (Hh & Hd & _).
    destruct (closeDocumentOnServer_unmarked a _ st Hc E Hun) as [Hgone Hor].
    split.
    + intros Heq. unfold gone. rewrite Hd. apply Hgone, Heq.
    + destruct Hor as [[[Hl Hcli] Hm]|Hg].
      * left. unfold unmarked, held, obj. rewrite Hh, Hd. auto.
      * right. unfold gone. rewrite Hd. exact Hg.
  - rewrite Hcl. split; [|left; exact Hun].
    intros Heq. destruct Hun as [[Hl _] _]. rewrite Heq in E. congruence.
Qed.

Lemma sweep_gone documents st :
  _updating st = true -> gone name st -> gone name (sweep subscribers documents st).
Proof.
  revert st. induction documents as [|b rest IH]; intros st Hu Hg; [exact Hg|].
  simpl. destruct (negb (marked (obj st b)) && negb (isOpenOnClient (obj st b))).
  - apply IH; [apply close_updating_fields, Hu | apply close_gone; assumption].
  - apply IH; assumption.
Qed.

(** [close] deletes the key its argument normalizes to, and no other. *)
Lemma closeDocumentOnServer_other a k st :
  consistent None st -> _documents st !! k = Some a -> k <> name ->
  _documents (closeDocumentOnServer a st).2 !! name = _documents st !! name.
Proof.
  intros Hc Hk Hne. destruct Hc as [K _ _]. destruct (K _ _ Hk) as [_ Hname].
  unfold closeDocumentOnServer.
  destruct (isOpenOnServer (obj st a)); [|reflexivity].
  rewrite (obj_update_field isOpenOnClient) by reflexivity.
  rewrite (obj_update_field filename) by reflexivity. rewrite Hname.
  destruct (negb (isOpenOnClient (obj st a))); cbn [snd];
    rewrite ?documents_closeDocument, ?documents_update;
    rewrite ?lookup_delete_ne by exact Hne; reflexivity.
Qed.

Lemma close_other id st :
  consistent None st -> _updating st = true -> normalizeFilename id <> name ->
  _documents (close subscribers id st) !! name = _documents st !! name.
Proof.
  intros Hc Hu Hne. pose proof (close_updating subscribers id st Hu) as Hcl.
  unfold getDocument in Hcl.
  destruct (_documents st !! normalizeFilename id) as [a|] eqn:E.
  - destruct Hcl as (_ & Hd & _). rewrite Hd.
    apply (closeDocumentOnServer_other a (normalizeFilename id)); assumption.
  - rewrite Hcl. reflexivity.
Qed.

Lemma sweep_other documents st :
  (forall path, normalizeFilename (Path path) <> name) ->
  consistent None st -> _updating st = true ->
  _documents (sweep subscribers documents st) !! name = _documents st !! name.
Proof.
  intros Hraw. revert st.
  induction documents as [|b rest IH]; intros st Hc Hu; [reflexivity|].
  simpl. destruct (negb (marked (obj st b)) && negb (isOpenOnClient (obj st b))).
  - rewrite IH.
    + apply close_other; [exact Hc | exact Hu | apply Hraw].
    + apply close_consistent; assumption.
    + apply close_updating_fields, Hu.
  - apply IH; assumption.
Qed.

(** A rebuild and its sweep leave in the registry a document whose name no
    path normalizes to: the sweep closes by [document.filename] through
    [close], which looks the document up under the normalized name. *)
Lemma refreshGrammar_keeps st a :
  (forall path, normalizeFilename (Path path) <> name) ->
  consistent None st -> _documents st !! name = Some a ->
  _documents (refreshGrammar subscribers st) !! name = Some a.
Proof.
  intros Hraw Hc Hl. unfold refreshGrammar.
  set (st0 := with_updating true st).
  assert (consistent None st0) as Hc0 by (apply consistent_with_updating, Hc).
  change (_documents (sweep subscribers (all (rebuild st0)) (rebuild st0)) !! name
          = Some a).
  rewrite sweep_other;
    [apply rebuild_lookup; exact Hl | exact Hraw | apply rebuild_consistent, Hc0 |].
  destruct (rebuild_fields st0) as (_ & Hu & _). rewrite Hu. reflexivity.
Qed.

Hypothesis name_canonical : normalizeFilename (Path name) = name.

Lemma sweep_unmarked documents st :
  consistent None st -> _updating st = true -> unmarked name document st ->
  document ∈ documents -> gone name (sweep subscribers documents st).
Proof.
  revert st. induction documents as [|b rest IH]; intros st Hc Hu Hun Hin.
  { apply elem_of_nil in Hin. contradiction. }
  simpl. destruct (decide (b = document)) as [->|Hne].
  - destruct Hun as [[Hl Hcl] Hm]. rewrite Hm, Hcl. simpl.
    assert (filename (obj st document) = name) as ->
      by (destruct Hc as [K _ _]; apply (K _ _ Hl)).
    apply sweep_gone; [apply close_updating_fields, Hu|].
    apply close_unmarked; [exact Hc | exact Hu | | exact name_canonical].
    split; [split|]; assumption.
  - apply elem_of_cons in Hin as [->|Hin]; [contradiction|].
    destruct (negb (marked (obj st b)) && negb (isOpenOnClient (obj st b)));
      [|apply IH; assumption].
    destruct (close_unmarked (Path (filename (obj st b))) st Hc Hu Hun)
      as [_ [Hun'|Hg]].
    + apply IH; [apply close_consistent | apply close_updating_fields | |];
        assumption.
    + apply sweep_gone; [apply close_updating_fields, Hu | exact Hg].
Qed.

Lemma refreshGrammar_reclaims st :
  consistent None st -> held name document st -> name ∉ rebuildReads st ->
  gone name (refreshGrammar subscribers st).
Proof.
  intros Hc [Hl Hcl] Hnot. unfold refreshGrammar.
  set (st0 := with_updating true st).
  assert (consistent None st0) as Hc0 by (apply consistent_with_updating, Hc).
  assert (gone name (sweep subscribers (all (rebuild st0)) (rebuild st0))) as Hg;
    [|exact Hg].
  assert (unmarked name document (rebuild st0) /\ consistent None (rebuild st0) /\
          _updating (rebuild st0) = true) as (Hun & Hcr & Hur).
  { split; [|split; [apply rebuild_consistent, Hc0 | apply rebuild_fields]].
    unfold rebuild. unfold rebuildReads in Hnot. fold st0 in Hnot.
    pose proof (markRoots_frame (all st0) st0) as (Hd & Hlen & Hcli).
    pose proof (markRoots_unmarks (all st0) st0 document) as Hmark.
    pose proof (markRoots_consistent (all st0) st0 Hc0) as Hcm.
    destruct (markRoots (all st0) st0) as [names st1]. cbn [fst snd] in *.
    assert (unmarked name document (with_rootNames (Some names) st1)) as Hun1.
    { split; [split|]; simpl.
      - rewrite Hd. exact Hl.
      - change (isOpenOnClient (obj st1 document) = false). rewrite Hcli. exact Hcl.
      - apply Hmark; [apply (all_elem st0 _ name), Hl | | exact Hcl].
        destruct Hc as [K _ _]. apply (K _ _ Hl). }
    match type of Hnot with name ∉ ?r =>
      pose proof (deliver_other r (with_rootNames (Some names) st1)
                    (consistent_with_rootNames _ _ _ Hcm) Hnot Hun1) as Hdel;
      destruct (deliver r (with_rootNames (Some names) st1)) as [delivered st2] end.
    exact Hdel. }
  apply sweep_unmarked; try assumption.
  destruct Hun as [[Hl' _] _]. apply (all_elem _ _ name), Hl'.
Qed.
End Reclamation.

Lemma reachable_run `{Host} `{Files} `{Compiler} `{Analysis} ops st :
  reachable st -> reachable (run ops st).
Proof.
  revert st. induction ops as [|op ops IH]; intros st Hst; [exact Hst|].
  simpl. apply IH, reachable_step, Hst.
Qed.

(** C5.  A document that the registry holds without it being open on the
    client (it was opened on the server side, by the read-callback of an
    earlier rebuild) and that the compiler does not ask for during a
    rebuild is open on the server, and that rebuild's sweep takes it out of
    the registry if its name is the identity it normalizes to.  If no path
    normalizes to its name, as for a name with a capital letter on a host
    that folds case, the sweep misses it: the read-callback registered it
    under the name the compiler gave, [close] looks under the normalized
    one, and the document is still in the registry when the rebuild
    ends. *)
Theorem sweep_reclamation `{Host} `{Files} `{Compiler} `{Analysis}
    (ops : list Operation) (name : string) (document : ref) :
  let st := run ops newDocumentManager in
  _documents st !! name = Some document ->
  isOpenOnClient (obj st document) = false ->
  name ∉ rebuildReads st ->
  isOpenOnServer (obj st document) = true /\
  (normalizeFilename (Path name) = name ->
   _documents (refreshGrammar subscribers st) !! name = None) /\
  ((forall path, normalizeFilename (Path path) <> name) ->
   _documents (refreshGrammar subscribers st) !! name = Some document).
Proof.
  intros st Hl Hcl Hnot.
  assert (consistent None st) as Hc
    by (apply reachable_consistent, reachable_run, reachable_new).
  split; [|split].
  - destruct Hc as [K _ G]. destruct (K _ _ Hl) as [_ Hname].
    destruct (G document) as [Href|Hp]; [| |discriminate].
    + unfold registered. rewrite Hname. exact Hl.
    + unfold referenced in Href. rewrite Hcl in Href. exact Href.
  - intros Hcanon.
    apply (refreshGrammar_reclaims subscribers subscribers_consistent name document);
      [exact Hcanon | exact Hc | split; assumption | exact Hnot].
  - intros Hraw.
    apply (refreshGrammar_keeps subscribers subscribers_consistent name);
      assumption.
Qed.

(** ** Between operations no report is in progress *)

Section TopLevel.
Context `{Host} `{Files} `{Compiler} `{Analysis}.
Variable subscribers : DocumentManager -> DocumentManager.

Lemma reportUpdate_keeps_updating st :
  _updating (reportUpdate subscribers st) = _updating st.
Proof. unfold reportUpdate. destruct (_updating st) eqn:E; simpl; congruence. Qed.

Lemma requestUpdate_keeps_updating st :
  _updating (requestUpdate subscribers st) = _updating st.
Proof.
  unfold requestUpdate. destruct (0 <? _updateSuspended st)%nat; [reflexivity|].
  apply reportUpdate_keeps_updating.
Qed.

Lemma open_keeps_updating id st :
  _updating (open subscribers id st).2 = _updating st.
Proof.
  unfold open. destruct (host_readFile (normalizeFilename id)) as [contents|];
    [|reflexivity].
  pose proof (control_getOrCreateDocument (normalizeFilename id) st) as Hctl.
  destruct (getOrCreateDocument (normalizeFilename id) st) as [[created a] st1].
  apply control_fields in Hctl as (_ & _ & _ & _ & Hu & _). simpl in Hu.
  cbv zeta. cbn [snd].
  set (st2 := openDocumentOnServer a _).
  assert (_updating st2 = _updating st1) as Hu2
    by (apply (control_fields st1 st2); unfold st2;
        rewrite control_openDocumentOnServer; reflexivity).
  repeat match goal with |- context [if ?b then _ else _] => destruct b end;
    rewrite ?requestUpdate_keeps_updating; simpl; congruence.
Qed.

Lemma close_keeps_updating id st :
  _updating (close subscribers id st) = _updating st.
Proof.
  unfold close. destruct (getDocument (normalizeFilename id) st) as [a|];
    [|reflexivity].
  pose proof (control_closeDocumentOnServer a st) as Hctl.
  destruct (closeDocumentOnServer a st) as [removed st1].
  apply control_fields in Hctl as (_ & _ & _ & _ & Hu & _). simpl in Hu.
  repeat match goal with |- context [if ?b then _ else _] => destruct b end;
    rewrite ?requestUpdate_keeps_updating; simpl; congruence.
Qed.

Lemma handleOpenClientDocument_keeps_updating uri' contents st :
  _updating (handleOpenClientDocument subscribers uri' contents st) = _updating st.
Proof.
  unfold handleOpenClientDocument. set (name := normalizeFilename _).
  pose proof (control_getOrCreateDocument name st) as Hctl.
  destruct (getOrCreateDocument name st) as [[created a] st1].
  apply control_fields in Hctl as (_ & _ & _ & _ & Hu & _). simpl in Hu.
  cbv zeta.
  set (st2 := openDocumentOnClient a _).
  assert (_updating st2 = _updating st1) as Hu2
    by (apply (control_fields st1 st2); unfold st2;
        rewrite control_openDocumentOnClient; reflexivity).
  repeat match goal with |- context [if ?b then _ else _] => destruct b end;
    rewrite ?requestUpdate_keeps_updating; simpl; congruence.
Qed.

Lemma handleCloseClientDocument_keeps_updating uri' st :
  _updating (handleCloseClientDocument subscribers uri' st) = _updating st.
Proof.
  unfold handleCloseClientDocument. set (name := normalizeFilename _).
  destruct (getDocument name st) as [a|]; [|reflexivity].
  pose proof (control_closeDocumentOnClient a st) as Hctl.
  destruct (closeDocumentOnClient a st) as [removed st1].
  apply control_fields in Hctl as (_ & _ & _ & _ & Hu & _). simpl in Hu.
  repeat match goal with |- context [if ?b then _ else _] => destruct b end;
    rewrite ?requestUpdate_keeps_updating; simpl; congruence.
Qed.

Lemma resumeUpdates_keeps_updating st :
  _updating (resumeUpdates subscribers st) = _updating st.
Proof.
  unfold resumeUpdates.
  repeat match goal with |- context [if ?b then _ else _] => destruct b end;
    rewrite ?reportUpdate_keeps_updating; reflexivity.
Qed.

Lemma rootNames_keeps_updating st :
  _updating (rootNames subscribers st).2 = _updating st.
Proof.
  unfold rootNames. cbn [snd].
  destruct (_rootNames st); [reflexivity | apply refreshGrammar_fields].
Qed.

Lemma query_keeps_updating id st :
  _updating (getSourceFile subscribers id (grammar subscribers st).2).2
  = _updating st.
Proof.
  destruct (getSourceFile_fields subscribers id (grammar subscribers st).2) as [-> _].
  apply grammar_fields.
Qed.

Lemma onDefinition_state uri' position st :
  (onDefinition subscribers uri' position st).2
  = (getSourceFile subscribers (TextDocumentIdentifier uri')
       (grammar subscribers st).2).2.
Proof.
  unfold onDefinition. destruct (grammar subscribers st) as [g st1]. cbn [snd].
  destruct (getSourceFile subscribers _ st1) as [sourceFile st2]. cbn [snd].
  destruct sourceFile as [sourceFile|], g as [g|]; try reflexivity.
  destruct (resolver_createNavigator g sourceFile) as [[navigator|]|]; try reflexivity.
  destruct (navigator_moveToPosition navigator position). reflexivity.
Qed.

Lemma onReferences_state uri' position st :
  (onReferences subscribers uri' position st).2
  = (getSourceFile subscribers (TextDocumentIdentifier uri')
       (grammar subscribers st).2).2.
Proof.
  unfold onReferences. destruct (grammar subscribers st) as [g st1]. cbn [snd].
  destruct (getSourceFile subscribers _ st1) as [sourceFile st2]. cbn [snd].
  destruct sourceFile as [sourceFile|], g as [g|]; try reflexivity.
  destruct (resolver_createNavigator g sourceFile) as [[navigator|]|]; try reflexivity.
  destruct (navigator_moveToPosition navigator position). reflexivity.
Qed.

Lemma onRenameRequest_state id position newName' st :
  (onRenameRequest subscribers id position newName' st).2
  = (getSourceFile subscribers id (grammar subscribers st).2).2.
Proof.
  unfold onRenameRequest. destruct (grammar subscribers st) as [g st1]. cbn [snd].
  destruct (getSourceFile subscribers _ st1) as [sourceFile st2]. cbn [snd].
  destruct sourceFile as [sourceFile|], g as [g|]; try reflexivity.
  destruct (resolver_createNavigator g sourceFile) as [[navigator|]|]; try reflexivity.
  destruct (navigator_moveToPosition navigator position) as [moved navigator'].
  destruct (moved && navigator_isIdentifier navigator'); [|reflexivity].
  destruct (getLocationsOfNodes _ _); reflexivity.
Qed.
End TopLevel.

Lemma perform_keeps_updating `{Host} `{Files} `{Compiler} `{Analysis} op st :
  _updating (perform op st) = _updating st.
Proof.
  destruct op as [id|id| | | | |id|u contents|u contentChanges|u|name|u p|u p|id p n];
    simpl.
  - apply open_keeps_updating.
  - apply close_keeps_updating.
  - reflexivity.
  - apply resumeUpdates_keeps_updating.
  - apply rootNames_keeps_updating.
  - apply grammar_fields.
  - apply getSourceFile_fields.
  - apply handleOpenClientDocument_keeps_updating.
  - unfold handleUpdateClientDocument.
    destruct (last contentChanges) as [contents|]; [|reflexivity].
    apply (handleOpenClientDocument_keeps_updating subscribers u contents st).
  - apply handleCloseClientDocument_keeps_updating.
  - apply (control_fields st (readFile name st).2), control_readFile.
  - rewrite onDefinition_state. apply query_keeps_updating.
  - rewrite onReferences_state. apply query_keeps_updating.
  - rewrite onRenameRequest_state. apply query_keeps_updating.
Qed.

Lemma run_not_updating `{Host} `{Files} `{Compiler} `{Analysis} ops :
  _updating (run ops newDocumentManager) = false.
Proof.
  assert (forall l st, _updating (run l st) = _updating st) as Hrun.
  { induction l as [|op l IH]; intros st; [reflexivity|].
    simpl. rewrite IH. apply perform_keeps_updating. }
  rewrite Hrun. reflexivity.
Qed.

(** C4.  From any state between operations in which the suspension counter
    is zero: suspend, then one or more operations that each change content,
    then resume.  No report fires before the resume, and the resume, which
    brings the counter back to zero, fires exactly one. *)
Theorem suspended_changes_one_report `{Host} `{Files} `{Compiler} `{Analysis}
    (before ops : list Operation) :
  let st := run before newDocumentManager in
  _updateSuspended st = 0%nat ->
  ops <> [] ->
  contentChanges ops (suspendUpdates st) = true ->
  let suspended := run ops (suspendUpdates st) in
  let resumed := resumeUpdates subscribers suspended in
  reports (events suspended) = reports (events st) /\
  _updateSuspended resumed = 0%nat /\
  reports (events resumed) = S (reports (events st)).
Proof.
  intros st Hs Hne Hc.
  apply (batching_from st ops); [apply run_not_updating | exact Hs | exact Hne | exact Hc].
Qed.

(** ** The properties at work in the small workspace *)

Section Examples.
#[local] Existing Instances example_host example_files example_compiler example_analysis.

Example normalizeUri_relative :
  normalizeUri (Path "src/a b.grammar") = "file:///src/a%20b.grammar".
Proof. reflexivity. Qed.

Example normalizeUri_absolute :
  normalizeUri (Path "/home/u/x.grammar") = "file:///home/u/x.grammar".
Proof. reflexivity. Qed.

Example normalizeUri_windows :
  normalizeUri (Path "C:\work\x.grammar") = "file:///C%3A/work/x.grammar".
Proof. reflexivity. Qed.

(** The client closes [a.grammar]: both documents lose their last flag in
    that operation and are out of the registry when it ends. *)
Lemma registry_membership_invariant_witness :
  registry_invariant example_opened /\
  referenced (obj (perform (HandleCloseClientDocument example_a) example_opened) 1)
    = false /\
  ~ registered (perform (HandleCloseClientDocument example_a) example_opened) 1.
Proof.
  destruct (registry_membership_invariant
              [HandleOpenClientDocument example_a "@import b"]) as [Hinv Hout].
  split; [exact Hinv|].
  split; [vm_compute; reflexivity|].
  apply (Hout (HandleCloseClientDocument example_a) 1%nat).
  - vm_compute. lia.
  - vm_compute. reflexivity.
Defined.

Lemma requestUpdate_reentrant_witness :
  _updating example_reporting = true /\
  _updateSuspended example_reporting = 0%nat /\
  requestUpdate subscribers example_reporting = example_reporting.
Proof.
  split; [reflexivity|]. split; [reflexivity|].
  apply (requestUpdate_reentrant subscribers example_reporting); reflexivity.
Defined.

(** C2, as stated, fails.  A request made in [example_reporting] is not
    recorded as pending.  And in the report of the edit that removes the
    import, the sweep closes [b.grammar]; the request that [close] makes
    after [DidClose] is made while that report is in progress: no report
    follows it in the trace, and nothing is pending when the edit ends. *)
Lemma reentrant_request_not_pending :
  (_updating example_reporting = true /\
   _updateSuspended example_reporting = 0%nat /\
   _updateRequested (requestUpdate subscribers example_reporting) = false) /\
  (events example_edited =
     events example_opened ++ [DidChangeContent 0; DidUpdate; DidClose 1] /\
   _updateRequested example_edited = false /\
   _updating example_edited = false /\
   resumeUpdates subscribers example_edited = example_edited).
Proof.
  split; [repeat split|]; vm_compute; repeat split.
Qed.

Lemma close_open_on_both_sides_witness :
  isOpenOnClient (obj example_both 1) = true /\
  isOpenOnServer (obj example_both 1) = true /\
  isOpenOnServer (obj (close subscribers (Path "b.grammar") example_both) 1) = false /\
  getDocument (normalizeFilename (Path "b.grammar"))
    (close subscribers (Path "b.grammar") example_both) = Some 1%nat /\
  events (close subscribers (Path "b.grammar") example_both) = events example_both.
Proof.
  split; [vm_compute; reflexivity|]. split; [vm_compute; reflexivity|].
  apply (close_open_on_both_sides subscribers (Path "b.grammar") example_both 1%nat).
  - vm_compute. reflexivity.
  - vm_compute. lia.
  - vm_compute. reflexivity.
  - vm_compute. reflexivity.
Defined.

(** Three content changes while suspended, one report on resume. *)
Lemma suspended_changes_one_report_witness :
  let before := [HandleOpenClientDocument example_b "B ::= b"] in
  let ops := [HandleOpenClientDocument example_a "@import b";
              HandleUpdateClientDocument example_a ["A"; "A ::= a"];
              Open (Path "x.grammar")] in
  let st := run before newDocumentManager in
  let suspended := run ops (suspendUpdates st) in
  reports (events st) = 1%nat /\
  reports (events suspended) = reports (events st) /\
  _updateSuspended (resumeUpdates subscribers suspended) = 0%nat /\
  reports (events (resumeUpdates subscribers suspended)) = S (reports (events st)).
Proof.
  intros before ops st suspended.
  split; [vm_compute; reflexivity|].
  apply (suspended_changes_one_report before ops).
  - vm_compute. reflexivity.
  - discriminate.
  - vm_compute. reflexivity.
Defined.

Lemma lower_not_capital c : lower c <> "B"%char.
Proof. destruct c as [[] [] [] [] [] [] [] []]; vm_compute; discriminate. Qed.

(** On the host that folds case no path normalizes to [/ws/B.grammar]. *)
Lemma example_folding_raw path :
  @normalizeFilename example_folding_host example_files (Path path)
  <> "/ws/B.grammar".
Proof.
  unfold normalizeFilename. simpl.
  destruct (if beginsWithSlash path then path else "/ws/" +:+ path)
    as [|c0 [|c1 [|c2 [|c3 [|c4 rest]]]]]; try discriminate.
  simpl. intros [= _ _ _ _ Hc _]. exact (lower_not_capital _ Hc).
Qed.

(** [b.grammar], under its identity, is reclaimed; on the host that folds
    case [/ws/B.grammar], which the read-callback registered under the name
    the compiler gave, is open on the server only, is not read again, and
    stays. *)
Lemma sweep_reclamation_witness :
  (_documents example_stale !! "/ws/b.grammar" = Some 1%nat /\
   isOpenOnServer (obj example_stale 1) = true /\
   _documents (refreshGrammar subscribers example_stale) !! "/ws/b.grammar" = None) /\
  (_documents example_folded !! "/ws/B.grammar" = Some 1%nat /\
   isOpenOnClient (obj example_folded 1) = false /\
   isOpenOnServer (obj example_folded 1) = true /\
   _documents example_folded_rebuilt !! "/ws/B.grammar" = Some 1%nat).
Proof.
  split.
  - split; [vm_compute; reflexivity|].
    destruct (sweep_reclamation example_stale_ops "/ws/b.grammar" 1%nat)
      as (Hserver & Hgone & _).
    + vm_compute. reflexivity.
    + vm_compute. reflexivity.
    + apply (bool_decide_unpack _). vm_compute. exact I.
    + split; [exact Hserver | apply Hgone; vm_compute; reflexivity].
  - destruct (@sweep_reclamation example_folding_host example_files
                example_folding_compiler example_analysis
                example_folded_ops "/ws/B.grammar" 1%nat)
      as (Hserver & _ & Hkept).
    + vm_compute. reflexivity.
    + vm_compute. reflexivity.
    + apply (bool_decide_unpack _). vm_compute. exact I.
    + split; [vm_compute; reflexivity|]. split; [vm_compute; reflexivity|].
      split; [exact Hserver | exact (Hkept example_folding_raw)].
Defined.

(** A definition request on a fresh server, for a document nobody opened. *)
Lemma queries_on_untracked_document_witness :
  get (TextDocumentIdentifier "file:///ws/y.grammar") newDocumentManager = None /\
  (onDefinition subscribers "file:///ws/y.grammar" (mkPosition 0 0)
     newDocumentManager).1 = Fault /\
  (onReferences subscribers "file:///ws/y.grammar" (mkPosition 0 0)
     newDocumentManager).1 = Fault /\
  (onRenameRequest subscribers (TextDocumentIdentifier "file:///ws/y.grammar")
     (mkPosition 0 0) "Z" newDocumentManager).1 = Value None.
Proof.
  split; [vm_compute; reflexivity|].
  destruct (queries_on_untracked_document subscribers "file:///ws/y.grammar"
              (mkPosition 0 0) "Z" newDocumentManager (NewGrammar [] None []))
    as (Hdef & Href & Hren).
  - vm_compute. reflexivity.
  - vm_compute. reflexivity.
  - intros navigator. vm_compute. discriminate.
  - split; [exact Hdef|]. split; [exact Href|]. apply Hren. reflexivity.
Defined.

(** [b.grammar] is held with the text it has on disk: [open] fires nothing.
    The client opens it with a text that is not on disk, twice: the second
    notification fires nothing and leaves the compilation state alone. *)
Lemma open_same_text_witness :
  let edited :=
    handleOpenClientDocument subscribers example_b "B ::= c" example_opened in
  text (obj example_opened 1) = Some "B ::= b" /\
  events (open subscribers (Path "b.grammar") example_opened).2
    = events example_opened /\
  host_readFile (normalizeFilename (TextDocumentIdentifier example_b))
    = Some "B ::= b" /\
  text (obj edited 1) = Some "B ::= c" /\
  events (handleOpenClientDocument subscribers example_b "B ::= c" edited)
    = events edited ++ [] /\
  _grammar (handleOpenClientDocument subscribers example_b "B ::= c" edited)
    = _grammar edited.
Proof.
  intros edited.
  split; [vm_compute; reflexivity|].
  destruct (open_same_text subscribers (Path "b.grammar") example_b "B ::= b"
              example_opened 1%nat)
    as (Hserver & _).
  - vm_compute. reflexivity.
  - vm_compute. reflexivity.
  - vm_compute. reflexivity.
  - destruct Hserver as (Hs & _); [vm_compute; reflexivity|].
    split; [rewrite Hs; vm_compute; reflexivity|].
    split; [vm_compute; reflexivity|].
    split; [vm_compute; reflexivity|].
    destruct (open_same_text subscribers (TextDocumentIdentifier example_b)
                example_b "B ::= c" edited 1%nat)
      as (_ & (Hc & Hg & _)).
    + vm_compute. reflexivity.
    + reflexivity.
    + vm_compute. reflexivity.
    + split; [|exact Hg]. rewrite Hc. vm_compute. reflexivity.
Defined.

(** C7, as stated, fails.  On a fresh manager [open] of [x.grammar] is
    followed by a report whose sweep closes the document again; the second
    [open] reads the same text from disk, creates a new document and fires
    what the first fired, the content-changed event and a report too. *)
Lemma second_open_changes_content :
  let first := open subscribers (Path "x.grammar") newDocumentManager in
  let second := open subscribers (Path "x.grammar") first.2 in
  host_readFile (normalizeFilename (Path "x.grammar")) = Some "X ::= x" /\
  first.1 = Some 0%nat /\
  second.1 = Some 1%nat /\
  events first.2 =
    [DidOpen 0; DidCloseOnServer 0; DidChangeContent 0; DidUpdate; DidClose 0] /\
  events second.2 =
    events first.2 ++
    [DidOpen 1; DidCloseOnServer 1; DidChangeContent 1; DidUpdate; DidClose 1].
Proof. vm_compute. repeat split. Qed.

Lemma example_host_canonical (p : string) :
  let q := host_normalizeFile (host_resolveFile p) in
  host_resolveFile q = q /\ host_normalizeFile q = q.
Proof.
  simpl. split; [|reflexivity].
  destruct (beginsWithSlash p) eqn:E; [rewrite E|]; reflexivity.
Defined.

Lemma normalizeFilename_idempotent_witness :
  normalizeFilename (Path "a.grammar") = "/ws/a.grammar" /\
  normalizeFilename (Path (normalizeFilename (Path "a.grammar")))
    = normalizeFilename (Path "a.grammar").
Proof.
  split; [reflexivity|].
  apply (normalizeFilename_idempotent example_host_canonical (Path "a.grammar")).
Defined.

Lemma grammar_undefined_after_sweep_witness :
  _grammar example_stale = None /\
  is_Some (_grammar (rebuild (with_updating true example_stale))) /\
  (grammar subscribers example_stale).1 = None /\
  _grammar (grammar subscribers example_stale).2 = None.
Proof.
  split; [vm_compute; reflexivity|].
  apply (grammar_undefined_after_sweep subscribers example_stale).
  - vm_compute. reflexivity.
  - exists "/ws/b.grammar". split.
    + vm_compute. eexists. reflexivity.
    + vm_compute. reflexivity.
Defined.
End Examples.

(** * Further properties of the code *)

(** ** The pieces of [normalizeUri] *)

Lemma split_cons_inv p : exists seg segs, split p = seg :: segs.
Proof.
  pose proof (split_not_nil p) as Hne.
  destruct (split p) as [|seg segs]; [contradiction|]. eauto.
Qed.

Lemma join_cons sep x y l : join sep (x :: y :: l) = x +:+ sep +:+ join sep (y :: l).
Proof. reflexivity. Qed.

Lemma join_String c seg segs :
  join "/" (String c seg :: segs) = String c (join "/" (seg :: segs)).
Proof. destruct segs; reflexivity. Qed.

Lemma slashes_of_segments p : join "/" (split p) = slashes p.
Proof.
  induction p as [|c rest IH]; [reflexivity|].
  simpl split. simpl slashes.
  destruct (split_cons_inv rest) as (seg & segs & Hs). rewrite Hs in *.
  destruct (isSeparator c).
  - rewrite join_cons, IH. reflexivity.
  - rewrite join_String, IH. reflexivity.
Qed.

(** X1.  Splitting a path and joining the segments with a slash gives the
    path back with its backslashes turned into slashes: the split loses
    nothing but which of the two separators stood there. *)
Theorem join_split (p : string) : join "/" (split p) = slashes p.
Proof. exact (slashes_of_segments p). Qed.

Lemma percentEncode_safe c : allChars isUriSafe (percentEncode c) = true.
Proof. destruct c as [[] [] [] [] [] [] [] []]; reflexivity. Qed.

Lemma allChars_app test s t :
  allChars test (s +:+ t) = allChars test s && allChars test t.
Proof.
  induction s as [|c s IH]; [reflexivity|].
  simpl. rewrite IH. apply andb_assoc.
Qed.

Lemma encoded_chars s : allChars isUriSafe (encodeURIComponent s) = true.
Proof.
  induction s as [|c s IH]; [reflexivity|].
  simpl encodeURIComponent. rewrite allChars_app, IH, andb_true_r.
  destruct (isUnreserved c) eqn:E; [|apply percentEncode_safe].
  simpl. unfold isUriSafe. rewrite E. reflexivity.
Qed.

(** X2.  [encodeURIComponent] produces nothing but letters, digits, the
    marks [- _ . ! ~ * ' ( )] and the percent sign. *)
Theorem encodeURIComponent_safe (s : string) :
  allChars isUriSafe (encodeURIComponent s) = true.
Proof. exact (encoded_chars s). Qed.

Lemma isUriSafe_not_separator c : isUriSafe c = true -> isSeparator c = false.
Proof. destruct c as [[] [] [] [] [] [] [] []]; vm_compute; congruence. Qed.

Lemma split_segment seg rest :
  allChars (fun c => negb (isSeparator c)) seg = true ->
  split (seg +:+ String "/" rest) = seg :: split rest.
Proof.
  induction seg as [|c seg IH]; intros Hseg; [reflexivity|].
  simpl in Hseg. apply andb_true_iff in Hseg as [Hc Hseg].
  apply negb_true_iff in Hc.
  simpl. rewrite Hc, (IH Hseg). reflexivity.
Qed.

Lemma split_last_segment seg :
  allChars (fun c => negb (isSeparator c)) seg = true -> split seg = [seg].
Proof.
  induction seg as [|c seg IH]; intros Hseg; [reflexivity|].
  simpl in Hseg. apply andb_true_iff in Hseg as [Hc Hseg].
  apply negb_true_iff in Hc.
  simpl. rewrite Hc, (IH Hseg). reflexivity.
Qed.

Lemma split_join segs :
  segs <> [] ->
  Forall (fun seg => allChars (fun c => negb (isSeparator c)) seg = true) segs ->
  split (join "/" segs) = segs.
Proof.
  induction segs as [|seg segs IH]; intros Hne Hall; [contradiction|].
  apply Forall_cons in Hall as [Hseg Hall].
  destruct segs as [|seg' segs'].
  - apply split_last_segment, Hseg.
  - rewrite join_cons.
    change (seg +:+ "/" +:+ join "/" (seg' :: segs'))
      with (seg +:+ String "/" (join "/" (seg' :: segs'))).
    rewrite (split_segment _ _ Hseg), IH; [reflexivity | discriminate | exact Hall].
Qed.

Lemma allChars_impl (test test' : ascii -> bool) s :
  (forall c, test c = true -> test' c = true) ->
  allChars test s = true -> allChars test' s = true.
Proof.
  intros Himpl. induction s as [|c s IH]; [reflexivity|].
  simpl. intros [Hc Hs]%andb_true_iff. rewrite (Himpl c Hc), (IH Hs). reflexivity.
Qed.

(** X3.  The encoded path has the segments of the path, each encoded:
    splitting it again at the separators gives exactly the encoded
    segments, so the encoding neither adds nor hides a separator. *)
Theorem split_encoded_path (p : string) :
  split (join "/" (map encodeURIComponent (split p)))
  = map encodeURIComponent (split p).
Proof.
  apply split_join.
  - destruct (split_cons_inv p) as (seg & segs & ->). discriminate.
  - apply Forall_forall. intros seg Hin.
    apply list_elem_of_In, in_map_iff in Hin as (seg0 & <- & _).
    apply (allChars_impl isUriSafe); [|apply encoded_chars].
    intros c Hc. rewrite (isUriSafe_not_separator c Hc). reflexivity.
Qed.

Lemma encodeURIComponent_unreserved s :
  allChars isUnreserved s = true -> encodeURIComponent s = s.
Proof.
  induction s as [|c s IH]; [reflexivity|].
  simpl. intros [Hc Hs]%andb_true_iff. rewrite Hc, (IH Hs). reflexivity.
Qed.

Lemma split_plain p :
  allChars isPlain p = true ->
  Forall (fun seg => allChars isUnreserved seg = true) (split p).
Proof.
  induction p as [|c rest IH]; intros Hp.
  { repeat constructor. }
  simpl in Hp. apply andb_true_iff in Hp as [Hc Hrest].
  specialize (IH Hrest). simpl.
  destruct (isSeparator c) eqn:Hsep.
  - constructor; [reflexivity | exact IH].
  - unfold isPlain in Hc. rewrite Hsep, orb_false_r in Hc.
    destruct (split rest) as [|seg segs].
    + repeat constructor. simpl. rewrite Hc. reflexivity.
    + apply Forall_cons in IH as [Hseg Hsegs].
      constructor; [|exact Hsegs]. simpl. rewrite Hc, Hseg. reflexivity.
Qed.

(** X4.  A path made of unreserved characters and separators needs no
    escaping: its URI is the path with forward slashes, after [file://] if
    it begins with a separator and after [file:///] otherwise. *)
Theorem normalizeUri_plain (p : string) :
  allChars isPlain p = true ->
  normalizeUri (Path p) =
  (if beginsWithSeparator p then "file://" else "file:///") +:+ slashes p.
Proof.
  intros Hp. unfold normalizeUri. rewrite pathname_charAt.
  assert (map encodeURIComponent (split p) = split p) as ->.
  { pose proof (split_plain p Hp) as Hall.
    induction Hall as [|seg segs Hseg _ IH]; [reflexivity|].
    simpl. rewrite (encodeURIComponent_unreserved seg Hseg), IH. reflexivity. }
  rewrite slashes_of_segments. destruct (beginsWithSeparator p); reflexivity.
Qed.

Lemma file_scheme_of_path p :
  String.prefix "file:///" (normalizeUri (Path p)) = true.
Proof.
  unfold normalizeUri.
  destruct (join "/" (map encodeURIComponent (split p))) as [|c pathname];
    [reflexivity|].
  unfold charAt. simpl String.get.
  destruct (Ascii.eqb_spec c "/") as [->|Hne].
  - simpl. destruct pathname; reflexivity.
  - assert (String.eqb (String c "") "/" = false) as ->.
    { simpl. apply Ascii.eqb_neq in Hne. rewrite Hne. reflexivity. }
    simpl. destruct pathname; reflexivity.
Qed.

(** X5.  Whatever the path, its URI begins with [file:///]; a locator
    that is a document identifier keeps the URI it carries. *)
Theorem normalizeUri_file_scheme (p u : string) :
  String.prefix "file:///" (normalizeUri (Path p)) = true /\
  normalizeUri (TextDocumentIdentifier u) = u.
Proof. split; [apply file_scheme_of_path | reflexivity]. Qed.

(** ** The locations of nodes *)

Section Locations.
Context `{Host} `{Files} `{Compiler} `{Analysis}.

Lemma locationsOfNodes_file_uris g nodes locations :
  locationsOfNodes g nodes = Value locations ->
  Forall (fun location =>
            String.prefix "file:///" (location_uri location) = true) locations /\
  (List.length locations <= List.length nodes)%nat.
Proof.
  revert locations. induction nodes as [|node rest IH]; intros locations; simpl.
  { intros [= <-]. split; [constructor | reflexivity]. }
  destruct (resolver_createNavigator g (Some node)) as [navigator|]; [|discriminate].
  destruct (locationsOfNodes g rest) as [others|]; [|discriminate].
  destruct (IH others eq_refl) as [Huris Hlen].
  intros [= <-].
  destruct navigator as [navigator|]; [|split; [exact Huris | simpl; lia]].
  destruct (navigator_moveToName navigator) as [[] navigator'];
    [|split; [exact Huris | simpl; lia]].
  split; [|simpl; lia].
  constructor; [|exact Huris]. apply file_scheme_of_path.
Qed.

(** X6.  The locations [getLocationsOfNodes] returns all carry a URI
    that begins with [file:///], and there is at most one of them for each
    node: a node without a navigator, or whose navigator finds no name, is
    left out. *)
Theorem getLocationsOfNodes_file_uris (nodes : option (list Node)) (g : Grammar)
    (locations : list Location) :
  getLocationsOfNodes nodes g = Value locations ->
  Forall (fun location =>
            String.prefix "file:///" (location_uri location) = true) locations /\
  (List.length locations <= List.length (default [] nodes))%nat.
Proof.
  destruct nodes as [nodes|]; simpl.
  - apply locationsOfNodes_file_uris.
  - intros [= <-]. split; [constructor | reflexivity].
Qed.
End Locations.

(** ** The edits of a rename *)

Lemma addEdits_from newName locations u (changes : gmap string (list TextEdit)) :
  foldl (fun changes location =>
           <[location_uri location :=
               default [] (changes !! location_uri location)
               ++ [mkTextEdit newName (location_range location)]]> changes)
        changes locations !! u
  = match filter (fun location => location_uri location = u) locations with
    | [] => changes !! u
    | here =>
        Some (default [] (changes !! u)
              ++ map (fun location => mkTextEdit newName (location_range location)) here)
    end.
Proof.
  revert changes. induction locations as [|location rest IH]; intros changes;
    [reflexivity|].
  simpl foldl. rewrite IH.
  destruct (decide (location_uri location = u)) as [Hu|Hu].
  - rewrite filter_cons_True by exact Hu. rewrite Hu, lookup_insert_eq. simpl.
    destruct (filter _ rest) as [|l here]; [reflexivity|].
    simpl. rewrite <- app_assoc. reflexivity.
  - rewrite filter_cons_False by exact Hu. rewrite lookup_insert_ne by exact Hu.
    reflexivity.
Qed.

(** X7.  The workspace edit of a rename holds, under each URI, one edit
    per location of that URI, in the order of the locations, each with the
    new name and the range of its location; a URI without a location has no
    entry. *)
Theorem addEdits_lookup (newName : string) (locations : list Location) (u : string) :
  addEdits newName locations !! u
  = match filter (fun location => location_uri location = u) locations with
    | [] => None
    | here =>
        Some (map (fun location => mkTextEdit newName (location_range location)) here)
    end.
Proof.
  unfold addEdits. rewrite addEdits_from, lookup_empty. reflexivity.
Qed.

(** ** The registry and its listings *)

Section Listing.
Context `{Host} `{Files} `{Compiler} `{Analysis}.

(** X8.  Between operations, [all()] lists every tracked document once,
    each of them open on the client or on the server, and [keys()] lists
    their [filename]s in the same order. *)
Theorem all_keys (ops : list Operation) :
  let st := run ops newDocumentManager in
  keys st = map (fun document => filename (obj st document)) (all st) /\
  NoDup (all st) /\
  Forall (fun document => referenced (obj st document) = true) (all st).
Proof.
  intros st.
  assert (consistent None st) as [K R G]
    by (apply reachable_consistent, reachable_run, reachable_new).
  assert (forall k a, (k, a) ∈ map_to_list (_documents st) ->
            filename (obj st a) = k) as Hname.
  { intros k a Hin. apply elem_of_map_to_list in Hin. apply (K _ _ Hin). }
  unfold keys, all. repeat split.
  - change (map (fun document => filename (obj st document))
              (map_to_list (_documents st)).*2)
      with ((fun document => filename (obj st document)) <$>
              (snd <$> map_to_list (_documents st))).
    rewrite <- list_fmap_compose. apply Forall_fmap_ext, Forall_forall.
    intros [k a] Hin. simpl. symmetry. apply Hname, Hin.
  - apply NoDup_fmap_2_strong; [|apply NoDup_map_to_list].
    intros [k a] [k' a'] Hin Hin' Heq. simpl in Heq. subst a'.
    rewrite <- (Hname _ _ Hin), <- (Hname _ _ Hin'). reflexivity.
  - apply Forall_forall. intros a Hin.
    apply list_elem_of_fmap in Hin as ([k a'] & -> & Hin). simpl.
    apply elem_of_map_to_list in Hin.
    destruct (G a') as [Href|Hp]; [|exact Href|discriminate].
    unfold registered. destruct (K _ _ Hin) as [_ ->]. exact Hin.
Qed.

Lemma update_again document f st :
  (forall d, f (f d) = f d) ->
  update document f (update document f st) = update document f st.
Proof.
  intros Hf. unfold update, with_heap; simpl. f_equal.
  apply list_eq. intros i. destruct (decide (document = i)) as [->|Hne].
  - rewrite !list_lookup_alter_eq. destruct (heap st !! i) as [d|]; simpl;
      [rewrite Hf|]; reflexivity.
  - rewrite !list_lookup_alter_ne by exact Hne. reflexivity.
Qed.

(** X9.  Reading a file through the read-callback a second time gives
    the same answer and changes nothing more: the first read registers and
    marks the document, the second finds it. *)
Theorem readFile_again (name : string) (st : DocumentManager) :
  readFile name (readFile name st).2 = readFile name st.
Proof.
  unfold readFile at 2 3. unfold getDocument.
  destruct (_documents st !! name) as [d|] eqn:E.
  - cbn [fst snd]. unfold readFile, getDocument.
    rewrite documents_update, E.
    rewrite update_again by reflexivity. reflexivity.
  - destruct (host_readFile name) as [contents|] eqn:Er.
    + set (d := (createDocument name st).1).
      set (opened := openDocumentOnServer d
                       (update d (set_text contents) (createDocument name st).2)).
      change (readFile name (update d (set_marked true) opened)
              = (text (obj (update d (set_marked true) opened) d),
                 update d (set_marked true) opened)).
      assert (_documents opened !! name = Some d) as Hd.
      { unfold opened, openDocumentOnServer.
        destruct (negb _); rewrite ?documents_update;
          unfold createDocument; simpl; apply lookup_insert_eq. }
      unfold readFile, getDocument. rewrite documents_update, Hd.
      rewrite update_again by reflexivity. reflexivity.
    + cbn [fst snd]. unfold readFile, getDocument. rewrite E, Er. reflexivity.
Qed.

Variable subscribers : DocumentManager -> DocumentManager.

(** X10.  A change notification does what an open notification with the
    text of its last entry does, whatever the entries before it; one
    without entries does nothing. *)
Theorem handleUpdateClientDocument_last (uri' : string)
    (earlier : list string) (contents : string) (st : DocumentManager) :
  handleUpdateClientDocument subscribers uri' (earlier ++ [contents]) st
  = handleOpenClientDocument subscribers uri' contents st /\
  handleUpdateClientDocument subscribers uri' [] st = st.
Proof.
  split; [|reflexivity].
  unfold handleUpdateClientDocument. rewrite last_snoc. reflexivity.
Qed.
End Listing.

(** Evaluating the tests on the flags of the document a method works on. *)
Ltac flags Hlt Hclient Hserver :=
  repeat first
    [ progress cbv beta iota zeta
    | progress cbn [negb fst snd andb orb]
    | rewrite Hclient
    | rewrite Hserver
    | rewrite (obj_update_field isOpenOnClient) by reflexivity
    | rewrite (obj_update_field isOpenOnServer) by reflexivity
    | rewrite (obj_update_field filename) by reflexivity
    | rewrite obj_update_eq by exact Hlt
    | progress cbn [isOpenOnClient isOpenOnServer filename
                    set_isOpenOnClient set_isOpenOnServer] ].

Section DualClose.
Context `{Host} `{Files} `{Compiler} `{Analysis}.

(** X11.  While updates are suspended, a document open on both sides
    stays registered when one side closes it, whichever side, and is out of
    the registry once both have, in either order. *)
Theorem dual_close (ops : list Operation) (id : Locator) (uri' : string)
    (document : ref) :
  let st := run ops newDocumentManager in
  let name := normalizeFilename id in
  (0 < _updateSuspended st)%nat ->
  normalizeFilename (TextDocumentIdentifier uri') = name ->
  getDocument name st = Some document ->
  isOpenOnClient (obj st document) = true ->
  isOpenOnServer (obj st document) = true ->
  getDocument name (handleCloseClientDocument subscribers uri' st) = Some document /\
  getDocument name (close subscribers id st) = Some document /\
  getDocument name
    (close subscribers id (handleCloseClientDocument subscribers uri' st)) = None /\
  getDocument name
    (handleCloseClientDocument subscribers uri' (close subscribers id st)) = None.
Proof.
  intros st name Hs Huri Hget Hclient Hserver.
  assert (consistent None st) as [K _ _]
    by (apply reachable_consistent, reachable_run, reachable_new).
  destruct (K _ _ Hget) as [Hlt Hname].
  (* the client closes *)
  assert (handleCloseClientDocument subscribers uri' st
          = update document (set_isOpenOnClient false) st) as Hc.
  { unfold handleCloseClientDocument. rewrite Huri, Hget.
    unfold closeDocumentOnClient. flags Hlt Hclient Hserver. reflexivity. }
  (* the server closes *)
  assert (close subscribers id st
          = update document (set_isOpenOnServer false) st) as Hsv.
  { unfold close. fold name. rewrite Hget.
    unfold closeDocumentOnServer. flags Hlt Hclient Hserver. reflexivity. }
  rewrite Hc, Hsv. repeat split; try exact Hget.
  - unfold close. fold name. unfold getDocument in *. rewrite documents_update, Hget.
    unfold closeDocumentOnServer. flags Hlt Hclient Hserver.
    rewrite Hname. unfold closeDocument. flags Hlt Hclient Hserver.
    rewrite ?requestUpdate_suspended by (simpl; exact Hs).
    repeat match goal with |- context [if ?b then _ else _] => destruct b end;
      simpl; apply lookup_delete_eq.
  - unfold handleCloseClientDocument. rewrite Huri.
    unfold getDocument in *. rewrite documents_update, Hget.
    unfold closeDocumentOnClient. flags Hlt Hclient Hserver.
    rewrite Hname. unfold closeDocument. flags Hlt Hclient Hserver.
    rewrite ?requestUpdate_suspended by (simpl; exact Hs).
    repeat match goal with |- context [if ?b then _ else _] => destruct b end;
      simpl; apply lookup_delete_eq.
Qed.
End DualClose.

(** ** Pending updates *)

Lemma nothingPending_ext st st' :
  _updateSuspended st' = _updateSuspended st ->
  _updateRequested st' = _updateRequested st ->
  nothingPending st -> nothingPending st'.
Proof. unfold nothingPending. intros -> ->. auto. Qed.

Section Pending.
Context `{Host} `{Files} `{Compiler} `{Analysis}.
Variable subscribers : DocumentManager -> DocumentManager.

Lemma close_updating_requested id st :
  _updating st = true -> _updateSuspended st = 0%nat ->
  _updateRequested (close subscribers id st) = _updateRequested st.
Proof.
  intros Hu Hs. unfold close.
  destruct (getDocument (normalizeFilename id) st) as [a|]; [|reflexivity].
  pose proof (control_closeDocumentOnServer a st) as Hctl.
  apply control_fields in Hctl as (_ & _ & Hs1 & Hq & Hup & _).
  destruct (closeDocumentOnServer a st) as [removed st1]. simpl in *.
  repeat first
    [ rewrite requestUpdate_updating by (simpl; congruence)
    | match goal with |- context [if ?b then _ else _] => destruct b eqn:? end ];
    simpl; try congruence.
  all: exfalso;
    match goal with E : (0 <? _)%nat = true |- _ =>
      simpl in E; rewrite Hs1, Hs in E; discriminate end.
Qed.

Lemma sweep_updating_requested documents st :
  _updating st = true -> _updateSuspended st = 0%nat ->
  _updateRequested (sweep subscribers documents st) = _updateRequested st.
Proof.
  revert st. induction documents as [|a rest IH]; intros st Hu Hs; [reflexivity|].
  simpl. destruct (negb (marked (obj st a)) && negb (isOpenOnClient (obj st a))).
  - destruct (close_updating_fields subscribers (Path (filename (obj st a))) st Hu)
      as (Hu' & Hs' & _).
    rewrite IH by congruence. apply close_updating_requested; assumption.
  - apply IH; assumption.
Qed.

Lemma rebuild_requested st : _updateRequested (rebuild st) = _updateRequested st.
Proof.
  unfold rebuild.
  pose proof (control_markRoots (all st) st) as Hm.
  destruct (markRoots (all st) st) as [names st1]. simpl in Hm.
  cbv zeta.
  match goal with |- context [deliver ?r ?s] =>
    pose proof (control_deliver r s) as Hd;
    destruct (deliver r s) as [delivered st2] end.
  simpl in Hd.
  apply control_fields in Hm as (_ & _ & _ & Hq & _).
  apply control_fields in Hd as (_ & _ & _ & Hq' & _).
  simpl in *. congruence.
Qed.

Lemma refreshGrammar_requested st :
  _updateSuspended st = 0%nat ->
  _updateRequested (refreshGrammar subscribers st) = _updateRequested st.
Proof.
  intros Hs. unfold refreshGrammar. simpl.
  destruct (rebuild_fields (with_updating true st)) as (_ & Hu & Hs' & _).
  rewrite sweep_updating_requested by (simpl in *; congruence).
  rewrite rebuild_requested. reflexivity.
Qed.

Lemma grammar_requested st :
  _updateSuspended st = 0%nat ->
  _updateRequested (grammar subscribers st).2 = _updateRequested st.
Proof.
  intros Hs. unfold grammar. cbn [snd].
  destruct (_grammar st); [reflexivity | apply refreshGrammar_requested, Hs].
Qed.

Lemma getSourceFile_requested id st :
  _updateSuspended st = 0%nat ->
  _updateRequested (getSourceFile subscribers id st).2 = _updateRequested st.
Proof.
  intros Hs. unfold getSourceFile. pose proof (grammar_requested st Hs) as Hg.
  destruct (grammar subscribers st) as [[g|] st1]; exact Hg.
Qed.

Lemma sendAllDiagnostics_requested documents st :
  _updateSuspended st = 0%nat ->
  _updateRequested (sendAllDiagnostics subscribers documents st).2
  = _updateRequested st.
Proof.
  revert st. induction documents as [|a rest IH]; intros st Hs; [reflexivity|].
  simpl.
  pose proof (getSourceFile_requested (Path (filename (obj st a))) st Hs) as Hq.
  pose proof (getSourceFile_fields subscribers (Path (filename (obj st a))) st)
    as (_ & Hs1 & _).
  destruct (getSourceFile subscribers _ st) as [[[node|]|] st1]; simpl in *.
  - rewrite IH by (simpl; congruence). exact Hq.
  - rewrite IH by congruence. exact Hq.
  - exact Hq.
Qed.

Lemma onDocumentsUpdated_requested st :
  _updateSuspended st = 0%nat ->
  _updateRequested (onDocumentsUpdated subscribers st).2 = _updateRequested st.
Proof.
  intros Hs. unfold onDocumentsUpdated.
  pose proof (grammar_requested st Hs) as Hq.
  pose proof (grammar_fields subscribers st) as (_ & Hs1 & _).
  destruct (grammar subscribers st) as [[g|] st1]; simpl in *; [|exact Hq].
  rewrite sendAllDiagnostics_requested by congruence. exact Hq.
Qed.

(** A pending update and the tests of [refreshGrammar]'s callers. *)
Lemma refreshGrammar_pending st :
  nothingPending st -> nothingPending (refreshGrammar subscribers st).
Proof.
  intros Hp. destruct (refreshGrammar_fields subscribers st) as (_ & Hs & _).
  destruct (Nat.eq_dec (_updateSuspended st) 0) as [Hzero|Hpos].
  - apply (nothingPending_ext st); [exact Hs | | exact Hp].
    apply refreshGrammar_requested, Hzero.
  - right. lia.
Qed.

Lemma grammar_pending st :
  nothingPending st -> nothingPending (grammar subscribers st).2.
Proof.
  intros Hp. unfold grammar. cbn [snd].
  destruct (_grammar st); [exact Hp | apply refreshGrammar_pending, Hp].
Qed.

Lemma getSourceFile_pending id st :
  nothingPending st -> nothingPending (getSourceFile subscribers id st).2.
Proof.
  intros Hp. unfold getSourceFile. pose proof (grammar_pending st Hp) as Hg.
  destruct (grammar subscribers st) as [[g|] st1]; exact Hg.
Qed.
End Pending.

Section PendingProgram.
Context `{Host} `{Files} `{Compiler} `{Analysis}.

Lemma subscribers_requested st :
  _updateSuspended st = 0%nat ->
  _updateRequested (subscribers st) = _updateRequested st.
Proof. apply onDocumentsUpdated_requested. Qed.

Lemma reportUpdate_pending st :
  _updating st = false -> _updateSuspended st = 0%nat ->
  nothingPending (reportUpdate subscribers st).
Proof.
  intros Hu Hs. left. unfold reportUpdate. rewrite Hu. simpl.
  rewrite subscribers_requested by (simpl; exact Hs). reflexivity.
Qed.

Lemma requestUpdate_pending st :
  _updating st = false -> nothingPending (requestUpdate subscribers st).
Proof.
  intros Hu. unfold requestUpdate.
  destruct (Nat.ltb_spec 0 (_updateSuspended st)) as [Hpos|Hzero].
  - right. simpl. exact Hpos.
  - apply reportUpdate_pending; [exact Hu | lia].
Qed.

Lemma open_pending id st :
  _updating st = false -> nothingPending st ->
  nothingPending (open subscribers id st).2.
Proof.
  intros Hu Hp. unfold open.
  destruct (host_readFile (normalizeFilename id)) as [contents|]; [|exact Hp].
  pose proof (control_getOrCreateDocument (normalizeFilename id) st) as Hctl.
  destruct (getOrCreateDocument (normalizeFilename id) st) as [[created a] st1].
  apply control_fields in Hctl as (_ & _ & Hs1 & Hq1 & Hu1 & _). simpl in Hs1, Hq1, Hu1.
  cbv zeta. cbn [snd].
  set (st2 := openDocumentOnServer a _).
  assert (control st2 = control st1) as Hctl2
    by (unfold st2; rewrite control_openDocumentOnServer; reflexivity).
  apply control_fields in Hctl2 as (_ & _ & Hs2 & Hq2 & Hu2 & _).
  repeat match goal with |- context [if ?b then _ else _] => destruct b end;
    first [ apply requestUpdate_pending; simpl; congruence
          | apply (nothingPending_ext st); [simpl; congruence .. | exact Hp] ].
Qed.

Lemma close_pending id st :
  _updating st = false -> nothingPending st ->
  nothingPending (close subscribers id st).
Proof.
  intros Hu Hp. unfold close.
  destruct (getDocument (normalizeFilename id) st) as [a|]; [|exact Hp].
  pose proof (control_closeDocumentOnServer a st) as Hctl.
  destruct (closeDocumentOnServer a st) as [removed st1].
  apply control_fields in Hctl as (_ & _ & Hs1 & Hq1 & Hu1 & _). simpl in Hs1, Hq1, Hu1.
  repeat match goal with |- context [if ?b then _ else _] => destruct b end;
    first [ apply requestUpdate_pending; simpl; congruence
          | apply (nothingPending_ext st); [simpl; congruence .. | exact Hp] ].
Qed.

Lemma handleOpenClientDocument_pending uri' contents st :
  _updating st = false -> nothingPending st ->
  nothingPending (handleOpenClientDocument subscribers uri' contents st).
Proof.
  intros Hu Hp. unfold handleOpenClientDocument. set (name := normalizeFilename _).
  pose proof (control_getOrCreateDocument name st) as Hctl.
  destruct (getOrCreateDocument name st) as [[created a] st1].
  apply control_fields in Hctl as (_ & _ & Hs1 & Hq1 & Hu1 & _). simpl in Hs1, Hq1, Hu1.
  cbv zeta.
  set (st2 := openDocumentOnClient a _).
  assert (control st2 = control st1) as Hctl2
    by (unfold st2; rewrite control_openDocumentOnClient; reflexivity).
  apply control_fields in Hctl2 as (_ & _ & Hs2 & Hq2 & Hu2 & _).
  repeat match goal with |- context [if ?b then _ else _] => destruct b end;
    first [ apply requestUpdate_pending; simpl; congruence
          | apply (nothingPending_ext st); [simpl; congruence .. | exact Hp] ].
Qed.

Lemma handleCloseClientDocument_pending uri' st :
  _updating st = false -> nothingPending st ->
  nothingPending (handleCloseClientDocument subscribers uri' st).
Proof.
  intros Hu Hp. unfold handleCloseClientDocument. set (name := normalizeFilename _).
  destruct (getDocument name st) as [a|]; [|exact Hp].
  pose proof (control_closeDocumentOnClient a st) as Hctl.
  destruct (closeDocumentOnClient a st) as [removed st1].
  apply control_fields in Hctl as (_ & _ & Hs1 & Hq1 & Hu1 & _). simpl in Hs1, Hq1, Hu1.
  repeat match goal with |- context [if ?b then _ else _] => destruct b end;
    first [ apply requestUpdate_pending; simpl; congruence
          | apply (nothingPending_ext st); [simpl; congruence .. | exact Hp] ].
Qed.

Lemma resumeUpdates_pending st :
  _updating st = false -> nothingPending st ->
  nothingPending (resumeUpdates subscribers st).
Proof.
  intros Hu Hp. unfold resumeUpdates.
  destruct (0 <? _updateSuspended st)%nat; [|exact Hp]. cbv zeta.
  destruct (Nat.eqb_spec (_updateSuspended
              (with_updateSuspended (pred (_updateSuspended st)) st)) 0)
    as [Hz|Hnz]; simpl in *.
  - destruct (_updateRequested st) eqn:Hq.
    + apply reportUpdate_pending; [exact Hu | exact Hz].
    + left. exact Hq.
  - right. simpl. lia.
Qed.

Lemma perform_pending op st :
  _updating st = false -> nothingPending st -> nothingPending (perform op st).
Proof.
  intros Hu Hp.
  destruct op as [id|id| | | | |id|u contents|u contentChanges|u|name|u p|u p|id p n];
    simpl.
  - apply open_pending; assumption.
  - apply close_pending; assumption.
  - right. simpl. lia.
  - apply resumeUpdates_pending; assumption.
  - unfold rootNames. cbn [snd].
    destruct (_rootNames st); [exact Hp | apply refreshGrammar_pending, Hp].
  - apply grammar_pending, Hp.
  - apply getSourceFile_pending, Hp.
  - apply handleOpenClientDocument_pending; assumption.
  - unfold handleUpdateClientDocument.
    destruct (last contentChanges) as [contents|]; [|exact Hp].
    apply (handleOpenClientDocument_pending u contents st Hu Hp).
  - apply handleCloseClientDocument_pending; assumption.
  - pose proof (control_readFile name st) as Hctl.
    apply control_fields in Hctl as (_ & _ & Hs1 & Hq1 & _).
    apply (nothingPending_ext st); assumption.
  - rewrite onDefinition_state. apply getSourceFile_pending, grammar_pending, Hp.
  - rewrite onReferences_state. apply getSourceFile_pending, grammar_pending, Hp.
  - rewrite onRenameRequest_state. apply getSourceFile_pending, grammar_pending, Hp.
Qed.

Lemma run_pending ops : nothingPending (run ops newDocumentManager).
Proof.
  assert (forall l st, _updating st = false -> nothingPending st ->
            nothingPending (run l st)) as Hrun.
  { induction l as [|op l IH]; intros st Hu Hp; [exact Hp|].
    simpl. apply IH.
    - rewrite perform_keeps_updating. exact Hu.
    - apply perform_pending; assumption. }
  apply Hrun; [reflexivity | left; reflexivity].
Qed.

(** X12.  Between operations no report is in progress, and an update is
    pending only while updates are suspended: a request is either reported
    at once or kept for the resume that brings the counter to zero. *)
Theorem pending_only_while_suspended (ops : list Operation) :
  let st := run ops newDocumentManager in
  _updating st = false /\
  (_updateRequested st = false \/ (0 < _updateSuspended st)%nat).
Proof. intros st. split; [apply run_not_updating | apply run_pending]. Qed.

(** X13.  Between operations, suspending and resuming at once, with
    nothing in between, leaves the manager exactly as it was: no report, no
    event, the counter back where it stood. *)
Theorem resume_suspend (ops : list Operation) :
  let st := run ops newDocumentManager in
  resumeUpdates subscribers (suspendUpdates st) = st.
Proof.
  intros st. pose proof (run_pending ops) as Hp. fold st in Hp.
  unfold resumeUpdates, suspendUpdates. simpl.
  assert (with_updateSuspended (_updateSuspended st)
            (with_updateSuspended (S (_updateSuspended st)) st) = st) as Hback
    by (destruct st; reflexivity).
  destruct (Nat.eqb_spec (_updateSuspended st) 0) as [Hz|Hnz]; simpl.
  - destruct Hp as [Hq|Hpos]; [|lia]. rewrite Hq. exact Hback.
  - exact Hback.
Qed.
End PendingProgram.

(** ** The two caches *)

Lemma cachesAgree_ext st st' :
  _rootNames st' = _rootNames st -> _grammar st' = _grammar st ->
  cachesAgree st -> cachesAgree st'.
Proof. unfold cachesAgree. intros -> ->. auto. Qed.

(** The result of a method, case by case: either the caches were
    discarded, or they are those of the state the method started from. *)
Ltac caches st HJ :=
  first [ apply (cachesAgree_ext st); [simpl; congruence | simpl; congruence | exact HJ]
        | unfold cachesAgree; simpl; reflexivity ].

Section Caches.
Context `{Host} `{Files} `{Compiler} `{Analysis}.
Variable subscribers : DocumentManager -> DocumentManager.
Hypothesis subscribers_caches :
  forall st, cachesAgree st -> cachesAgree (subscribers st).

Lemma reportUpdate_caches st :
  cachesAgree st -> cachesAgree (reportUpdate subscribers st).
Proof.
  intros HJ. unfold reportUpdate. destruct (negb (_updating st)); [|exact HJ].
  apply (cachesAgree_ext
    (subscribers (fire DidUpdate (with_updateRequested false (with_updating true st)))));
    [reflexivity | reflexivity |].
  apply subscribers_caches. caches st HJ.
Qed.

Lemma requestUpdate_caches st :
  cachesAgree st -> cachesAgree (requestUpdate subscribers st).
Proof.
  intros HJ. unfold requestUpdate.
  destruct (0 <? _updateSuspended st)%nat; [caches st HJ|].
  apply reportUpdate_caches, HJ.
Qed.

Lemma open_caches id st : cachesAgree st -> cachesAgree (open subscribers id st).2.
Proof.
  intros HJ. unfold open.
  destruct (host_readFile (normalizeFilename id)) as [contents|]; [|exact HJ].
  pose proof (control_getOrCreateDocument (normalizeFilename id) st) as Hctl.
  destruct (getOrCreateDocument (normalizeFilename id) st) as [[created a] st1].
  apply control_fields in Hctl as (Hr1 & Hg1 & _). simpl in Hr1, Hg1.
  cbv zeta. cbn [snd].
  set (st2 := openDocumentOnServer a _).
  assert (control st2 = control st1) as Hctl2
    by (unfold st2; rewrite control_openDocumentOnServer; reflexivity).
  apply control_fields in Hctl2 as (Hr2 & Hg2 & _).
  repeat match goal with |- context [if ?b then _ else _] => destruct b end;
    try apply requestUpdate_caches; caches st HJ.
Qed.

Lemma close_caches id st : cachesAgree st -> cachesAgree (close subscribers id st).
Proof.
  intros HJ. unfold close.
  destruct (getDocument (normalizeFilename id) st) as [a|]; [|exact HJ].
  pose proof (control_closeDocumentOnServer a st) as Hctl.
  destruct (closeDocumentOnServer a st) as [removed st1].
  apply control_fields in Hctl as (Hr1 & Hg1 & _). simpl in Hr1, Hg1.
  repeat match goal with |- context [if ?b then _ else _] => destruct b end;
    try apply requestUpdate_caches; caches st HJ.
Qed.

Lemma handleOpenClientDocument_caches uri' contents st :
  cachesAgree st ->
  cachesAgree (handleOpenClientDocument subscribers uri' contents st).
Proof.
  intros HJ. unfold handleOpenClientDocument. set (name := normalizeFilename _).
  pose proof (control_getOrCreateDocument name st) as Hctl.
  destruct (getOrCreateDocument name st) as [[created a] st1].
  apply control_fields in Hctl as (Hr1 & Hg1 & _). simpl in Hr1, Hg1.
  cbv zeta.
  set (st2 := openDocumentOnClient a _).
  assert (control st2 = control st1) as Hctl2
    by (unfold st2; rewrite control_openDocumentOnClient; reflexivity).
  apply control_fields in Hctl2 as (Hr2 & Hg2 & _).
  repeat match goal with |- context [if ?b then _ else _] => destruct b end;
    try apply requestUpdate_caches; caches st HJ.
Qed.

Lemma handleCloseClientDocument_caches uri' st :
  cachesAgree st -> cachesAgree (handleCloseClientDocument subscribers uri' st).
Proof.
  intros HJ. unfold handleCloseClientDocument. set (name := normalizeFilename _).
  destruct (getDocument name st) as [a|]; [|exact HJ].
  pose proof (control_closeDocumentOnClient a st) as Hctl.
  destruct (closeDocumentOnClient a st) as [removed st1].
  apply control_fields in Hctl as (Hr1 & Hg1 & _). simpl in Hr1, Hg1.
  repeat match goal with |- context [if ?b then _ else _] => destruct b end;
    try apply requestUpdate_caches; caches st HJ.
Qed.

Lemma resumeUpdates_caches st :
  cachesAgree st -> cachesAgree (resumeUpdates subscribers st).
Proof.
  intros HJ. unfold resumeUpdates.
  repeat match goal with |- context [if ?b then _ else _] => destruct b end;
    try apply reportUpdate_caches; caches st HJ.
Qed.

Lemma sweep_caches documents st :
  cachesAgree st -> cachesAgree (sweep subscribers documents st).
Proof.
  revert st. induction documents as [|a rest IH]; intros st HJ; [exact HJ|].
  simpl. apply IH.
  destruct (negb (marked (obj st a)) && negb (isOpenOnClient (obj st a)));
    [apply close_caches|]; exact HJ.
Qed.

(** A rebuild that starts without a compilation state hands none to the
    compiler, and caches the root names it built the new one from. *)
Lemma rebuild_caches st : _grammar st = None -> cachesAgree (rebuild st).
Proof.
  intros Hnone. unfold rebuild.
  pose proof (control_markRoots (all st) st) as Hm.
  destruct (markRoots (all st) st) as [names st1]. simpl in Hm.
  cbv zeta.
  match goal with |- context [deliver ?r ?s] =>
    pose proof (control_deliver r s) as Hd;
    destruct (deliver r s) as [delivered st2] end.
  simpl in Hd.
  apply control_fields in Hm as (_ & Hg & _).
  apply control_fields in Hd as (Hr & _).
  unfold cachesAgree. simpl in *. rewrite Hg, Hnone, Hr. auto.
Qed.

Lemma refreshGrammar_caches st :
  _grammar st = None -> cachesAgree (refreshGrammar subscribers st).
Proof.
  intros Hnone. unfold refreshGrammar.
  apply (cachesAgree_ext
    (sweep subscribers (all (rebuild (with_updating true st)))
       (rebuild (with_updating true st)))); [reflexivity | reflexivity |].
  apply sweep_caches, rebuild_caches. exact Hnone.
Qed.

Lemma cachesAgree_rootNames st :
  cachesAgree st -> _rootNames st = None -> _grammar st = None.
Proof.
  unfold cachesAgree. intros HJ Hr.
  destruct (_grammar st) as [[roots old delivered]|]; [|reflexivity].
  destruct HJ as [_ HJ]. congruence.
Qed.

Lemma rootNames_caches st :
  cachesAgree st -> cachesAgree (rootNames subscribers st).2.
Proof.
  intros HJ. unfold rootNames. cbn [snd].
  destruct (_rootNames st) eqn:E; [exact HJ|].
  apply refreshGrammar_caches, cachesAgree_rootNames; assumption.
Qed.

Lemma grammar_caches st :
  cachesAgree st -> cachesAgree (grammar subscribers st).2.
Proof.
  intros HJ. unfold grammar. cbn [snd].
  destruct (_grammar st) eqn:E; [exact HJ|].
  apply refreshGrammar_caches, E.
Qed.

Lemma getSourceFile_caches id st :
  cachesAgree st -> cachesAgree (getSourceFile subscribers id st).2.
Proof.
  intros HJ. unfold getSourceFile. pose proof (grammar_caches st HJ) as Hg.
  destruct (grammar subscribers st) as [[g|] st1]; exact Hg.
Qed.

Lemma sendAllDiagnostics_caches documents st :
  cachesAgree st -> cachesAgree (sendAllDiagnostics subscribers documents st).2.
Proof.
  revert st. induction documents as [|a rest IH]; intros st HJ; [exact HJ|].
  simpl.
  pose proof (getSourceFile_caches (Path (filename (obj st a))) st HJ) as Hg.
  destruct (getSourceFile subscribers _ st) as [[[node|]|] st1]; simpl in Hg.
  - apply IH. caches st1 Hg.
  - apply IH, Hg.
  - exact Hg.
Qed.

Lemma onDocumentsUpdated_caches st :
  cachesAgree st -> cachesAgree (onDocumentsUpdated subscribers st).2.
Proof.
  intros HJ. unfold onDocumentsUpdated.
  pose proof (grammar_caches st HJ) as Hg.
  destruct (grammar subscribers st) as [[g|] st1]; simpl in Hg; [|exact Hg].
  apply sendAllDiagnostics_caches, Hg.
Qed.
End Caches.

Section CachesProgram.
Context `{Host} `{Files} `{Compiler} `{Analysis}.

Lemma program_subscribers_caches st : cachesAgree st -> cachesAgree (subscribers st).
Proof.
  apply (onDocumentsUpdated_caches (fun st => st)). intros st' HJ; exact HJ.
Qed.

Lemma perform_caches op st : cachesAgree st -> cachesAgree (perform op st).
Proof.
  intros HJ. pose proof program_subscribers_caches as Hsub.
  destruct op as [id|id| | | | |id|u contents|u contentChanges|u|name|u p|u p|id p n];
    simpl.
  - apply open_caches; assumption.
  - apply close_caches; assumption.
  - exact HJ.
  - apply resumeUpdates_caches; assumption.
  - apply rootNames_caches; assumption.
  - apply grammar_caches; assumption.
  - apply getSourceFile_caches; assumption.
  - apply handleOpenClientDocument_caches; assumption.
  - unfold handleUpdateClientDocument.
    destruct (last contentChanges) as [contents|]; [|exact HJ].
    apply (handleOpenClientDocument_caches subscribers Hsub u contents st HJ).
  - apply handleCloseClientDocument_caches; assumption.
  - pose proof (control_readFile name st) as Hctl.
    apply control_fields in Hctl as (Hr & Hg & _).
    apply (cachesAgree_ext st); assumption.
  - rewrite onDefinition_state.
    apply getSourceFile_caches, grammar_caches; assumption.
  - rewrite onReferences_state.
    apply getSourceFile_caches, grammar_caches; assumption.
  - rewrite onRenameRequest_state.
    apply getSourceFile_caches, grammar_caches; assumption.
Qed.

(** X14.  Between operations the two caches go together: either both
    are absent, or the cached root names are the ones the cached compilation
    state was built from.  And that state was built from scratch: the
    previous compilation state handed to the compiler is always
    [undefined], since a rebuild only starts when there is none. *)
Theorem caches_agree (ops : list Operation) :
  let st := run ops newDocumentManager in
  match _grammar st with
  | Some (NewGrammar roots oldGrammar _) =>
      oldGrammar = None /\ _rootNames st = Some roots
  | None => _rootNames st = None
  end.
Proof.
  intros st.
  assert (forall l s, cachesAgree s -> cachesAgree (run l s)) as Hrun.
  { induction l as [|op l IH]; intros s HJ; [exact HJ|].
    simpl. apply IH, perform_caches, HJ. }
  apply (Hrun ops newDocumentManager). reflexivity.
Qed.
End CachesProgram.

(** ** What the client sent survives the report *)

Lemma markRoots_field {A} `{Host} `{Files} `{Compiler} `{Analysis}
    (field : GrammarDocument -> A) documents st a :
  (forall b d, field (set_marked b d) = field d) ->
  field (obj (markRoots documents st).2 a) = field (obj st a).
Proof.
  intros Hf. revert st. induction documents as [|b rest IH]; intros st; [reflexivity|].
  simpl. destruct (isOpenOnClient (obj st b)).
  - specialize (IH (update b (set_marked true) st)).
    destruct (markRoots rest _) as [names st']. cbn [snd] in *.
    rewrite IH. apply (obj_update_field field). apply Hf.
  - rewrite IH. apply (obj_update_field field). apply Hf.
Qed.

Section ClientHolds.
Context `{Host} `{Files} `{Compiler} `{Analysis}.
Variable subscribers : DocumentManager -> DocumentManager.
Hypothesis subscribers_consistent :
  forall st, consistent None st -> consistent None (subscribers st).
Variables (name : string) (document : ref) (u contents : string).

Lemma clientHolds_ext st st' :
  heap st' = heap st -> _documents st' = _documents st ->
  clientHolds name document u contents st ->
  clientHolds name document u contents st'.
Proof. unfold clientHolds, obj. intros -> ->. auto. Qed.

(** An update of any object that leaves these fields alone. *)
Lemma clientHolds_update a f st :
  (forall d, isOpenOnClient (f d) = isOpenOnClient d) ->
  (forall d, text (f d) = text d) -> (forall d, uri (f d) = uri d) ->
  clientHolds name document u contents st ->
  clientHolds name document u contents (update a f st).
Proof.
  intros Hc Ht Hu (Hl & Hcl & Htx & Huri). unfold clientHolds.
  rewrite documents_update.
  rewrite (obj_update_field isOpenOnClient), (obj_update_field text),
    (obj_update_field uri) by assumption.
  auto.
Qed.

Lemma markRoots_clientHolds documents st :
  clientHolds name document u contents st ->
  clientHolds name document u contents (markRoots documents st).2.
Proof.
  intros (Hl & Hcl & Htx & Huri). unfold clientHolds.
  destruct (markRoots_frame documents st) as (-> & _ & ->).
  rewrite (markRoots_field text), (markRoots_field uri) by reflexivity.
  auto.
Qed.

Lemma readFile_clientHolds other st :
  consistent None st ->
  clientHolds name document u contents st ->
  clientHolds name document u contents (readFile other st).2.
Proof.
  intros Hc Hold. unfold readFile, getDocument.
  destruct (_documents st !! other) as [b|] eqn:E.
  - cbn [snd]. apply clientHolds_update; [reflexivity .. | exact Hold].
  - destruct (host_readFile other) as [text'|]; [|exact Hold].
    destruct Hold as (Hl & Hcl & Htx & Huri).
    assert (document < List.length (heap st))%nat as Hlt
      by (destruct Hc as [K _ _]; apply (K _ _ Hl)).
    assert (other <> name) as Hne by (intros ->; congruence).
    set (b := List.length (heap st)).
    assert (b <> document) as Hb by (unfold b; lia).
    assert (obj (createDocument other st).2 document = obj st document) as Hobj.
    { unfold obj, createDocument; simpl.
      rewrite !list_lookup_total_alt, lookup_app_l by exact Hlt. reflexivity. }
    assert (_documents (createDocument other st).2 !! name = Some document) as Hdoc.
    { unfold createDocument; simpl. rewrite lookup_insert_ne by exact Hne. exact Hl. }
    change (clientHolds name document u contents
              (update b (set_marked true)
                 (openDocumentOnServer b
                    (update b (set_text text') (createDocument other st).2)))).
    unfold clientHolds. rewrite documents_update.
    rewrite obj_update_ne by exact Hb.
    unfold openDocumentOnServer.
    destruct (negb _); rewrite ?documents_update, ?obj_update_ne by exact Hb;
      rewrite Hobj; auto.
Qed.

Lemma deliver_clientHolds reads st :
  consistent None st ->
  clientHolds name document u contents st ->
  clientHolds name document u contents (deliver reads st).2.
Proof.
  revert st. induction reads as [|other rest IH]; intros st Hc Hold; [exact Hold|].
  simpl. pose proof (readFile_consistent other st Hc) as Hc'.
  pose proof (readFile_clientHolds other st Hc Hold) as Hold'.
  destruct (readFile other st) as [answer st1]. simpl in Hc', Hold'.
  specialize (IH st1 Hc' Hold').
  destruct (deliver rest st1) as [delivered st2]. exact IH.
Qed.

(** Closing on the server side never takes away a document that is open
    on the client, nor touches its text. *)
Lemma closeDocumentOnServer_clientHolds a k st :
  consistent None st -> _documents st !! k = Some a ->
  clientHolds name document u contents st ->
  clientHolds name document u contents (closeDocumentOnServer a st).2.
Proof.
  intros [K R G] Hk (Hl & Hcl & Htx & Huri).
  destruct (K _ _ Hk) as [Hlt Hname].
  destruct (K _ _ Hl) as [Hltd Hnamed].
  unfold closeDocumentOnServer.
  destruct (isOpenOnServer (obj st a)); [|unfold clientHolds; auto].
  rewrite (obj_update_field isOpenOnClient) by reflexivity.
  destruct (decide (a = document)) as [->|Hne].
  - rewrite Hcl. cbn [negb snd].
    apply clientHolds_update; [reflexivity .. |]. unfold clientHolds; auto.
  - assert (k <> name) as Hkn by (intros ->; congruence).
    rewrite (obj_update_field filename) by reflexivity. rewrite Hname.
    destruct (negb (isOpenOnClient (obj st a))); cbn [snd]; unfold clientHolds;
      rewrite ?obj_closeDocument, ?documents_closeDocument, ?documents_update;
      rewrite ?lookup_delete_ne by exact Hkn;
      rewrite !obj_update_ne by exact Hne; auto.
Qed.

Lemma close_clientHolds id st :
  consistent None st -> _updating st = true ->
  clientHolds name document u contents st ->
  clientHolds name document u contents (close subscribers id st).
Proof.
  intros Hc Hu Hold. pose proof (close_updating subscribers id st Hu) as Hcl.
  unfold getDocument in Hcl.
  destruct (_documents st !! normalizeFilename id) as [a|] eqn:E.
  - destruct Hcl as (Hh & Hd & _).
    apply (clientHolds_ext (closeDocumentOnServer a st).2); [exact Hh | exact Hd |].
    apply (closeDocumentOnServer_clientHolds a _ st Hc E Hold).
  - rewrite Hcl. exact Hold.
Qed.

Lemma sweep_clientHolds documents st :
  consistent None st -> _updating st = true ->
  clientHolds name document u contents st ->
  clientHolds name document u contents (sweep subscribers documents st).
Proof.
  revert st. induction documents as [|a rest IH]; intros st Hc Hu Hold; [exact Hold|].
  simpl. destruct (negb (marked (obj st a)) && negb (isOpenOnClient (obj st a)));
    [|apply IH; assumption].
  apply IH.
  - apply close_consistent; assumption.
  - apply close_updating_fields, Hu.
  - apply close_clientHolds; assumption.
Qed.

Lemma rebuild_clientHolds st :
  consistent None st ->
  clientHolds name document u contents st ->
  clientHolds name document u contents (rebuild st).
Proof.
  intros Hc Hold. unfold rebuild.
  pose proof (markRoots_clientHolds (all st) st Hold) as Hm.
  pose proof (markRoots_consistent (all st) st Hc) as Hcm.
  destruct (markRoots (all st) st) as [names st1]. simpl in Hm, Hcm.
  cbv zeta.
  match goal with |- context [deliver ?r ?s] =>
    pose proof (deliver_clientHolds r s) as Hd;
    destruct (deliver r s) as [delivered st2] end.
  simpl in Hd.
  apply (clientHolds_ext st2); [reflexivity | reflexivity |].
  apply Hd; [apply consistent_with_rootNames, Hcm|].
  apply (clientHolds_ext st1); [reflexivity | reflexivity | exact Hm].
Qed.

Lemma refreshGrammar_clientHolds st :
  consistent None st ->
  clientHolds name document u contents st ->
  clientHolds name document u contents (refreshGrammar subscribers st).
Proof.
  intros Hc Hold. unfold refreshGrammar.
  set (st0 := with_updating true st).
  assert (consistent None st0) as Hc0 by (apply consistent_with_updating, Hc).
  apply (clientHolds_ext (sweep subscribers (all (rebuild st0)) (rebuild st0)));
    [reflexivity | reflexivity |].
  apply sweep_clientHolds.
  - apply rebuild_consistent, Hc0.
  - apply rebuild_fields.
  - apply rebuild_clientHolds; [exact Hc0|].
    apply (clientHolds_ext st); [reflexivity | reflexivity | exact Hold].
Qed.

Lemma grammar_clientHolds st :
  consistent None st ->
  clientHolds name document u contents st ->
  clientHolds name document u contents (grammar subscribers st).2.
Proof.
  intros Hc Hold. unfold grammar. cbn [snd].
  destruct (_grammar st); [exact Hold | apply refreshGrammar_clientHolds; assumption].
Qed.

Lemma getSourceFile_clientHolds id st :
  consistent None st ->
  clientHolds name document u contents st ->
  clientHolds name document u contents (getSourceFile subscribers id st).2.
Proof.
  intros Hc Hold. unfold getSourceFile.
  pose proof (grammar_clientHolds st Hc Hold) as Hg.
  destruct (grammar subscribers st) as [[g|] st1]; exact Hg.
Qed.

Lemma sendAllDiagnostics_clientHolds documents st :
  consistent None st ->
  clientHolds name document u contents st ->
  clientHolds name document u contents (sendAllDiagnostics subscribers documents st).2.
Proof.
  revert st. induction documents as [|a rest IH]; intros st Hc Hold; [exact Hold|].
  simpl.
  pose proof (getSourceFile_clientHolds (Path (filename (obj st a))) st Hc Hold) as Hg.
  pose proof (getSourceFile_consistent subscribers subscribers_consistent
                (Path (filename (obj st a))) st Hc) as Hc'.
  destruct (getSourceFile subscribers _ st) as [[[node|]|] st1]; simpl in Hg, Hc'.
  - apply IH; [apply consistent_fire, Hc'|].
    apply (clientHolds_ext st1); [reflexivity | reflexivity | exact Hg].
  - apply IH; assumption.
  - exact Hg.
Qed.

Lemma onDocumentsUpdated_clientHolds st :
  consistent None st ->
  clientHolds name document u contents st ->
  clientHolds name document u contents (onDocumentsUpdated subscribers st).2.
Proof.
  intros Hc Hold. unfold onDocumentsUpdated.
  pose proof (grammar_clientHolds st Hc Hold) as Hg.
  pose proof (grammar_consistent subscribers subscribers_consistent st Hc) as Hc'.
  destruct (grammar subscribers st) as [[g|] st1]; simpl in Hg, Hc'; [|exact Hg].
  apply sendAllDiagnostics_clientHolds; assumption.
Qed.
End ClientHolds.

Section ClientHoldsProgram.
Context `{Host} `{Files} `{Compiler} `{Analysis}.

Lemma subscribers_clientHolds name document u contents st :
  consistent None st ->
  clientHolds name document u contents st ->
  clientHolds name document u contents (subscribers st).
Proof.
  apply (onDocumentsUpdated_clientHolds (fun st => st)). intros st' Hc; exact Hc.
Qed.

Lemma requestUpdate_clientHolds name document u contents st :
  consistent None st ->
  clientHolds name document u contents st ->
  clientHolds name document u contents (requestUpdate subscribers st).
Proof.
  intros Hc Hold. unfold requestUpdate, reportUpdate.
  repeat match goal with |- context [if ?b then _ else _] => destruct b end;
    first
      [ exact Hold
      | apply (clientHolds_ext name document u contents st);
          [reflexivity | reflexivity | exact Hold]
      | apply (clientHolds_ext name document u contents
          (subscribers (fire DidUpdate
             (with_updateRequested false (with_updating true st)))));
          [reflexivity | reflexivity |];
        apply subscribers_clientHolds;
          [ repeat same_registry; exact Hc
          | apply (clientHolds_ext name document u contents st);
              [reflexivity | reflexivity | exact Hold] ] ].
Qed.

Lemma getOrCreateDocument_lookup name st :
  _documents (getOrCreateDocument name st).2 !! name
  = Some (getOrCreateDocument name st).1.2.
Proof.
  unfold getOrCreateDocument, getDocument.
  destruct (_documents st !! name) as [a|] eqn:E; [exact E|].
  unfold createDocument; simpl. apply lookup_insert_eq.
Qed.

(** X15.  After an open notification, and after a change notification,
    for the URI of a file (the URI [normalizeUri] gives for a path), the
    registry holds the document under the identity of its URI, open on the
    client, with the URI and the text the client sent: nothing the report
    does (the rebuild, the reads of the compiler, the sweep) takes it out
    or changes its text. *)
Theorem client_text_is_held (ops : list Operation) (path contents : string)
    (earlier : list string) :
  let st := run ops newDocumentManager in
  let u := normalizeUri (Path path) in
  let name := normalizeFilename (TextDocumentIdentifier u) in
  (exists document,
     clientHolds name document u contents
       (handleOpenClientDocument subscribers u contents st)) /\
  (exists document,
     clientHolds name document u contents
       (handleUpdateClientDocument subscribers u (earlier ++ [contents]) st)).
Proof.
  intros st u name. clearbody u.
  assert (exists document,
     clientHolds name document u contents
       (handleOpenClientDocument subscribers u contents st)) as Hopen.
  { assert (consistent None st) as Hc
      by (apply reachable_consistent, reachable_run, reachable_new).
    unfold handleOpenClientDocument. fold name.
    pose proof (getOrCreateDocument_spec name st Hc) as [Hc' Hreg'].
    pose proof (getOrCreateDocument_lookup name st) as Hl.
    destruct (getOrCreateDocument name st) as [[created a] st1].
    simpl in Hc', Hreg', Hl. cbv zeta. exists a.
    assert (a < List.length (heap st1))%nat as Hlt
      by (destruct Hc' as [K _ _]; apply (K _ _ Hl)).
    set (st2 := openDocumentOnClient a
                  (update a (set_text contents) (update a (set_uri u) st1))).
    assert (consistent None st2) as Hc2.
    { apply openDocumentOnClient_spec.
      - do 2 (apply consistent_update_other; [reflexivity | reflexivity |]).
        exact Hc'.
      - do 2 (apply registered_update; [reflexivity|]). exact Hreg'. }
    assert (clientHolds name a u contents st2) as Hold.
    { unfold st2, openDocumentOnClient.
      assert (a < List.length
                (heap (update a (set_text contents) (update a (set_uri u) st1))))%nat
        as Hlt' by (rewrite !length_heap_update; exact Hlt).
      destruct (isOpenOnClient (obj (update a (set_text contents)
                  (update a (set_uri u) st1)) a)) eqn:E; cbn [negb];
        unfold clientHolds; rewrite ?documents_update;
        rewrite ?(obj_update_eq a (set_isOpenOnClient true)) by exact Hlt';
        cbn [isOpenOnClient text uri set_isOpenOnClient];
        rewrite ?E;
        rewrite (obj_update_eq a (set_text contents))
          by (rewrite length_heap_update; exact Hlt);
        cbn [text uri set_text];
        rewrite obj_update_eq by exact Hlt; auto. }
    repeat match goal with |- context [if ?b then _ else _] => destruct b end;
      first [ apply requestUpdate_clientHolds; [repeat same_registry; exact Hc2|]
            | idtac ];
      (apply (clientHolds_ext name a u contents st2);
         [reflexivity | reflexivity | exact Hold]). }
  split; [exact Hopen|].
  unfold handleUpdateClientDocument. rewrite last_snoc. exact Hopen.
Qed.
End ClientHoldsProgram.

(** ** The root names *)

Section RootNames.
Context `{Host} `{Files} `{Compiler} `{Analysis}.

(** The first loop collects the names of the documents open on the client,
    in the order of the listing. *)
Lemma markRoots_names documents st :
  (markRoots documents st).1
  = map (fun document => filename (obj st document))
        (filter (fun document => isOpenOnClient (obj st document) = true) documents).
Proof.
  revert st. induction documents as [|b rest IH]; intros st; [reflexivity|].
  simpl markRoots.
  assert (forall m,
    map (fun document => filename (obj (update b (set_marked m) st) document))
      (filter (fun document =>
                 isOpenOnClient (obj (update b (set_marked m) st) document) = true)
              rest)
    = map (fun document => filename (obj st document))
        (filter (fun document => isOpenOnClient (obj st document) = true) rest))
    as Hsame.
  { intros m. rewrite (list_filter_iff _
      (fun document => isOpenOnClient (obj st document) = true)).
    - apply map_ext. intros a. apply (obj_update_field filename). reflexivity.
    - intros a. rewrite (obj_update_field isOpenOnClient) by reflexivity.
      reflexivity. }
  destruct (isOpenOnClient (obj st b)) eqn:E.
  - specialize (IH (update b (set_marked true) st)).
    destruct (markRoots rest _) as [names st']. cbn [fst snd] in *.
    rewrite filter_cons_True by exact E. simpl.
    rewrite (obj_update_field filename) by reflexivity.
    rewrite IH, Hsame. reflexivity.
  - rewrite filter_cons_False by (rewrite E; discriminate).
    rewrite IH, Hsame. reflexivity.
Qed.

Lemma markRoots_member st n :
  consistent None st ->
  n ∈ (markRoots (all st) st).1 <->
  exists document,
    _documents st !! n = Some document /\
    isOpenOnClient (obj st document) = true.
Proof.
  intros [K _ _]. rewrite markRoots_names. split.
  - intros Hin. apply list_elem_of_In, in_map_iff in Hin as (b & <- & Hb).
    apply list_elem_of_In, list_elem_of_filter in Hb as [Hclient Hb].
    exists b. split; [|exact Hclient].
    unfold all in Hb. apply list_elem_of_fmap in Hb as ([k b'] & -> & Hb).
    apply elem_of_map_to_list in Hb. simpl.
    destruct (K _ _ Hb) as [_ ->]. exact Hb.
  - intros (b & Hl & Hclient).
    apply list_elem_of_In, in_map_iff. exists b. split.
    + apply (K _ _ Hl).
    + apply list_elem_of_In, list_elem_of_filter. split; [exact Hclient|].
      apply (all_elem st b n Hl).
Qed.

Variable subscribers : DocumentManager -> DocumentManager.

Lemma close_updating_rootNames id st :
  _updating st = true ->
  _rootNames (close subscribers id st) = None \/
  _rootNames (close subscribers id st) = _rootNames st.
Proof.
  intros Hu. unfold close.
  destruct (getDocument (normalizeFilename id) st) as [a|]; [|right; reflexivity].
  pose proof (control_closeDocumentOnServer a st) as Hctl.
  apply control_fields in Hctl as (Hr & _ & _ & _ & Hup & _).
  destruct (closeDocumentOnServer a st) as [removed st1]. simpl in *.
  repeat first
    [ rewrite requestUpdate_updating by (simpl; congruence)
    | match goal with |- context [if ?b then _ else _] => destruct b end ];
    simpl; auto.
Qed.

Lemma sweep_updating_rootNames documents st :
  _updating st = true ->
  _rootNames (sweep subscribers documents st) = None \/
  _rootNames (sweep subscribers documents st) = _rootNames st.
Proof.
  revert st. induction documents as [|a rest IH]; intros st Hu; [right; reflexivity|].
  simpl. destruct (negb (marked (obj st a)) && negb (isOpenOnClient (obj st a)));
    [|apply IH, Hu].
  destruct (close_updating_fields subscribers (Path (filename (obj st a))) st Hu)
    as (Hu' & _).
  destruct (IH _ Hu') as [Hn|He]; [left; exact Hn|].
  destruct (close_updating_rootNames (Path (filename (obj st a))) st Hu) as [Hn|He'];
    [left | right]; congruence.
Qed.

Lemma rebuild_rootNames st :
  _rootNames (rebuild st) = Some (markRoots (all st) st).1.
Proof.
  unfold rebuild. destruct (markRoots (all st) st) as [names st1]. cbv zeta.
  match goal with |- context [deliver ?r ?s] =>
    pose proof (control_deliver r s) as Hd;
    destruct (deliver r s) as [delivered st2] end.
  apply control_fields in Hd as (Hr & _). simpl in *. exact Hr.
Qed.

(** X16.  When the accessor [rootNames] has to rebuild and gives names,
    they are the identities of exactly the documents that are open on the
    client, each once. *)
Theorem rootNames_client_open (ops : list Operation) (names : list string) :
  let st := run ops newDocumentManager in
  _rootNames st = None ->
  (rootNames subscribers st).1 = Some names ->
  NoDup names /\
  forall n, n ∈ names <->
    exists document,
      _documents st !! n = Some document /\
      isOpenOnClient (obj st document) = true.
Proof.
  intros st Hnone Hnames.
  assert (consistent None st) as Hc
    by (apply reachable_consistent, reachable_run, reachable_new).
  unfold rootNames in Hnames. rewrite Hnone in Hnames. cbn [fst] in Hnames.
  unfold refreshGrammar in Hnames. simpl in Hnames.
  set (st0 := with_updating true st) in *.
  destruct (rebuild_fields st0) as (_ & Hu & _).
  destruct (sweep_updating_rootNames (all (rebuild st0)) (rebuild st0) Hu)
    as [Hn|He]; [congruence|].
  rewrite He, rebuild_rootNames in Hnames. injection Hnames as <-.
  assert (consistent None st0) as Hc0 by (apply consistent_with_updating, Hc).
  split.
  - rewrite markRoots_names.
    assert (NoDup (all st0)) as Hnd.
    { unfold all. apply NoDup_fmap_2_strong; [|apply NoDup_map_to_list].
      intros [k a] [k' a'] Hin Hin' Heq. simpl in Heq. subst a'.
      apply elem_of_map_to_list in Hin, Hin'. destruct Hc0 as [K _ _].
      destruct (K _ _ Hin) as [_ <-]. destruct (K _ _ Hin') as [_ <-]. reflexivity. }
    apply (NoDup_fmap_2_strong (fun document => filename (obj st0 document))).
    + intros a a' Hin Hin' Heq.
      apply list_elem_of_filter in Hin as [_ Hin], Hin' as [_ Hin'].
      unfold all in Hin, Hin'.
      apply list_elem_of_fmap in Hin as ([k b] & -> & Hin).
      apply list_elem_of_fmap in Hin' as ([k' b'] & -> & Hin').
      apply elem_of_map_to_list in Hin, Hin'. simpl in *.
      destruct Hc0 as [K _ _].
      destruct (K _ _ Hin) as [_ Hk]. destruct (K _ _ Hin') as [_ Hk'].
      rewrite Hk, Hk' in Heq. subst k'. congruence.
    + apply NoDup_filter, Hnd.
  - intros n. apply (markRoots_member st0 n Hc0).
Qed.
End RootNames.

(** ** A server-side open and the report it triggers *)

Section OpenSwept.
Context `{Host} `{Files} `{Compiler} `{Analysis}.

(** A rebuild that takes a document out leaves no compilation state. *)
Lemma refreshGrammar_reclaims_grammar (nested : DocumentManager -> DocumentManager)
    st k a :
  _documents st !! k = Some a ->
  _documents (refreshGrammar nested st) !! k = None ->
  _grammar (refreshGrammar nested st) = None.
Proof.
  intros Hin Hout. unfold refreshGrammar in *. simpl in *.
  destruct (rebuild_fields (with_updating true st)) as (_ & Hu & _).
  destruct (sweep_updating_grammar nested (all (rebuild (with_updating true st)))
              (rebuild (with_updating true st)) Hu) as [[Hd _]|Hnone];
    [|exact Hnone].
  rewrite Hd, (rebuild_lookup (with_updating true st) k a Hin) in Hout.
  discriminate.
Qed.

(** X17.  With updates not suspended, take a readable file that is not
    tracked, whose identity normalizes to itself and which the compiler
    asks for only as a root.  [open] returns its document, but the report
    that [open] itself triggers rebuilds and sweeps: when [open] returns
    the document is out of the registry again and the compilation state is
    discarded. *)
Theorem open_swept_by_own_report (ops : list Operation) (id : Locator)
    (contents : string) :
  let st := run ops newDocumentManager in
  let name := normalizeFilename id in
  _updateSuspended st = 0%nat ->
  host_readFile name = Some contents ->
  getDocument name st = None ->
  normalizeFilename (Path name) = name ->
  (forall rootNames oldGrammar view,
     name ∉ rootNames -> name ∉ compiler_reads rootNames oldGrammar view) ->
  is_Some (open subscribers id st).1 /\
  getDocument name (open subscribers id st).2 = None /\
  _grammar (open subscribers id st).2 = None.
Proof.
  intros st name Hs Hread Hget Hcanon Hnever.
  assert (consistent None st) as Hc
    by (apply reachable_consistent, reachable_run, reachable_new).
  assert (_updating st = false) as Hu by apply run_not_updating.
  unfold open. fold name. rewrite Hread.
  pose proof (getOrCreateDocument_spec name st Hc) as [Hc' Hreg'].
  pose proof (getOrCreateDocument_lookup name st) as Hl.
  pose proof (control_getOrCreateDocument name st) as Hctl.
  pose proof (obj_createDocument name st) as Hnew.
  unfold getOrCreateDocument in *. rewrite Hget in *.
  destruct (createDocument name st) as [a st1]. cbn [fst snd] in *.
  apply control_fields in Hctl as (_ & _ & Hs1 & _ & Hu1 & _).
  cbv zeta. cbn [fst snd]. rewrite Hnew.
  cbn [text isOpenOnServer newGrammarDocument].
  rewrite bool_decide_eq_false_2 by discriminate. cbn [negb].
  assert (a < List.length (heap st1))%nat as Hlt
    by (destruct Hc' as [K _ _]; apply (K _ _ Hl)).
  set (st2 := openDocumentOnServer a
                (update a (set_text contents)
                   (update a (set_uri (normalizeUri id)) st1))).
  assert (consistent None st2) as Hc2.
  { apply openDocumentOnServer_spec.
    - do 2 (apply consistent_update_other; [reflexivity | reflexivity |]).
      exact Hc'.
    - do 2 (apply registered_update; [reflexivity|]). exact Hreg'. }
  assert (control st2 = control st1) as Hctl2
    by (unfold st2; rewrite control_openDocumentOnServer; reflexivity).
  apply control_fields in Hctl2 as (_ & _ & Hs2 & _ & Hu2 & _).
  assert (held name a st2) as Hheld.
  { unfold held, st2, openDocumentOnServer.
    destruct (negb _); rewrite ?documents_update;
      rewrite ?(obj_update_field isOpenOnClient) by reflexivity;
      rewrite Hnew; auto. }
  set (st3 := fire (DidChangeContent a)
                (fire (DidCloseOnServer a) (fire (DidOpen a) (invalidateGrammar st2)))).
  unfold requestUpdate.
  assert (_updateSuspended st3 = 0%nat) as Hs3 by (simpl; congruence).
  rewrite Hs3. simpl Nat.ltb. cbv iota.
  unfold reportUpdate.
  assert (_updating st3 = false) as Hu3 by (simpl; congruence).
  rewrite Hu3. cbn [negb]. cbv zeta.
  set (st4 := fire DidUpdate (with_updateRequested false (with_updating true st3))).
  assert (consistent None st4) as Hc4 by (repeat same_registry; exact Hc2).
  assert (held name a st4) as Hheld4
    by (apply (held_ext name a st2); [reflexivity | reflexivity | exact Hheld]).
  assert (gone name (refreshGrammar (fun st => st) st4)) as Hgone.
  { apply (refreshGrammar_reclaims (fun st => st) (fun st' Hst' => Hst') name a);
      [exact Hcanon | exact Hc4 | exact Hheld4 |].
    unfold rebuildReads.
    pose proof (markRoots_member (with_updating true st4) name
                  (consistent_with_updating _ _ _ Hc4)) as Hroots.
    destruct (markRoots _ _) as [names st5]. apply Hnever.
    cbn [fst] in Hroots. intros Hin. apply Hroots in Hin as (b & Hb & Hclient).
    destruct Hheld4 as [Hl4 Hcl4].
    change (_documents (with_updating true st4)) with (_documents st4) in Hb.
    rewrite Hl4 in Hb. injection Hb as <-.
    change (obj (with_updating true st4) a) with (obj st4 a) in Hclient.
    congruence. }
  assert (_grammar (refreshGrammar (fun st => st) st4) = None) as Hnone
    by (apply (refreshGrammar_reclaims_grammar _ st4 name a);
        [apply Hheld4 | exact Hgone]).
  assert (subscribers st4 = refreshGrammar (fun st => st) st4) as ->.
  { unfold subscribers, onDocumentsUpdated, grammar.
    change (_grammar st4) with (@None Grammar). cbv iota.
    rewrite Hnone. reflexivity. }
  split; [eexists; reflexivity|].
  split; [exact Hgone | exact Hnone].
Qed.
End OpenSwept.

(** ** The stream that never fires *)

Lemma neverOpenedOnServer_ext st st' :
  events st' = events st -> neverOpenedOnServer st -> neverOpenedOnServer st'.
Proof. unfold neverOpenedOnServer. intros ->. auto. Qed.

Lemma neverOpenedOnServer_fire e st :
  isDidOpenOnServer e = false ->
  neverOpenedOnServer st -> neverOpenedOnServer (fire e st).
Proof.
  unfold neverOpenedOnServer. intros He Hst. simpl.
  apply Forall_app. split; [exact Hst|]. repeat constructor. exact He.
Qed.

(** The result of a method, event by event, down to a state with the
    trace of the state the method started from. *)
Ltac trace st HQ request :=
  repeat first
    [ apply request
    | apply neverOpenedOnServer_fire; [reflexivity|]
    | apply (neverOpenedOnServer_ext st); [simpl; congruence | exact HQ] ].

Section NeverOpenedOnServer.
Context `{Host} `{Files} `{Compiler} `{Analysis}.
Variable subscribers : DocumentManager -> DocumentManager.
Hypothesis subscribers_trace :
  forall st, neverOpenedOnServer st -> neverOpenedOnServer (subscribers st).

Lemma reportUpdate_trace st :
  neverOpenedOnServer st -> neverOpenedOnServer (reportUpdate subscribers st).
Proof.
  intros HQ. unfold reportUpdate. destruct (negb (_updating st)); [|exact HQ].
  apply (neverOpenedOnServer_ext
    (subscribers (fire DidUpdate (with_updateRequested false (with_updating true st)))));
    [reflexivity|].
  apply subscribers_trace, neverOpenedOnServer_fire; [reflexivity|].
  apply (neverOpenedOnServer_ext st); [reflexivity | exact HQ].
Qed.

Lemma requestUpdate_trace st :
  neverOpenedOnServer st -> neverOpenedOnServer (requestUpdate subscribers st).
Proof.
  intros HQ. unfold requestUpdate.
  destruct (0 <? _updateSuspended st)%nat; [|apply reportUpdate_trace, HQ].
  apply (neverOpenedOnServer_ext st); [reflexivity | exact HQ].
Qed.

Lemma open_trace id st :
  neverOpenedOnServer st -> neverOpenedOnServer (open subscribers id st).2.
Proof.
  intros HQ. unfold open.
  destruct (host_readFile (normalizeFilename id)) as [contents|]; [|exact HQ].
  pose proof (control_getOrCreateDocument (normalizeFilename id) st) as Hctl.
  destruct (getOrCreateDocument (normalizeFilename id) st) as [[created a] st1].
  apply control_fields in Hctl as (_ & _ & _ & _ & _ & He1). simpl in He1.
  cbv zeta. cbn [snd].
  set (st2 := openDocumentOnServer a _).
  assert (control st2 = control st1) as Hctl2
    by (unfold st2; rewrite control_openDocumentOnServer; reflexivity).
  apply control_fields in Hctl2 as (_ & _ & _ & _ & _ & He2).
  repeat match goal with |- context [if ?b then _ else _] => destruct b end;
    trace st HQ requestUpdate_trace.
Qed.

Lemma close_trace id st :
  neverOpenedOnServer st -> neverOpenedOnServer (close subscribers id st).
Proof.
  intros HQ. unfold close.
  destruct (getDocument (normalizeFilename id) st) as [a|]; [|exact HQ].
  pose proof (control_closeDocumentOnServer a st) as Hctl.
  destruct (closeDocumentOnServer a st) as [removed st1].
  apply control_fields in Hctl as (_ & _ & _ & _ & _ & He1). simpl in He1.
  repeat match goal with |- context [if ?b then _ else _] => destruct b end;
    trace st HQ requestUpdate_trace.
Qed.

Lemma handleOpenClientDocument_trace uri' contents st :
  neverOpenedOnServer st ->
  neverOpenedOnServer (handleOpenClientDocument subscribers uri' contents st).
Proof.
  intros HQ. unfold handleOpenClientDocument. set (name := normalizeFilename _).
  pose proof (control_getOrCreateDocument name st) as Hctl.
  destruct (getOrCreateDocument name st) as [[created a] st1].
  apply control_fields in Hctl as (_ & _ & _ & _ & _ & He1). simpl in He1.
  cbv zeta.
  set (st2 := openDocumentOnClient a _).
  assert (control st2 = control st1) as Hctl2
    by (unfold st2; rewrite control_openDocumentOnClient; reflexivity).
  apply control_fields in Hctl2 as (_ & _ & _ & _ & _ & He2).
  repeat match goal with |- context [if ?b then _ else _] => destruct b end;
    trace st HQ requestUpdate_trace.
Qed.

Lemma handleCloseClientDocument_trace uri' st :
  neverOpenedOnServer st ->
  neverOpenedOnServer (handleCloseClientDocument subscribers uri' st).
Proof.
  intros HQ. unfold handleCloseClientDocument. set (name := normalizeFilename _).
  destruct (getDocument name st) as [a|]; [|exact HQ].
  pose proof (control_closeDocumentOnClient a st) as Hctl.
  destruct (closeDocumentOnClient a st) as [removed st1].
  apply control_fields in Hctl as (_ & _ & _ & _ & _ & He1). simpl in He1.
  repeat match goal with |- context [if ?b then _ else _] => destruct b end;
    trace st HQ requestUpdate_trace.
Qed.

Lemma resumeUpdates_trace st :
  neverOpenedOnServer st -> neverOpenedOnServer (resumeUpdates subscribers st).
Proof.
  intros HQ. unfold resumeUpdates.
  repeat match goal with |- context [if ?b then _ else _] => destruct b end;
    trace st HQ reportUpdate_trace.
Qed.

Lemma sweep_trace documents st :
  neverOpenedOnServer st -> neverOpenedOnServer (sweep subscribers documents st).
Proof.
  revert st. induction documents as [|a rest IH]; intros st HQ; [exact HQ|].
  simpl. apply IH.
  destruct (negb (marked (obj st a)) && negb (isOpenOnClient (obj st a)));
    [apply close_trace|]; exact HQ.
Qed.

Lemma refreshGrammar_trace st :
  neverOpenedOnServer st -> neverOpenedOnServer (refreshGrammar subscribers st).
Proof.
  intros HQ. unfold refreshGrammar.
  apply (neverOpenedOnServer_ext
    (sweep subscribers (all (rebuild (with_updating true st)))
       (rebuild (with_updating true st)))); [reflexivity|].
  apply sweep_trace.
  destruct (rebuild_fields (with_updating true st)) as (_ & _ & _ & He).
  apply (neverOpenedOnServer_ext st); [exact He | exact HQ].
Qed.

Lemma grammar_trace st :
  neverOpenedOnServer st -> neverOpenedOnServer (grammar subscribers st).2.
Proof.
  intros HQ. unfold grammar. cbn [snd].
  destruct (_grammar st); [exact HQ | apply refreshGrammar_trace, HQ].
Qed.

Lemma getSourceFile_trace id st :
  neverOpenedOnServer st -> neverOpenedOnServer (getSourceFile subscribers id st).2.
Proof.
  intros HQ. unfold getSourceFile. pose proof (grammar_trace st HQ) as Hg.
  destruct (grammar subscribers st) as [[g|] st1]; exact Hg.
Qed.

Lemma sendAllDiagnostics_trace documents st :
  neverOpenedOnServer st ->
  neverOpenedOnServer (sendAllDiagnostics subscribers documents st).2.
Proof.
  revert st. induction documents as [|a rest IH]; intros st HQ; [exact HQ|].
  simpl.
  pose proof (getSourceFile_trace (Path (filename (obj st a))) st HQ) as Hg.
  destruct (getSourceFile subscribers _ st) as [[[node|]|] st1]; simpl in Hg.
  - apply IH, neverOpenedOnServer_fire; [reflexivity | exact Hg].
  - apply IH, Hg.
  - exact Hg.
Qed.

Lemma onDocumentsUpdated_trace st :
  neverOpenedOnServer st ->
  neverOpenedOnServer (onDocumentsUpdated subscribers st).2.
Proof.
  intros HQ. unfold onDocumentsUpdated.
  pose proof (grammar_trace st HQ) as Hg.
  destruct (grammar subscribers st) as [[g|] st1]; simpl in Hg; [|exact Hg].
  apply sendAllDiagnostics_trace, Hg.
Qed.
End NeverOpenedOnServer.

Section NeverOpenedOnServerProgram.
Context `{Host} `{Files} `{Compiler} `{Analysis}.

Lemma program_subscribers_trace st :
  neverOpenedOnServer st -> neverOpenedOnServer (subscribers st).
Proof.
  apply (onDocumentsUpdated_trace (fun st => st)). intros st' HQ; exact HQ.
Qed.

Lemma perform_trace op st :
  neverOpenedOnServer st -> neverOpenedOnServer (perform op st).
Proof.
  intros HQ. pose proof program_subscribers_trace as Hsub.
  destruct op as [id|id| | | | |id|u contents|u contentChanges|u|name|u p|u p|id p n];
    simpl.
  - apply open_trace; assumption.
  - apply close_trace; assumption.
  - exact HQ.
  - apply resumeUpdates_trace; assumption.
  - unfold rootNames. cbn [snd].
    destruct (_rootNames st); [exact HQ | apply refreshGrammar_trace; assumption].
  - apply grammar_trace; assumption.
  - apply getSourceFile_trace; assumption.
  - apply handleOpenClientDocument_trace; assumption.
  - unfold handleUpdateClientDocument.
    destruct (last contentChanges) as [contents|]; [|exact HQ].
    apply (handleOpenClientDocument_trace subscribers Hsub u contents st HQ).
  - apply handleCloseClientDocument_trace; assumption.
  - pose proof (control_readFile name st) as Hctl.
    apply control_fields in Hctl as (_ & _ & _ & _ & _ & He).
    apply (neverOpenedOnServer_ext st); assumption.
  - rewrite onDefinition_state.
    apply getSourceFile_trace, grammar_trace; assumption.
  - rewrite onReferences_state.
    apply getSourceFile_trace, grammar_trace; assumption.
  - rewrite onRenameRequest_state.
    apply getSourceFile_trace, grammar_trace; assumption.
Qed.

(** X18.  Whatever the operations, the opened-on-server stream never
    fires: no event of it is in the trace.  A document that becomes open on
    the server is announced, by [open], on the closed-on-server stream, and
    by the read-callback not at all. *)
Theorem opened_on_server_never_fires (ops : list Operation) :
  Forall (fun e => isDidOpenOnServer e = false)
         (events (run ops newDocumentManager)).
Proof.
  assert (forall l s, neverOpenedOnServer s -> neverOpenedOnServer (run l s)) as Hrun.
  { induction l as [|op l IH]; intros s HQ; [exact HQ|].
    simpl. apply IH, perform_trace, HQ. }
  apply (Hrun ops newDocumentManager). constructor.
Qed.
End NeverOpenedOnServerProgram.

(** ** Instances of the properties above *)

Section FurtherExamples.
#[local] Existing Instances example_host example_files example_compiler example_analysis.

Lemma normalizeUri_plain_witness :
  allChars isPlain "src\lib\x.grammar" = true /\
  normalizeUri (Path "src\lib\x.grammar") = "file:///src/lib/x.grammar".
Proof.
  split; [reflexivity|].
  apply (normalizeUri_plain "src\lib\x.grammar"). reflexivity.
Defined.

Lemma getLocationsOfNodes_file_uris_witness :
  Forall (fun location =>
            String.prefix "file:///" (location_uri location) = true)
    [mkLocation "file:///ws/a.grammar" (mkRange (mkPosition 0 0) (mkPosition 0 0))] /\
  (List.length
     [mkLocation "file:///ws/a.grammar" (mkRange (mkPosition 0 0) (mkPosition 0 0))]
   <= List.length (default [] (Some ["/ws/a.grammar"])))%nat.
Proof.
  apply (@getLocationsOfNodes_file_uris example_named_analysis
           (Some ["/ws/a.grammar"]) (NewGrammar [] None [])).
  vm_compute. reflexivity.
Defined.

Lemma dual_close_witness :
  let st := run example_dual_ops newDocumentManager in
  let name := normalizeFilename (Path "b.grammar") in
  getDocument name (handleCloseClientDocument subscribers example_b st) = Some 1%nat /\
  getDocument name (close subscribers (Path "b.grammar") st) = Some 1%nat /\
  getDocument name
    (close subscribers (Path "b.grammar")
       (handleCloseClientDocument subscribers example_b st)) = None /\
  getDocument name
    (handleCloseClientDocument subscribers example_b
       (close subscribers (Path "b.grammar") st)) = None.
Proof.
  apply (dual_close example_dual_ops (Path "b.grammar") example_b 1%nat).
  - vm_compute. lia.
  - vm_compute. reflexivity.
  - vm_compute. reflexivity.
  - vm_compute. reflexivity.
  - vm_compute. reflexivity.
Defined.

Lemma rootNames_client_open_witness :
  let st := run example_suspended_ops newDocumentManager in
  NoDup ["/ws/a.grammar"] /\
  forall n, n ∈ ["/ws/a.grammar"] <->
    exists document,
      _documents st !! n = Some document /\
      isOpenOnClient (obj st document) = true.
Proof.
  apply (rootNames_client_open subscribers example_suspended_ops ["/ws/a.grammar"]).
  - vm_compute. reflexivity.
  - vm_compute. reflexivity.
Defined.

(** The example compiler reads [x.grammar] only as a root: no file
    imports it. *)
Lemma example_compiler_reads_x rootNames oldGrammar view :
  normalizeFilename (Path "x.grammar") ∉ rootNames ->
  normalizeFilename (Path "x.grammar") ∉ compiler_reads rootNames oldGrammar view.
Proof.
  intros Hroot Hin.
  change (compiler_reads rootNames oldGrammar view)
    with (rootNames ++ flat_map (fun name => example_imports (view name)) rootNames)
    in Hin.
  apply elem_of_app in Hin as [Hin|Hin]; [contradiction|].
  apply list_elem_of_In, in_flat_map in Hin as (n & _ & Hn).
  unfold example_imports in Hn.
  destruct (view n) as [contents|]; [|destruct Hn].
  destruct (String.eqb contents "@import b"); [|destruct Hn].
  destruct Hn as [Hn|[]]. vm_compute in Hn. discriminate.
Qed.

Lemma open_swept_by_own_report_witness :
  let st := run [] newDocumentManager in
  let name := normalizeFilename (Path "x.grammar") in
  is_Some (open subscribers (Path "x.grammar") st).1 /\
  getDocument name (open subscribers (Path "x.grammar") st).2 = None /\
  _grammar (open subscribers (Path "x.grammar") st).2 = None.
Proof.
  apply (open_swept_by_own_report [] (Path "x.grammar") "X ::= x").
  - reflexivity.
  - vm_compute. reflexivity.
  - vm_compute. reflexivity.
  - vm_compute. reflexivity.
  - apply example_compiler_reads_x.
Defined.
End FurtherExamples.
